(** * amplifyUtils: the deployment-assembly pipeline of graphql-transformer-core

    A shallow embedding of
    [packages/graphql-transformer-core/src/util/amplifyUtils.ts]:
    the project loader ([readProjectConfiguration]), the merger
    ([mergeUserConfigWithTransformOutput]), the writer
    ([writeDeploymentToDisk]), the per-file uploader ([uploadFile]) and the
    orchestrator ([buildProject]).

    Conventions of the embedding.
    - A JavaScript object used as a dictionary is an insertion-ordered
      association list ([JsObject.obj]) of its own properties; the special
      enumeration order of integer-like keys is not modelled.  Where the
      source indexes a dictionary with a text taken from a template (a
      resource type, a declared parameter name), the members inherited from
      [Object.prototype] are modelled too ([Merger.inheritedMember]); the
      names of stacks and resolvers are file names and are looked up among
      the own properties.
    - A thrown value is a [JsError]; a function that may throw returns a
      [Result]; an [async] function returns a settled [Promise].
    - The file system is a tree of [Node]s addressed by a list of path
      segments; a name read from a directory is a single segment, and a name
      the writer takes from a bundle goes through [path_normalize].
    - [JSON.parse], [JSON.stringify], the transform engine, the upload
      transport and the table [ResourceConstants] live outside the file and are
      parameters. *)

From Stdlib Require Import List String Ascii Bool Arith ZArith Lia.
Import ListNotations.

Set Warnings "-register-all".
Local Open Scope string_scope.
Local Open Scope list_scope.

(* ================================================================== *)
(** * Part I: definitions                                              *)
(* ================================================================== *)

(** ** JavaScript strings *)

Module JsString.

(** [s.split(sep)] for a separator recognised character by character:
    [split (Ascii.eqb ".")] is [s.split('.')] and
    [split (fun c => negb (isAlpha c))] is [s.split(/[^A-Za-z]/)].
    [acc] is the piece under construction, most recent character first. *)
Fixpoint rev_string (acc : string) (s : string) : string :=
  match s with
  | EmptyString => acc
  | String c s' => rev_string (String c acc) s'
  end.

Fixpoint split_aux (sep : ascii -> bool) (acc : string) (s : string)
  : list string :=
  match s with
  | EmptyString => [rev_string "" acc]
  | String c s' =>
      if sep c then rev_string "" acc :: split_aux sep "" s'
      else split_aux sep (String c acc) s'
  end.

Definition split (sep : ascii -> bool) (s : string) : list string :=
  split_aux sep "" s.

(** [parts.join(sep)] *)
Fixpoint join (sep : string) (parts : list string) : string :=
  match parts with
  | [] => ""
  | [p] => p
  | p :: rest => (p ++ sep ++ join sep rest)%string
  end.

(** The class [[A-Za-z]]. *)
Definition isAlpha (c : ascii) : bool :=
  let n := nat_of_ascii c in
  (((65 <=? n) && (n <=? 90)) || ((97 <=? n) && (n <=? 122)))%nat.

Definition isDot (c : ascii) : bool := Ascii.eqb c ".".

Definition isSlash (c : ascii) : bool := Ascii.eqb c "/".

(** [s.includes(t)], as a proposition: [t] occurs in [s]. *)
Definition includes (s t : string) : Prop :=
  exists pre post, s = (pre ++ t ++ post)%string.

End JsString.

(** ** JavaScript objects used as dictionaries *)

Module JsObject.

Definition obj (A : Type) : Type := list (string * A).

Definition empty {A} : obj A := [].

(** [o[k]]; [None] is [undefined]. *)
Fixpoint get {A} (k : string) (o : obj A) : option A :=
  match o with
  | [] => None
  | (k', v) :: o' => if String.eqb k k' then Some v else get k o'
  end.

(** [o[k] = v]: an existing key keeps its place, a new one goes last. *)
Fixpoint set {A} (k : string) (v : A) (o : obj A) : obj A :=
  match o with
  | [] => [(k, v)]
  | (k', v') :: o' =>
      if String.eqb k k' then (k', v) :: o' else (k', v') :: set k v o'
  end.

(** [Object.keys(o)] *)
Definition keys {A} (o : obj A) : list string := map fst o.

Definition has {A} (k : string) (o : obj A) : bool :=
  match get k o with Some _ => true | None => false end.

End JsObject.

Import JsObject.

(** ** Thrown values, results and promises *)

Definition Path := list string.

(** [path.join(p, name)] and [p + '/' + name] for a single segment. *)
Definition path_join (p : Path) (name : string) : Path := p ++ [name].

(** The textual form of a path, as it appears in messages. *)
Definition path_string (p : Path) : string :=
  ("/" ++ JsString.join "/" p)%string.

Inductive JsError : Type :=
| Error (message : string)                (* [new Error(message)] *)
| TypeError (message : string)            (* raised by the runtime *)
| SystemError (code : string) (p : Path)  (* raised by [fs] *)
| Thrown (tag : string).                  (* raised by a collaborator *)

Inductive Result (A : Type) : Type :=
| Ok (a : A)
| Err (e : JsError).
Arguments Ok {A} a.
Arguments Err {A} e.

Definition bind {A B} (r : Result A) (k : A -> Result B) : Result B :=
  match r with
  | Ok a => k a
  | Err e => Err e
  end.

Notation "x <- r ;; k" := (bind r (fun x => k))
  (at level 61, r at next level, right associativity).

Inductive Promise (A : Type) : Type :=
| Resolved (a : A)
| Rejected (e : JsError).
Arguments Resolved {A} a.
Arguments Rejected {A} e.

(** The promise an [async] function returns for a body that ran to
    completion. *)
Definition settle {A} (r : Result A) : Promise A :=
  match r with
  | Ok a => Resolved a
  | Err e => Rejected e
  end.

(** ** DirectoryUploader: [uploadFile] *)

Module Uploader.

Record Blob : Type := { Key : string; Body : string }.

(** What the transport did: [upload] was invoked, or a timer of [ms]
    milliseconds elapsed between two attempts. *)
Inductive Event : Type :=
| Invoked (blob : Blob)
| Waited (ms : Z).

(** The world the uploader runs in: how many times the transport has been
    invoked, and the events so far, oldest first. *)
Record World : Type := { calls : nat; events : list Event }.

Definition initial : World := {| calls := 0; events := [] |}.

(** [UploadOptions]: the transport answers its [n]-th invocation (counted
    from 0) either with a location or by rejecting. *)
Record UploadOptions : Type := {
  directory : Path;
  upload : nat -> Blob -> Result string
}.

Definition invoke (opts : UploadOptions) (blob : Blob) (w : World)
  : Result string * World :=
  (upload opts (calls w) blob,
   {| calls := S (calls w); events := events w ++ [Invoked blob] |}).

(** [await new Promise(res => setTimeout(() => res(), ms))] *)
Definition setTimeout (ms : Z) (w : World) : World :=
  {| calls := calls w; events := events w ++ [Waited ms] |}.

(** [uploadFile(opts, key, body, backoffMS, numTries)].  The attempt
    budget is a natural number; the recursion of the source, guarded by
    [numTries > 1] and called with [numTries - 1], is structural on it.  The
    delay is a whole number of milliseconds: it stands for the number of the
    source as long as doubling keeps that one exact, which the theorems on
    the waits ask for with [timerDelay]. *)
Fixpoint uploadFile (opts : UploadOptions) (key body : string)
    (backoffMS : Z) (numTries : nat) (w : World)
  : Promise string * World :=
  match invoke opts {| Key := key; Body := body |} w with
  | (Ok location, w1) => (Resolved location, w1)
  | (Err e, w1) =>
      match numTries with
      | S n =>
          if (1 <? numTries)%nat then
            let w2 := setTimeout backoffMS w1 in
            match uploadFile opts key body (backoffMS * 2) n w2 with
            | (Rejected e', w3) => (Rejected e', w3)  (* the await throws *)
            | (Resolved _, w3) => (Rejected e, w3)    (* falls to [throw e] *)
            end
          else (Rejected e, w1)
      | O => (Rejected e, w1)
      end
  end.

Definition default_backoffMS : Z := 1000.
Definition default_numTries : nat := 5.

(** [uploadFile(opts, key, body)] as [uploadDirectory] calls it. *)
Definition uploadFile_default (opts : UploadOptions) (key body : string)
  : Promise string * World :=
  uploadFile opts key body default_backoffMS default_numTries initial.

(** The waits of a run, in order. *)
Fixpoint waits (evs : list Event) : list Z :=
  match evs with
  | [] => []
  | Waited ms :: evs' => ms :: waits evs'
  | Invoked _ :: evs' => waits evs'
  end.

(** A transport stub that rejects its first [k] invocations, the [n]-th
    with [err n], and resolves every later one with [location]. *)
Definition failsThenSucceeds (k : nat) (err : nat -> JsError)
    (location : string) : nat -> Blob -> Result string :=
  fun n _ => if (n <? k)%nat then Err (err n) else Ok location.

(** A transport stub that rejects every invocation, the [n]-th with
    [err n]. *)
Definition alwaysFails (err : nat -> JsError) : nat -> Blob -> Result string :=
  fun n _ => Err (err n).

End Uploader.

(** ** Infrastructure templates (the shapes of [cloudform-types]) *)

(** Intrinsic-function values the merger builds. *)
Inductive Value : Type :=
| Str (s : string)
| Ref (logicalName : string)                        (* [Fn.Ref] *)
| GetAtt (logicalId attribute : string)             (* [Fn.GetAtt] *)
| Join (delimiter : string) (values : list Value)   (* [Fn.Join] *)
| Inherited (member : string).      (* a member of [Object.prototype] *)

(** The properties of a resource: those of a [CloudFormation.Stack], or the
    opaque properties of a resource the transform engine emitted.  A
    parameter value [None] is [undefined]. *)
Inductive ResourceProperties : Type :=
| StackProperties (Parameters : obj (option Value)) (TemplateURL : Value)
| EngineProperties (tag : string).

Record Resource : Type := {
  ResourceType : string;                 (* [Type] *)
  Properties : ResourceProperties;
  DependsOn : option (list string)
}.

(** A template; both sections are optional in the declared type. *)
Record Template : Type := {
  Parameters : option (obj string);
  Resources : option (obj Resource)
}.

(** Modelled from the spec: the interface [DeploymentResources]
    ([../DeploymentResources]), whose declaration is not among the sources;
    the data model gives its five fields: the schema text, the resolver
    documents by file name, the stack templates by name, the root stack and
    the packaged functions by name. *)
Record DeploymentResources : Type := {
  schema : string;
  resolvers : obj string;
  stacks : obj Template;
  rootStack : Template;
  functions : obj Path                   (* where each packaged artifact is *)
}.

(** [Partial<DeploymentResources>] *)
Record PartialDeploymentResources : Type := {
  user_schema : option string;
  user_resolvers : option (obj string);
  user_stacks : option (obj Template);
  user_rootStack : option Template;
  user_functions : option (obj Path)
}.

(** The entries of the table [ResourceConstants]
    (graphql-transformer-common) the merger reads; the table is a parameter
    of the merger. *)
Record ResourceConstants : Type := {
  PARAMETERS_AppSyncApiId : string;
  PARAMETERS_S3DeploymentBucket : string;
  PARAMETERS_S3DeploymentRootKey : string;
  RESOURCES_GraphQLAPILogicalID : string
}.

(** ** DeploymentMerger: [mergeUserConfigWithTransformOutput] *)

Module Merger.

(** What [Object.keys(undefined)] raises. *)
Definition keysOfUndefined : JsError :=
  TypeError "Cannot convert undefined or null to object".

(** [Object.keys(o)] for an optional section. *)
Definition keysOf {A} (o : option (obj A)) : Result (list string) :=
  match o with
  | Some o' => Ok (keys o')
  | None => Err keysOfUndefined
  end.

(** The first loop: [transformResolvers[k] = userConfig.resolvers[k]]. *)
Definition overrideResolvers (userResolvers transformResolvers : obj string)
  : obj string :=
  fold_left
    (fun acc userResolver =>
       match get userResolver userResolvers with
       | Some v => set userResolver v acc
       | None => acc
       end)
    (keys userResolvers) transformResolvers.

Definition resourceTypesToDependOn : obj bool :=
  [ ("AWS::CloudFormation::Stack", true);
    ("AWS::AppSync::GraphQLApi", true);
    ("AWS::AppSync::GraphQLSchema", true) ].

(** The names an object literal answers to without having them as own
    properties: the members it inherits from [Object.prototype], each a
    function or an object. *)
Definition inheritedMember (k : string) : bool :=
  existsb (String.eqb k)
    [ "constructor"; "__defineGetter__"; "__defineSetter__";
      "hasOwnProperty"; "__lookupGetter__"; "__lookupSetter__";
      "isPrototypeOf"; "propertyIsEnumerable"; "toString"; "valueOf";
      "__proto__"; "toLocaleString" ].

(** None of the names is a member of [Object.prototype]. *)
Definition ownNames (names : list string) : bool :=
  forallb (fun n => negb (inheritedMember n)) names.

(** The callback of the [filter]: [resourceTypesToDependOn[resource.Type]]
    read as a condition: [true] for an own key, a function or an object for
    an inherited member, [undefined] otherwise. *)
Definition dependedOn (resources : obj Resource) (k : string) : bool :=
  match get k resources with
  | Some resource =>
      match get (ResourceType resource) resourceTypesToDependOn with
      | Some b => b
      | None => inheritedMember (ResourceType resource)
      end
  | None => false
  end.

Definition allResourceIds (resources : obj Resource) : list string :=
  filter (dependedOn resources) (keys resources).

(** [customStackParams]: every root parameter passed by reference, then
    the API id. *)
Definition customStackParams (rc : ResourceConstants)
    (parametersKeys : list string) : obj Value :=
  set (PARAMETERS_AppSyncApiId rc)
      (GetAtt (RESOURCES_GraphQLAPILogicalID rc) "ApiId")
      (fold_left (fun acc k => set k (Ref k) acc) parametersKeys empty).

(** [customStackParams[k]]: the own property, else the inherited member of
    that name, else [undefined]. *)
Definition lookedUp (params : obj Value) (k : string) : option Value :=
  match get k params with
  | Some v => Some v
  | None => if inheritedMember k then Some (Inherited k) else None
  end.

(** [parametersForStack] *)
Definition parametersForStack (params : obj Value)
    (declared : list string) : obj (option Value) :=
  fold_left (fun acc k => set k (lookedUp params k) acc) declared empty.

(** [userStack.split(/[^A-Za-z]/).join('')] *)
Definition stackResourceId (userStack : string) : string :=
  JsString.join ""
    (JsString.split (fun c => negb (JsString.isAlpha c)) userStack).

Definition duplicateStackMessage (userStack : string) : string :=
  ("You cannot provide a stack named " ++ userStack
   ++ " as it             will be overwritten by a stack generated by the GraphQL Transform.")%string.

(** [new CloudFormation.Stack({...}).dependsOn(allResourceIds)] *)
Definition customNestedStack (rc : ResourceConstants) (userStack : string)
    (parameters : obj (option Value)) (ids : list string) : Resource :=
  {| ResourceType := "AWS::CloudFormation::Stack";
     Properties :=
       StackProperties parameters
         (Join "/"
            [ Str "https://s3.amazonaws.com";
              Ref (PARAMETERS_S3DeploymentBucket rc);
              Ref (PARAMETERS_S3DeploymentRootKey rc);
              Str "stacks";
              Str userStack ]);
     DependsOn := Some ids |}.

(** The two objects the second loop mutates: [transformStacks] and
    [rootStack.Resources]. *)
Record LoopState : Type := {
  transformStacks : obj Template;
  rootResources : obj Resource
}.

(** The loop over [Object.keys(userStacks)].  A throw leaves the objects
    as they were mutated so far.  The test [transformOutput.stacks[userStack]]
    is taken on the own keys of the object, which is what it reads for every
    name accepted by [ownNames]; for a user stack named like a member of
    [Object.prototype] the code finds that member and throws, and the
    theorems on stacks that are accepted assume [ownNames]. *)
Fixpoint mergeStacks (rc : ResourceConstants) (userStacks : obj Template)
    (ids : list string) (params : obj Value)
    (names : list string) (st : LoopState) : Result unit * LoopState :=
  match names with
  | [] => (Ok tt, st)
  | userStack :: rest =>
      if has userStack (transformStacks st) then
        (Err (Error (duplicateStackMessage userStack)), st)
      else
        match get userStack userStacks with
        | None => (Err (TypeError "Cannot read property 'Parameters' of undefined"), st)
        | Some userDefinedStack =>
            match keysOf (Parameters userDefinedStack) with
            | Err e => (Err e, st)
            | Ok declared =>
                let forStack := parametersForStack params declared in
                let id := stackResourceId userStack in
                mergeStacks rc userStacks ids params rest
                  {| transformStacks :=
                       set userStack userDefinedStack (transformStacks st);
                     rootResources :=
                       set id (customNestedStack rc userStack forStack ids)
                         (rootResources st) |}
            end
        end
  end.

Definition orEmpty {A} (o : option (obj A)) : obj A :=
  match o with Some o' => o' | None => empty end.

(** The transform output as the merger's mutations leave it. *)
Definition mutated (t : DeploymentResources) (resolvers' : obj string)
    (st : LoopState) : DeploymentResources :=
  {| schema := schema t;
     resolvers := resolvers';
     stacks := transformStacks st;
     rootStack := {| Parameters := Parameters (rootStack t);
                     Resources := Some (rootResources st) |};
     functions := functions t |}.

(** [mergeUserConfigWithTransformOutput(userConfig, transformOutput)].
    The merger writes into the objects of [transformOutput]; the second
    component is [transformOutput] as the call leaves it, whether it
    returns or throws.  The returned bundle
    [{...transformOutput, resolvers, stacks}] shares every object with
    it. *)
Definition mergeUserConfigWithTransformOutput (rc : ResourceConstants)
    (userConfig : PartialDeploymentResources)
    (transformOutput : DeploymentResources)
  : Result DeploymentResources * DeploymentResources :=
  let userResolvers := orEmpty (user_resolvers userConfig) in
  let transformResolvers :=
    overrideResolvers userResolvers (resolvers transformOutput) in
  let afterResolvers :=
    {| schema := schema transformOutput;
       resolvers := transformResolvers;
       stacks := stacks transformOutput;
       rootStack := rootStack transformOutput;
       functions := functions transformOutput |} in
  let userStacks := orEmpty (user_stacks userConfig) in
  match Resources (rootStack transformOutput) with
  | None => (Err keysOfUndefined, afterResolvers)
  | Some resources =>
      let ids := allResourceIds resources in
      match keysOf (Parameters (rootStack transformOutput)) with
      | Err e => (Err e, afterResolvers)
      | Ok parametersKeys =>
          let params := customStackParams rc parametersKeys in
          match mergeStacks rc userStacks ids params (keys userStacks)
                  {| transformStacks := stacks transformOutput;
                     rootResources := resources |} with
          | (Err e, st) => (Err e, mutated transformOutput transformResolvers st)
          | (Ok _, st) =>
              let merged := mutated transformOutput transformResolvers st in
              (Ok merged, merged)
          end
      end
  end.

(** Two merges in a row on the same bundle objects: the second call sees
    the transform output as the first one left it. *)
Definition mergeTwice (rc : ResourceConstants)
    (userConfig : PartialDeploymentResources)
    (transformOutput : DeploymentResources)
  : Result DeploymentResources * Result DeploymentResources :=
  let (first, transformOutput') :=
    mergeUserConfigWithTransformOutput rc userConfig transformOutput in
  (first, fst (mergeUserConfigWithTransformOutput rc userConfig transformOutput')).

End Merger.

(** ** The file system *)

Module Fs.

(** A file with its contents, or a directory with its entries in listing
    order. *)
Inductive Node : Type :=
| File (data : string)
| Dir (entries : list (string * Node)).

(** The whole file system is its root directory. *)
Definition FS : Type := Node.

Fixpoint lookup (p : Path) (n : Node) : option Node :=
  match p with
  | [] => Some n
  | seg :: rest =>
      match n with
      | Dir entries =>
          match get seg entries with
          | Some child => lookup rest child
          | None => None
          end
      | File _ => None
      end
  end.

(** Put [new] at path [p]; the parent of [p] has to be a directory. *)
Fixpoint place (p : Path) (new : Node) (n : Node) : option Node :=
  match p with
  | [] => Some new
  | seg :: rest =>
      match n with
      | Dir entries =>
          match rest, get seg entries with
          | [], _ => Some (Dir (set seg new entries))
          | _ :: _, Some child =>
              match place rest new child with
              | Some child' => Some (Dir (set seg child' entries))
              | None => None
              end
          | _ :: _, None => None
          end
      | File _ => None
      end
  end.

Definition ENOENT (p : Path) : JsError := SystemError "ENOENT" p.
Definition ENOTDIR (p : Path) : JsError := SystemError "ENOTDIR" p.
Definition EISDIR (p : Path) : JsError := SystemError "EISDIR" p.
Definition EEXIST (p : Path) : JsError := SystemError "EEXIST" p.

(** [fs.existsSync(p)] and [fs.exists] *)
Definition existsSync (p : Path) (fs : FS) : bool :=
  match lookup p fs with Some _ => true | None => false end.

(** [fs.readdirSync(p)] and [fs.readdir] *)
Definition readdirSync (p : Path) (fs : FS) : Result (list string) :=
  match lookup p fs with
  | None => Err (ENOENT p)
  | Some (File _) => Err (ENOTDIR p)
  | Some (Dir entries) => Ok (keys entries)
  end.

(** [fs.readFileSync(p)] and [fs.readFile] *)
Definition readFileSync (p : Path) (fs : FS) : Result string :=
  match lookup p fs with
  | None => Err (ENOENT p)
  | Some (Dir _) => Err (EISDIR p)
  | Some (File data) => Ok data
  end.

(** [fs.writeFileSync(p, data)] *)
Definition writeFileSync (p : Path) (data : string) (fs : FS) : Result FS :=
  match lookup p fs with
  | Some (Dir _) => Err (EISDIR p)
  | _ =>
      match place p (File data) fs with
      | Some fs' => Ok fs'
      | None => Err (ENOENT p)
      end
  end.

(** One segment of a path being normalized; [acc] holds the segments so
    far, the last one first.  An empty segment and [.] are dropped, [..]
    drops the segment before it and stays at the root. *)
Definition normalizeSegment (acc : Path) (segment : string) : Path :=
  if String.eqb segment "" || String.eqb segment "." then acc
  else if String.eqb segment ".." then tl acc
  else segment :: acc.

(** [path.normalize(base + '/' + name)], without the slash it keeps at the
    end of a text that ends with one. *)
Definition path_normalize (base : Path) (name : string) : Path :=
  rev (fold_left normalizeSegment (JsString.split JsString.isSlash name)
         (rev base)).

(** [base + '/' + name] ends with a slash. *)
Definition endsWithSlash (name : string) : bool :=
  String.eqb (last (JsString.split JsString.isSlash name) "") "".

(** [fs.writeFileSync(path.normalize(base + '/' + name), data)].  A path
    that ends with a slash names a directory and is not written to. *)
Definition writeFileAt (base : Path) (name : string) (data : string)
    (fs : FS) : Result FS :=
  let p := path_normalize base name in
  if endsWithSlash name then
    match lookup p fs with
    | Some (File _) => Err (ENOTDIR p)
    | Some (Dir _) => Err (EISDIR p)
    | None =>
        match place p (File data) fs with
        | Some _ => Err (EISDIR p)
        | None => Err (ENOENT p)
        end
    end
  else writeFileSync p data fs.

(** [fs.mkdirSync(p)] *)
Definition mkdirSync (p : Path) (fs : FS) : Result FS :=
  match lookup p fs with
  | Some _ => Err (EEXIST p)
  | None =>
      match place p (Dir []) fs with
      | Some fs' => Ok fs'
      | None => Err (ENOENT p)
      end
  end.

(** What [emptyDirectory] leaves of a node: every file below it is
    unlinked, every directory below it is kept and emptied in turn. *)
Fixpoint emptied (n : Node) : Node :=
  match n with
  | File data => File data
  | Dir entries =>
      Dir ((fix each (es : list (string * Node)) : list (string * Node) :=
              match es with
              | [] => []
              | (file, child) :: rest =>
                  match child with
                  | Dir _ => (file, emptied child) :: each rest
                  | File _ => each rest
                  end
              end) entries)
  end.

(** The documents below a directory node, in listing order, as
    [readSchemaDocuments] collects them. *)
Fixpoint documents (n : Node) : list string :=
  match n with
  | File data => [data]
  | Dir entries =>
      (fix each (es : list (string * Node)) : list string :=
         match es with
         | [] => []
         | (_, child) :: rest => documents child ++ each rest
         end) entries
  end.

End Fs.

Import Fs.

(** [JSON.parse] restricted to templates, and [JSON.stringify(_, null, 4)]. *)
Record JSON : Type := {
  JSON_parse : string -> option Template;
  JSON_stringify : Template -> string
}.

(** [throwIfNotJSON(stackFile)] *)
Definition extensionOf (stackFile : string) : string :=
  last (JsString.split JsString.isDot stackFile) "".

Definition yamlMessage (stackFile : string) : string :=
  ("Yaml is not yet supported. Please convert the CloudFormation stack "
   ++ stackFile ++ " to json.")%string.

Definition invalidExtensionMessage (extension stackFile : string) : string :=
  ("Invalid extension ." ++ extension ++ " for stack " ++ stackFile)%string.

Definition throwIfNotJSON (stackFile : string) : Result unit :=
  let extension := extensionOf stackFile in
  if String.eqb extension "yaml" || String.eqb extension "yml" then
    Err (Error (yamlMessage stackFile))
  else if negb (String.eqb extension "json") then
    Err (Error (invalidExtensionMessage extension stackFile))
  else Ok tt.

(** ** ProjectConfigurationLoader: [readProjectConfiguration] *)

Module Loader.

Definition newline : string := String (ascii_of_nat 10) "".

(** [readSchemaDocuments(schemaDirectoryPath)] *)
Definition readSchemaDocuments (schemaDirectoryPath : Path) (fs : FS)
  : Result (list string) :=
  match lookup schemaDirectoryPath fs with
  | None => Err (ENOENT schemaDirectoryPath)
  | Some (File _) => Err (ENOTDIR schemaDirectoryPath)
  | Some (Dir entries) => Ok (documents (Dir entries))
  end.

(** [readSchema(projectDirectory)] *)
Definition readSchema (projectDirectory : Path) (fs : FS) : Result string :=
  let schemaFilePath := path_join projectDirectory "schema.graphql" in
  let schemaDirectoryPath := path_join projectDirectory "schema" in
  if existsSync schemaFilePath fs then
    readFileSync schemaFilePath fs
  else if existsSync schemaDirectoryPath fs then
    docs <- readSchemaDocuments schemaDirectoryPath fs ;;
    Ok (JsString.join newline docs)
  else
    Err (Error ("Could not find a schema at "
                ++ path_string schemaFilePath)%string).

(** The loop over [resolverFiles]. *)
Fixpoint readResolvers (resolverDirectory : Path) (fs : FS)
    (resolverFiles : list string) (resolvers : obj string)
  : Result (obj string) :=
  match resolverFiles with
  | [] => Ok resolvers
  | resolverFile :: rest =>
      data <- readFileSync (path_join resolverDirectory resolverFile) fs ;;
      readResolvers resolverDirectory fs rest (set resolverFile data resolvers)
  end.

(** The message of the [catch] around [JSON.parse]: the template literal
    interpolates [stackFiles], the whole directory listing, which the
    runtime renders as its entries joined by commas. *)
Definition malformedMessage (stackFiles : list string) : string :=
  ("The CloudFormation template " ++ JsString.join "," stackFiles
   ++ " does not contain valid JSON.")%string.

(** The loop over [stackFiles]; [todo] is what remains of the listing. *)
Fixpoint readStacks (json : JSON) (stacksDirectory : Path) (fs : FS)
    (stackFiles : list string) (todo : list string) (stacks : obj Template)
  : Result (obj Template) :=
  match todo with
  | [] => Ok stacks
  | stackFile :: rest =>
      _ <- throwIfNotJSON stackFile ;;
      stackBuffer <- readFileSync (path_join stacksDirectory stackFile) fs ;;
      match JSON_parse json stackBuffer with
      | Some template =>
          readStacks json stacksDirectory fs stackFiles rest
            (set stackFile template stacks)
      | None => Err (Error (malformedMessage stackFiles))
      end
  end.

(** What the loader returns: [{ stacks, resolvers, schema }]. *)
Record ProjectConfiguration : Type := {
  config_stacks : obj Template;
  config_resolvers : obj string;
  config_schema : string
}.

Definition asPartial (c : ProjectConfiguration) : PartialDeploymentResources :=
  {| user_schema := Some (config_schema c);
     user_resolvers := Some (config_resolvers c);
     user_stacks := Some (config_stacks c);
     user_rootStack := None;
     user_functions := None |}.

(** The stacks part of the load (lines "Load the stacks"). *)
Definition loadStacks (json : JSON) (projectDirectory : Path) (fs : FS)
  : Result (obj Template) :=
  let stacksDirectory := path_join projectDirectory "stacks" in
  if existsSync stacksDirectory fs then
    stackFiles <- readdirSync stacksDirectory fs ;;
    readStacks json stacksDirectory fs stackFiles stackFiles empty
  else Ok empty.

Definition loadResolvers (projectDirectory : Path) (fs : FS)
  : Result (obj string) :=
  let resolverDirectory := path_join projectDirectory "resolvers" in
  if existsSync resolverDirectory fs then
    resolverFiles <- readdirSync resolverDirectory fs ;;
    readResolvers resolverDirectory fs resolverFiles empty
  else Ok empty.

(** [readProjectConfiguration(projectDirectory)] *)
Definition readProjectConfiguration (json : JSON) (projectDirectory : Path)
    (fs : FS) : Promise ProjectConfiguration :=
  settle
    (schema <- readSchema projectDirectory fs ;;
     resolvers <- loadResolvers projectDirectory fs ;;
     stacks <- loadStacks json projectDirectory fs ;;
     Ok {| config_stacks := stacks;
           config_resolvers := resolvers;
           config_schema := schema |}).

End Loader.

(** ** DeploymentWriter: [writeDeploymentToDisk] *)

Module Writer.

(** Synchronous code over the disk: it returns or throws, and leaves the
    disk as it wrote it so far. *)
Definition Sync (A : Type) : Type := FS -> Result A * FS.

Definition ret {A} (a : A) : Sync A := fun fs => (Ok a, fs).

Definition throw {A} (e : JsError) : Sync A := fun fs => (Err e, fs).

Definition andThen {A B} (m : Sync A) (k : A -> Sync B) : Sync B :=
  fun fs =>
    match m fs with
    | (Ok a, fs') => k a fs'
    | (Err e, fs') => (Err e, fs')
    end.

Notation "m >> k" := (andThen m (fun _ => k))
  (at level 62, right associativity).

(** A disk operation that either fails, leaving the disk alone, or
    succeeds with a new disk. *)
Definition effect (op : FS -> Result FS) : Sync unit :=
  fun fs =>
    match op fs with
    | Ok fs' => (Ok tt, fs')
    | Err e => (Err e, fs)
    end.

Definition pure {A} (r : Result A) : Sync A := fun fs => (r, fs).

Fixpoint forEach {A} (xs : list A) (body : A -> Sync unit) : Sync unit :=
  match xs with
  | [] => ret tt
  | x :: rest => body x >> forEach rest body
  end.

(** [emptyDirectory(directory)]: [readdirSync] throws on a path that is
    missing or is not a directory; otherwise every file below is unlinked
    and every directory below is recursed into. *)
Definition emptyDirectory (directory : Path) : Sync unit :=
  fun fs =>
    match readdirSync directory fs with
    | Err e => (Err e, fs)
    | Ok _ =>
        match lookup directory fs with
        | Some node =>
            match place directory (emptied node) fs with
            | Some fs' => (Ok tt, fs')
            | None => (Ok tt, fs)
            end
        | None => (Ok tt, fs)
        end
    end.

(** [if (!fs.existsSync(p)) { fs.mkdirSync(p) }] *)
Definition ensureDirectory (p : Path) : Sync unit :=
  fun fs =>
    if existsSync p fs then (Ok tt, fs) else effect (mkdirSync p) fs.

(** The file name a stack is written under: a name without a dot gets
    [json] appended. *)
Definition fullFileNameOf (stackFileName : string) : string :=
  let fileNameParts := JsString.split JsString.isDot stackFileName in
  JsString.join "."
    (if Nat.eqb (List.length fileNameParts) 1 then fileNameParts ++ ["json"]
     else fileNameParts).

Definition defaultRootStackFileName : string := "rootStack.json".

(** The body of [writeDeploymentToDisk].  Stacks have the declared type
    [Template], for which the [typeof ... === 'string'] test is false, so
    a stack is always written through [JSON.stringify].  The names the
    bundle and the caller supply are put after their directory and
    normalized, as [writeFileAt] has it; the fixed names are single
    segments. *)
Definition writeDeployment (json : JSON) (deployment : DeploymentResources)
    (directory : Path) (rootStackFileName : string) : Sync unit :=
  emptyDirectory directory >>
  effect (writeFileSync (path_join directory "schema.graphql")
            (schema deployment)) >>
  let resolverRootPath := path_join directory "resolvers" in
  ensureDirectory resolverRootPath >>
  forEach (keys (resolvers deployment))
    (fun resolverFileName =>
       match get resolverFileName (resolvers deployment) with
       | Some text =>
           effect (writeFileAt resolverRootPath resolverFileName text)
       | None => ret tt
       end) >>
  let stackRootPath := path_join directory "stacks" in
  ensureDirectory stackRootPath >>
  forEach (keys (stacks deployment))
    (fun stackFileName =>
       let fullFileName := fullFileNameOf stackFileName in
       pure (throwIfNotJSON fullFileName) >>
       match get stackFileName (stacks deployment) with
       | Some template =>
           effect (writeFileAt stackRootPath fullFileName
                     (JSON_stringify json template))
       | None => ret tt
       end) >>
  let functionRootPath := path_join directory "functions" in
  ensureDirectory functionRootPath >>
  forEach (keys (functions deployment))
    (fun functionName =>
       match get functionName (functions deployment) with
       | Some source =>
           andThen (fun fs => (readFileSync source fs, fs))
             (fun zipContents =>
                effect (writeFileAt functionRootPath functionName
                          zipContents))
       | None => ret tt
       end) >>
  effect (writeFileAt directory rootStackFileName
            (JSON_stringify json (rootStack deployment))).

(** [writeDeploymentToDisk(deployment, directory, rootStackFileName)]: an
    [async] function without an [await]; its body runs at the call and
    the promise it returns is settled with the outcome. *)
Definition writeDeploymentToDisk (json : JSON)
    (deployment : DeploymentResources) (directory : Path)
    (rootStackFileName : option string) (fs : FS) : Promise unit * FS :=
  let name := match rootStackFileName with
              | Some n => n
              | None => defaultRootStackFileName
              end in
  let (r, fs') := writeDeployment json deployment directory name fs in
  (settle r, fs').

End Writer.

(** ** BuildOrchestrator: [buildProject] *)

Module Build.

(** [ProjectOptions] *)
Record ProjectOptions : Type := {
  projectDirectory : Path;
  transform : string -> Result DeploymentResources;
  rootStackFileName : option string
}.

(** What a call of [buildProject] amounts to: the promise it returns,
    the promises it created and dropped without awaiting them, and the
    disk. *)
Record Outcome : Type := {
  returned : Promise unit;
  dropped : list (Promise unit);
  disk : FS
}.

Definition rejects (e : JsError) (fs : FS) : Outcome :=
  {| returned := Rejected e; dropped := []; disk := fs |}.

(** [buildProject(opts)] *)
Definition buildProject (rc : ResourceConstants) (json : JSON)
    (opts : ProjectOptions) (fs : FS) : Outcome :=
  match Loader.readProjectConfiguration json (projectDirectory opts) fs with
  | Rejected e => rejects e fs
  | Resolved userProjectConfig =>
      match transform opts (Loader.config_schema userProjectConfig) with
      | Err e => rejects e fs
      | Ok transformOutput =>
          match fst (Merger.mergeUserConfigWithTransformOutput rc
                       (Loader.asPartial userProjectConfig)
                       transformOutput) with
          | Err e => rejects e fs
          | Ok merged =>
              let (written, fs') :=
                Writer.writeDeploymentToDisk json merged
                  (path_join (projectDirectory opts) "build")
                  (rootStackFileName opts) fs in
              {| returned := Resolved tt;
                 dropped := [written];
                 disk := fs' |}
          end
      end
  end.

End Build.

(** ** The vocabulary of the specification *)

(** The fixed allow-list of anchor resource types, as the specification
    words it. *)
Definition anchorType (ty : string) : Prop :=
  ty = "AWS::CloudFormation::Stack"
  \/ ty = "AWS::AppSync::GraphQLApi"
  \/ ty = "AWS::AppSync::GraphQLSchema".

(** An anchor of a root stack: a resource id whose resource has an anchor
    type. *)
Definition anchor (resources : obj Resource) (id : string) : Prop :=
  exists r, get id resources = Some r /\ anchorType (ResourceType r).

(** A resource id whose resource has, as its type, the name of a member
    inherited from [Object.prototype]. *)
Definition inheritedType (resources : obj Resource) (id : string) : Prop :=
  exists r, get id resources = Some r
            /\ Merger.inheritedMember (ResourceType r) = true.

(** The lookup the specification gives a declared parameter: among the root
    stack's own parameters, passed by reference, plus the one synthesized
    parameter that exposes the API id. *)
Definition passedValue (rc : ResourceConstants) (rootParameters : obj string)
    (k : string) : option Value :=
  if String.eqb k (PARAMETERS_AppSyncApiId rc) then
    Some (GetAtt (RESOURCES_GraphQLAPILogicalID rc) "ApiId")
  else if has k rootParameters then Some (Ref k)
  else None.

(** [r] is the nested-stack resource the merger builds under [id] for some
    stack of the user bundle. *)
Definition synthesizedFor (rc : ResourceConstants) (userStacks : obj Template)
    (ids : list string) (params : obj Value) (id : string) (r : Resource)
  : Prop :=
  exists owner template declared,
    get owner userStacks = Some template
    /\ Parameters template = Some declared
    /\ Merger.stackResourceId owner = id
    /\ r = Merger.customNestedStack rc owner
             (Merger.parametersForStack params (keys declared)) ids.

(** [userStack] is handled without a throw when the loop reaches it: the
    user bundle holds a template for it that declares a [Parameters]
    section. *)
Definition declaresParameters (userStacks : obj Template) (userStack : string)
  : Prop :=
  exists template declared,
    get userStack userStacks = Some template
    /\ Parameters template = Some declared.

(** ** Sample inputs *)

Module Sample.

(** The table the samples are run with. *)
Definition rc : ResourceConstants :=
  {| PARAMETERS_AppSyncApiId := "AppSyncApiId";
     PARAMETERS_S3DeploymentBucket := "S3DeploymentBucket";
     PARAMETERS_S3DeploymentRootKey := "S3DeploymentRootKey";
     RESOURCES_GraphQLAPILogicalID := "GraphQLAPI" |}.

Definition engineResource (ty : string) : Resource :=
  {| ResourceType := ty;
     Properties := EngineProperties ty;
     DependsOn := None |}.

Definition root : Template :=
  {| Parameters :=
       Some [ ("env", "String");
              ("S3DeploymentBucket", "String");
              ("S3DeploymentRootKey", "String") ];
     Resources :=
       Some [ ("GraphQLAPI", engineResource "AWS::AppSync::GraphQLApi");
              ("GraphQLSchema", engineResource "AWS::AppSync::GraphQLSchema");
              ("AuthRole", engineResource "AWS::IAM::Role");
              ("Post", engineResource "AWS::CloudFormation::Stack") ] |}.

Definition postStack : Template :=
  {| Parameters := Some [("env", "String")]; Resources := Some [] |}.

Definition commentStack : Template :=
  {| Parameters := Some [("env", "String")]; Resources := Some [] |}.

(** What the transform engine returned. *)
Definition transformOutput : DeploymentResources :=
  {| schema := "type Post { id: ID! }";
     resolvers := [("Query.getPost.req.vtl", "## generated")];
     stacks := [("Post", postStack); ("Comment", commentStack)];
     rootStack := root;
     functions := [] |}.

Definition searchStack : Template :=
  {| Parameters :=
       Some [ ("env", "String");
              ("AppSyncApiId", "String");
              ("Retention", "Number") ];
     Resources := Some [] |}.

Definition auditStack : Template :=
  {| Parameters := Some []; Resources := Some [] |}.

(** A user bundle with two custom stacks and one resolver override. *)
Definition userConfig : PartialDeploymentResources :=
  {| user_schema := Some "type Post { id: ID! }";
     user_resolvers := Some [("Query.getPost.req.vtl", "## mine")];
     user_stacks :=
       Some [ ("Search-1.json", searchStack); ("audit.json", auditStack) ];
     user_rootStack := None;
     user_functions := None |}.

(** A user bundle without stacks. *)
Definition resolversOnly : PartialDeploymentResources :=
  {| user_schema := Some "type Post { id: ID! }";
     user_resolvers := Some [("Query.getPost.req.vtl", "## mine")];
     user_stacks := None;
     user_rootStack := None;
     user_functions := None |}.

(** A user bundle whose two stacks both carry names the transform engine
    produced. *)
Definition colliding : PartialDeploymentResources :=
  {| user_schema := None;
     user_resolvers := None;
     user_stacks := Some [("Post", auditStack); ("Comment", auditStack)];
     user_rootStack := None;
     user_functions := None |}.

(** A user bundle whose second and third stacks collide. *)
Definition collidingLater : PartialDeploymentResources :=
  {| user_schema := None;
     user_resolvers := None;
     user_stacks :=
       Some [ ("audit.json", auditStack);
              ("Comment", auditStack);
              ("Post", auditStack) ];
     user_rootStack := None;
     user_functions := None |}.

(** The sample bundles of a second run: the same stacks and root stack,
    another schema, other functions and a root stack of the user's that the
    merge does not read. *)
Definition userConfigAgain : PartialDeploymentResources :=
  {| user_schema := Some "type Comment { id: ID! }";
     user_resolvers := user_resolvers userConfig;
     user_stacks := user_stacks userConfig;
     user_rootStack := Some (rootStack transformOutput);
     user_functions := Some [("echo.zip", ["tmp"; "echo.zip"])] |}.

Definition transformOutputAgain : DeploymentResources :=
  {| schema := "type Comment { id: ID! }";
     resolvers := resolvers transformOutput;
     stacks := stacks transformOutput;
     rootStack := rootStack transformOutput;
     functions := [("echo.zip", ["tmp"; "echo.zip"])] |}.

(** A transform output whose root stack has a resource with a type that
    names a member of [Object.prototype]. *)
Definition oddTransformOutput : DeploymentResources :=
  {| schema := "type Post { id: ID! }";
     resolvers := [];
     stacks := [];
     rootStack :=
       {| Parameters := Some [("env", "String")];
          Resources :=
            Some [ ("GraphQLAPI", engineResource "AWS::AppSync::GraphQLApi");
                   ("AuthRole", engineResource "AWS::IAM::Role");
                   ("Hook", engineResource "toString") ] |};
     functions := [] |}.

(** A user bundle whose stack declares a parameter named like a member of
    [Object.prototype]. *)
Definition oddUserConfig : PartialDeploymentResources :=
  {| user_schema := None;
     user_resolvers := None;
     user_stacks :=
       Some [ ("odd.json",
               {| Parameters :=
                    Some [("env", "String"); ("constructor", "String")];
                  Resources := Some [] |}) ];
     user_rootStack := None;
     user_functions := None |}.

(** The bundle a merge returns, or the transform output when it throws. *)
Definition mergedOr (userConfig : PartialDeploymentResources)
    (transformOutput : DeploymentResources) : DeploymentResources :=
  match fst (Merger.mergeUserConfigWithTransformOutput rc userConfig
               transformOutput) with
  | Ok merged => merged
  | Err _ => transformOutput
  end.

Definition merged : DeploymentResources :=
  Eval vm_compute in mergedOr userConfig transformOutput.

Definition oddMerged : DeploymentResources :=
  Eval vm_compute in mergedOr oddUserConfig oddTransformOutput.

Definition mergedResolversOnly : DeploymentResources :=
  Eval vm_compute in mergedOr resolversOnly transformOutput.

(** A stand-in for the runtime's [JSON]: a text that opens with a brace
    parses, to a template with empty sections, and nothing else does. *)
Definition json : JSON :=
  {| JSON_parse := fun text =>
       match text with
       | String "{" _ => Some {| Parameters := Some []; Resources := Some [] |}
       | _ => None
       end;
     JSON_stringify := fun _ => "{}" |}.

End Sample.

(** [stackFile] goes through the stacks loop of the loader without a
    throw: its extension is accepted, it can be read, and its contents
    parse. *)
Definition loadsAsStack (json : JSON) (stacksDirectory : Path) (fs : FS)
    (stackFile : string) : Prop :=
  throwIfNotJSON stackFile = Ok tt
  /\ exists data template,
       readFileSync (path_join stacksDirectory stackFile) fs = Ok data
       /\ JSON_parse json data = Some template.

Module SampleProject.

Definition projectDirectory : Path := ["home"; "project"].

(** A project with three stack files, of which only the first is a json
    template, and no [build] directory; every directory lists its entries
    in the order of their names. *)
Definition mixedStacks : FS :=
  Dir [ ("home",
         Dir [ ("project",
                Dir [ ("resolvers",
                       Dir [("Query.getPost.req.vtl", File "## mine")]);
                      ("schema.graphql", File "type Post { id: ID! }");
                      ("stacks",
                       Dir [ ("audit.json", File "{ }");
                             ("notes.txt", File "to do");
                             ("old.yaml", File "Resources:") ]) ]) ]) ].

(** A project whose second stack file does not hold JSON. *)
Definition brokenStack : FS :=
  Dir [ ("home",
         Dir [ ("project",
                Dir [ ("schema.graphql", File "type Post { id: ID! }");
                      ("stacks",
                       Dir [ ("search.json", File "{ }");
                             ("broken.json", File "Resources:") ]) ]) ]) ].

(** A project that loads and merges, without a [build] directory. *)
Definition unbuilt : FS :=
  Dir [ ("home",
         Dir [ ("project",
                Dir [ ("schema.graphql", File "type Post { id: ID! }");
                      ("stacks",
                       Dir [("search.json", File "{ }")]) ]) ]) ].

(** The same project with a [build] directory that holds the output
    of an earlier build. *)
Definition built : FS :=
  Dir [ ("home",
         Dir [ ("project",
                Dir [ ("build",
                       Dir [ ("stacks",
                              Dir [("gone.json", File "{}")]);
                             ("stale.txt", File "old") ]);
                      ("schema.graphql", File "type Post { id: ID! }");
                      ("stacks",
                       Dir [("search.json", File "{ }")]) ]) ]) ].

Definition opts : Build.ProjectOptions :=
  {| Build.projectDirectory := projectDirectory;
     Build.transform := fun _ => Ok Sample.transformOutput;
     Build.rootStackFileName := None |}.

End SampleProject.

(** ** DirectoryUploader: [uploadDirectory] and [uploadDeployment] *)

Module DirectoryUploader.

Import Uploader.

(** [path.join(key, file)] for an upload key: the empty key of the top
    directory contributes nothing. *)
Definition keyJoin (key file : string) : string :=
  if String.eqb key "" then file else (key ++ "/" ++ file)%string.

(** [await uploadFile(...)] as a statement: the location is dropped. *)
Definition awaited (r : Promise string * World) : Promise unit * World :=
  match r with
  | (Resolved _, w) => (Resolved tt, w)
  | (Rejected e, w) => (Rejected e, w)
  end.

Section Entries.

Variable each : string -> Node -> World -> Promise unit * World.

(** The loop [for (const file of files)] over the entries of a directory;
    a rejection leaves the loop. *)
Fixpoint forEntries (entries : list (string * Node)) (w : World)
  : Promise unit * World :=
  match entries with
  | [] => (Resolved tt, w)
  | (file, child) :: rest =>
      match each file child w with
      | (Resolved _, w') => forEntries rest w'
      | (Rejected e, w') => (Rejected e, w')
      end
  end.

End Entries.

(** One round of the loop of [uploadDirectory] for the resource under
    [uploadKey]: a directory is walked in turn, with its name put before the
    keys below it; a file is read and handed to [uploadFile] with the
    default delay and budget. *)
Fixpoint uploadResource (opts : UploadOptions) (uploadKey : string)
    (resource : Node) (w : World) : Promise unit * World :=
  match resource with
  | File resourceContents =>
      awaited (uploadFile opts uploadKey resourceContents
                 default_backoffMS default_numTries w)
  | Dir entries =>
      forEntries
        (fun file child => uploadResource opts (keyJoin uploadKey file) child)
        entries w
  end.

(** [uploadDirectory(opts, key)]: [readDir] rejects when [opts.directory]
    is missing or is not a directory. *)
Definition uploadDirectory (opts : UploadOptions) (key : string) (fs : FS)
    (w : World) : Promise unit * World :=
  match lookup (directory opts) fs with
  | None => (Rejected (ENOENT (directory opts)), w)
  | Some (File _) => (Rejected (ENOTDIR (directory opts)), w)
  | Some (Dir entries) => uploadResource opts key (Dir entries) w
  end.

(** The options as a caller may pass them: either field may be missing
    (or, for the directory, empty). *)
Record DeploymentOptions : Type := {
  given_directory : option Path;
  given_upload : option (nat -> Blob -> Result string)
}.

Definition missingDirectoryMessage : string := "You must provide a 'directory'".

Definition invalidDirectoryMessage (directory : Path) : string :=
  ("Invalid 'directory': directory does not exist at "
   ++ path_string directory)%string.

Definition missingUploadMessage : string :=
  "You must provide an 'upload' function".

(** [uploadDeployment(opts)]; its [catch] rethrows what it caught. *)
Definition uploadDeployment (opts : DeploymentOptions) (fs : FS) (w : World)
  : Promise unit * World :=
  match given_directory opts with
  | None => (Rejected (Error missingDirectoryMessage), w)
  | Some directory =>
      if negb (existsSync directory fs) then
        (Rejected (Error (invalidDirectoryMessage directory)), w)
      else
        match given_upload opts with
        | None => (Rejected (Error missingUploadMessage), w)
        | Some upload =>
            uploadDirectory {| directory := directory; upload := upload |}
              "" fs w
        end
  end.

End DirectoryUploader.

(** ** More vocabulary *)

(** The events of [k] attempts at one blob with the delays between them:
    [backoffMS], then twice that, and so on. *)
Fixpoint attempts (blob : Uploader.Blob) (backoffMS : Z) (k : nat)
  : list Uploader.Event :=
  match k with
  | O => []
  | S O => [Uploader.Invoked blob]
  | S k' =>
      Uploader.Invoked blob :: Uploader.Waited backoffMS
        :: attempts blob (backoffMS * 2) k'
  end.

(** A delay that [setTimeout] waits for as given: a whole number of
    milliseconds from 1 up to [2^31 - 1], a range in which numbers are
    doubled exactly. *)
Definition timerDelay (ms : Z) : Prop := (1 <= ms < 2 ^ 31)%Z.

(** The delays between [k + 1] attempts. *)
Fixpoint backoffs (backoffMS : Z) (k : nat) : list Z :=
  match k with
  | O => []
  | S k' => backoffMS :: backoffs (backoffMS * 2) k'
  end.

(** The files below a resource with their upload keys, in the order of the
    listings, directories walked where they stand. *)
Fixpoint blobsOf (key : string) (resource : Node) : list Uploader.Blob :=
  match resource with
  | File data => [{| Uploader.Key := key; Uploader.Body := data |}]
  | Dir entries =>
      flat_map
        (fun entry =>
           blobsOf (DirectoryUploader.keyJoin key (fst entry)) (snd entry))
        entries
  end.

(** The upload key of the file at the relative path [p] below a directory
    walked under [key]. *)
Definition keyAt (key : string) (p : Path) : string :=
  fold_left DirectoryUploader.keyJoin p key.

(** A predicate holds of every character, or of some character, of a
    string. *)
Fixpoint allChars (p : ascii -> bool) (s : string) : bool :=
  match s with
  | EmptyString => true
  | String c s' => p c && allChars p s'
  end.

Fixpoint someChar (p : ascii -> bool) (s : string) : bool :=
  match s with
  | EmptyString => false
  | String c s' => p c || someChar p s'
  end.

(** A name that is one segment of a path: not empty, neither [.] nor
    [..], and without a slash. *)
Definition plainName (name : string) : bool :=
  negb (String.eqb name "") && negb (String.eqb name ".")
  && negb (String.eqb name "..") && negb (someChar JsString.isSlash name).

(** The names under which a bundle is written are single segments. *)
Definition plainNames (deployment : DeploymentResources)
    (rootStackFileName : string) : bool :=
  forallb plainName (keys (resolvers deployment))
  && forallb plainName (keys (stacks deployment))
  && forallb plainName (keys (functions deployment))
  && plainName rootStackFileName.

(** The characters of a string that satisfy a predicate, in order. *)
Fixpoint keepChars (p : ascii -> bool) (s : string) : string :=
  match s with
  | EmptyString => EmptyString
  | String c s' => if p c then String c (keepChars p s') else keepChars p s'
  end.

(** Neither path is a prefix of the other: the two name resources that do
    not contain one another. *)
Definition apart (p q : Path) : Prop :=
  (forall r, q <> p ++ r) /\ (forall r, p <> q ++ r).

(** What the stacks loop of the loader stores for a file: its contents,
    parsed. *)
Definition parsedAt (json : JSON) (stacksDirectory : Path) (fs : FS)
    (stackFile : string) : option Template :=
  match readFileSync (path_join stacksDirectory stackFile) fs with
  | Ok data => JSON_parse json data
  | Err _ => None
  end.


(** The entries an emptied directory is left with. *)
Definition emptiedEntries (entries : list (string * Node))
  : list (string * Node) :=
  match emptied (Dir entries) with
  | Dir entries' => entries'
  | File _ => []
  end.

(** A piece of synchronous code leaves what is found at a path alone,
    whether it returns or throws. *)
Definition keeps {A} (p : Path) (m : Writer.Sync A) : Prop :=
  forall fs, lookup p (snd (m fs)) = lookup p fs.


(* ================================================================== *)
(** * Part II: theorems                                                *)
(* ================================================================== *)

(** ** The uploader *)

Section UploaderFacts.

Import Uploader.

Variable opts : UploadOptions.
Variables key body : string.

Let blob : Blob := {| Key := key; Body := body |}.

(** One failed attempt with budget left: wait, retry with the doubled
    delay, and reject in either case. *)
Lemma uploadFile_retry (backoffMS : Z) (n : nat) (w : World) (e : JsError) :
  upload opts (calls w) blob = Err e ->
  uploadFile opts key body backoffMS (S (S n)) w =
    let w2 := setTimeout backoffMS (snd (invoke opts blob w)) in
    match uploadFile opts key body (backoffMS * 2) (S n) w2 with
    | (Rejected e', w3) => (Rejected e', w3)
    | (Resolved _, w3) => (Rejected e, w3)
    end.
Proof.
  intros H. cbn [uploadFile]. unfold invoke at 1. fold blob. rewrite H.
  reflexivity.
Qed.

(** The last attempt of the budget rejects with the error it caught. *)
Lemma uploadFile_last (backoffMS : Z) (w : World) (e : JsError) :
  upload opts (calls w) blob = Err e ->
  uploadFile opts key body backoffMS 1 w =
    (Rejected e, snd (invoke opts blob w)).
Proof.
  intros H. cbn [uploadFile]. unfold invoke at 1. fold blob. rewrite H.
  reflexivity.
Qed.

(** An attempt that succeeds resolves at once. *)
Lemma uploadFile_success (backoffMS : Z) (n : nat) (w : World) (l : string) :
  upload opts (calls w) blob = Ok l ->
  uploadFile opts key body backoffMS n w =
    (Resolved l, snd (invoke opts blob w)).
Proof.
  intros H. destruct n; cbn [uploadFile]; unfold invoke at 1; fold blob;
    rewrite H; reflexivity.
Qed.

End UploaderFacts.

(** C4.  A transport that rejects every invocation, the [n]-th with
    [err n]: the per-file upload with the default budget rejects after
    exactly five invocations and the waits 1000, 2000, 4000, 8000, and the
    rejection is the very error the transport raised (at its last
    invocation), not a wrapper around it; for a transport that raises one
    error [e] throughout, it is [e]. *)
Theorem uploadFile_exhausted_rethrows
    (opts : Uploader.UploadOptions) (key body : string)
    (err : nat -> JsError) :
  (forall n, Uploader.upload opts n
               {| Uploader.Key := key; Uploader.Body := body |} = Err (err n)) ->
  let run := Uploader.uploadFile_default opts key body in
  fst run = Rejected (err 4)
  /\ Uploader.calls (snd run) = 5
  /\ Uploader.waits (Uploader.events (snd run)) = [1000; 2000; 4000; 8000]%Z
  /\ (forall e, (forall n, err n = e) -> fst run = Rejected e).
Proof.
  intros H run.
  assert (E : run =
    (Rejected (err 4),
     {| Uploader.calls := 5;
        Uploader.events :=
          let b := {| Uploader.Key := key; Uploader.Body := body |} in
          [ Uploader.Invoked b; Uploader.Waited 1000;
            Uploader.Invoked b; Uploader.Waited 2000;
            Uploader.Invoked b; Uploader.Waited 4000;
            Uploader.Invoked b; Uploader.Waited 8000;
            Uploader.Invoked b ] |})).
  { unfold run, Uploader.uploadFile_default, Uploader.default_numTries,
      Uploader.default_backoffMS.
    rewrite (uploadFile_retry _ _ _ _ _ _ (err 0)) by apply H.
    cbn [Uploader.invoke Uploader.setTimeout snd Uploader.calls
         Uploader.events Uploader.initial app].
    rewrite (uploadFile_retry _ _ _ _ _ _ (err 1)) by apply H.
    cbn [Uploader.invoke Uploader.setTimeout snd Uploader.calls
         Uploader.events app].
    rewrite (uploadFile_retry _ _ _ _ _ _ (err 2)) by apply H.
    cbn [Uploader.invoke Uploader.setTimeout snd Uploader.calls
         Uploader.events app].
    rewrite (uploadFile_retry _ _ _ _ _ _ (err 3)) by apply H.
    cbn [Uploader.invoke Uploader.setTimeout snd Uploader.calls
         Uploader.events app].
    rewrite (uploadFile_last _ _ _ _ _ (err 4)) by apply H.
    reflexivity. }
  rewrite E. cbn [fst snd Uploader.calls Uploader.events Uploader.waits].
  repeat split.
  intros e He. now rewrite He.
Qed.

(** A transport that always raises one error: the instance of C4. *)
Lemma uploadFile_exhausted_rethrows_witness :
  let opts := {| Uploader.directory := ["tmp"; "build"];
                 Uploader.upload :=
                   Uploader.alwaysFails (fun _ => Thrown "EPIPE") |} in
  let run := Uploader.uploadFile_default opts "schema.graphql" "type T" in
  fst run = Rejected (Thrown "EPIPE")
  /\ Uploader.calls (snd run) = 5
  /\ Uploader.waits (Uploader.events (snd run)) = [1000; 2000; 4000; 8000]%Z
  /\ (forall e, (forall n : nat, Thrown "EPIPE" = e) ->
                fst run = Rejected e).
Proof.
  intros opts run.
  exact (uploadFile_exhausted_rethrows opts "schema.graphql" "type T"
           (fun _ => Thrown "EPIPE") (fun n => eq_refl)).
Defined.

(** C1, on the code.  A transport that rejects its first four invocations
    and resolves the fifth: the transport is invoked exactly five times,
    with the waits 1000, 2000, 4000, 8000 between the attempts, but the call
    rejects all the same, with the error of the fourth attempt: the [catch]
    block reaches [throw e] after the retry it awaited has resolved. *)
Theorem uploadFile_rejects_after_retry_succeeds
    (dir : Path) (key body location : string) (err : nat -> JsError) :
  let opts := {| Uploader.directory := dir;
                 Uploader.upload :=
                   Uploader.failsThenSucceeds 4 err location |} in
  let run := Uploader.uploadFile_default opts key body in
  fst run = Rejected (err 3)
  /\ fst run <> Resolved location
  /\ Uploader.calls (snd run) = 5
  /\ Uploader.waits (Uploader.events (snd run)) = [1000; 2000; 4000; 8000]%Z.
Proof.
  intros opts run. repeat split. discriminate.
Qed.

Lemma uploadFile_resolves_only_at_first_attempt
    (opts : Uploader.UploadOptions) (key body : string)
    (backoffMS : Z) (numTries : nat) (w : Uploader.World) (l : string) :
  fst (Uploader.uploadFile opts key body backoffMS numTries w) = Resolved l ->
  Uploader.upload opts (Uploader.calls w)
    {| Uploader.Key := key; Uploader.Body := body |} = Ok l.
Proof.
  destruct numTries as [|n]; cbn [Uploader.uploadFile Uploader.invoke].
  - destruct (Uploader.upload opts _ _); cbn;
      [now intros [= ->] | intros [=]].
  - destruct (Uploader.upload opts _ _); cbn [fst]; [now intros [= ->]|].
    destruct (1 <? S n)%nat; [|cbn; intros [=]].
    destruct (Uploader.uploadFile _ _ _ _ _ _) as [[?|?] ?]; cbn; intros [=].
Qed.

(** ** Objects *)

Section ObjectFacts.

Context {A : Type}.
Implicit Types (o : obj A) (k : string) (v : A).

Lemma get_set_same k v o : get k (set k v o) = Some v.
Proof.
  induction o as [|[k' v'] o IH]; cbn.
  - now rewrite String.eqb_refl.
  - destruct (String.eqb k k') eqn:E; cbn; rewrite E; auto.
Qed.

Lemma get_set_other k k' v o : k <> k' -> get k' (set k v o) = get k' o.
Proof.
  intros N. induction o as [|[k0 v0] o IH]; cbn.
  - destruct (String.eqb k' k) eqn:E; auto.
    apply String.eqb_eq in E. congruence.
  - destruct (String.eqb k k0) eqn:E; cbn.
    + apply String.eqb_eq in E. subst k0.
      destruct (String.eqb k' k) eqn:E'; auto.
      apply String.eqb_eq in E'. congruence.
    + now rewrite IH.
Qed.

Lemma get_set k k' v o :
  get k' (set k v o) = if String.eqb k' k then Some v else get k' o.
Proof.
  destruct (String.eqb k' k) eqn:E.
  - apply String.eqb_eq in E. subst. apply get_set_same.
  - apply get_set_other. intros ->. now rewrite String.eqb_refl in E.
Qed.

Lemma set_same k v o : get k o = Some v -> set k v o = o.
Proof.
  induction o as [|[k' v'] o IH]; cbn; [discriminate|].
  destruct (String.eqb k k') eqn:E.
  - now intros [= ->].
  - intros H. now rewrite IH.
Qed.

Lemma get_keys k o : In k (keys o) <-> exists v, get k o = Some v.
Proof.
  induction o as [|[k' v'] o IH]; cbn.
  - split; [tauto | intros [? [=]]].
  - destruct (String.eqb k k') eqn:E.
    + apply String.eqb_eq in E. subst. split; eauto.
    + rewrite <- IH. split; [|tauto].
      intros [->|]; auto. now rewrite String.eqb_refl in E.
Qed.

Lemma has_true k o : has k o = true <-> In k (keys o).
Proof.
  unfold has. rewrite get_keys.
  destruct (get k o); split; eauto; try discriminate. now intros [? [=]].
Qed.

Lemma has_set k k' v o :
  has k' (set k v o) = String.eqb k' k || has k' o.
Proof.
  unfold has. rewrite get_set. now destruct (String.eqb k' k).
Qed.

(** A loop that assigns [f k] under every key [k] of a list. *)
Lemma get_fold_set (f : string -> A) (l : list string) o k :
  get k (fold_left (fun acc k' => set k' (f k') acc) l o) =
    if existsb (String.eqb k) l then Some (f k) else get k o.
Proof.
  revert o. induction l as [|a l IH]; intros o; cbn; [reflexivity|].
  rewrite IH, get_set.
  destruct (String.eqb k a) eqn:E; cbn.
  - apply String.eqb_eq in E. subst. now destruct (existsb _ l).
  - reflexivity.
Qed.

End ObjectFacts.

Lemma existsb_eqb_In (k : string) (l : list string) :
  existsb (String.eqb k) l = true <-> In k l.
Proof.
  rewrite existsb_exists. split.
  - intros [x [H E]]. apply String.eqb_eq in E. now subst.
  - intros H. exists k. split; auto. apply String.eqb_refl.
Qed.

Lemma has_existsb {A} (k : string) (o : obj A) :
  has k o = existsb (String.eqb k) (keys o).
Proof.
  destruct (has k o) eqn:H; symmetry.
  - apply existsb_eqb_In. now apply has_true.
  - destruct (existsb _ _) eqn:E; auto.
    apply existsb_eqb_In, has_true in E. congruence.
Qed.

(** ** The merger *)

Section MergerFacts.

Import Merger.

Variable rc : ResourceConstants.

(** The ids the code computes are the anchors of the specification and
    the ids whose type names an inherited member. *)
Lemma allResourceIds_anchor (resources : obj Resource) (id : string) :
  In id (allResourceIds resources)
  <-> anchor resources id \/ inheritedType resources id.
Proof.
  unfold allResourceIds, anchor, inheritedType, dependedOn.
  rewrite filter_In, get_keys. split.
  - intros [[r Hr] H]. rewrite Hr in H.
    unfold anchorType, resourceTypesToDependOn in *. cbn [get] in H.
    destruct (String.eqb (ResourceType r) "AWS::CloudFormation::Stack") eqn:E1;
      [apply String.eqb_eq in E1; left; eauto|].
    destruct (String.eqb (ResourceType r) "AWS::AppSync::GraphQLApi") eqn:E2;
      [apply String.eqb_eq in E2; left; eauto|].
    destruct (String.eqb (ResourceType r) "AWS::AppSync::GraphQLSchema") eqn:E3;
      [apply String.eqb_eq in E3; left; eauto 6|].
    right. eauto.
  - intros [[r [Hr Ht]] | [r [Hr Ht]]]; (split; [eauto|]); rewrite Hr.
    + destruct Ht as [-> | [-> | ->]]; reflexivity.
    + unfold resourceTypesToDependOn. cbn [get].
      repeat match goal with
             | |- context [String.eqb ?a ?b] => destruct (String.eqb a b)
             end; auto.
Qed.

(** What [customStackParams] holds under a key. *)
Lemma customStackParams_get (rootParameters : obj string) (k : string) :
  get k (customStackParams rc (keys rootParameters)) =
    passedValue rc rootParameters k.
Proof.
  unfold customStackParams, passedValue.
  rewrite get_set, get_fold_set, has_existsb. reflexivity.
Qed.

(** What [parametersForStack] holds under a key. *)
Lemma parametersForStack_get (params : obj Value) (declared : list string)
    (k : string) :
  get k (parametersForStack params declared) =
    if existsb (String.eqb k) declared then Some (lookedUp params k)
    else None.
Proof.
  unfold parametersForStack.
  now rewrite (get_fold_set (fun k' => lookedUp params k')).
Qed.

Section Loop.

Variable userStacks : obj Template.
Variable ids : list string.
Variable params : obj Value.

Let loop := mergeStacks rc userStacks ids params.
Let synthesized := synthesizedFor rc userStacks ids params.

(** One round of the loop that does not throw. *)
Lemma mergeStacks_step (userStack : string) (rest : list string)
    (st st' : LoopState) :
  loop (userStack :: rest) st = (Ok tt, st') ->
  exists template declared,
    has userStack (transformStacks st) = false
    /\ get userStack userStacks = Some template
    /\ Parameters template = Some declared
    /\ loop rest
         {| transformStacks :=
              set userStack template (transformStacks st);
            rootResources :=
              set (stackResourceId userStack)
                (customNestedStack rc userStack
                   (parametersForStack params (keys declared)) ids)
                (rootResources st) |} = (Ok tt, st').
Proof.
  unfold loop. cbn [mergeStacks].
  destruct (has userStack (transformStacks st)) eqn:Hhas; [intros [=]|].
  destruct (get userStack userStacks) as [template|] eqn:Hget;
    [|intros [=]].
  destruct (Parameters template) as [declared|] eqn:Hpar; cbn [keysOf];
    [|intros [=]].
  intros H. exists template, declared. auto.
Qed.

(** After a loop that returns, every id that held a synthesized
    resource, and the id of every stack the loop went through, holds a
    synthesized resource. *)
Lemma mergeStacks_synthesized (names : list string) :
  forall st st',
    loop names st = (Ok tt, st') ->
    forall id,
      (exists r, get id (rootResources st) = Some r /\ synthesized id r)
      \/ (exists name, In name names /\ stackResourceId name = id) ->
      exists r, get id (rootResources st') = Some r /\ synthesized id r.
Proof.
  induction names as [|userStack rest IH]; intros st st' H id Hid.
  - cbn in H. injection H as <-.
    destruct Hid as [Hid | [name [[] _]]]. exact Hid.
  - apply mergeStacks_step in H.
    destruct H as (template & declared & _ & Hget & Hpar & H).
    apply (IH _ _ H). cbn [rootResources].
    destruct (String.eqb id (stackResourceId userStack)) eqn:E.
    + apply String.eqb_eq in E. subst id. left.
      eexists. split; [apply get_set_same|].
      exists userStack, template, declared. auto.
    + assert (N : stackResourceId userStack <> id)
        by (intros <-; now rewrite String.eqb_refl in E).
      destruct Hid as [[r [Hr Hs]] | [name [[<- | Hin] Hname]]].
      * left. exists r. split; auto. now rewrite get_set_other.
      * contradiction.
      * right. eauto.
Qed.

(** A stack of the transform output stays there through the loop. *)
Lemma mergeStacks_keeps_stacks (names : list string) :
  forall st st' k,
    loop names st = (Ok tt, st') ->
    has k (transformStacks st) = true ->
    has k (transformStacks st') = true.
Proof.
  induction names as [|userStack rest IH]; intros st st' k H Hk.
  - cbn in H. now injection H as <-.
  - apply mergeStacks_step in H.
    destruct H as (template & declared & _ & _ & _ & H).
    apply (IH _ _ k H). cbn [transformStacks].
    rewrite has_set, Hk. apply orb_true_r.
Qed.

End Loop.

(** A merge that returns went through both optional sections of the root
    stack and through the loop. *)
Lemma merge_returns (userConfig : PartialDeploymentResources)
    (transformOutput merged left : DeploymentResources) :
  mergeUserConfigWithTransformOutput rc userConfig transformOutput
    = (Ok merged, left) ->
  exists resources rootParameters st,
    Resources (rootStack transformOutput) = Some resources
    /\ Parameters (rootStack transformOutput) = Some rootParameters
    /\ mergeStacks rc (orEmpty (user_stacks userConfig))
         (allResourceIds resources)
         (customStackParams rc (keys rootParameters))
         (keys (orEmpty (user_stacks userConfig)))
         {| transformStacks := stacks transformOutput;
            rootResources := resources |} = (Ok tt, st)
    /\ merged = mutated transformOutput
                  (overrideResolvers (orEmpty (user_resolvers userConfig))
                     (resolvers transformOutput)) st
    /\ left = merged.
Proof.
  unfold mergeUserConfigWithTransformOutput.
  destruct (Resources (rootStack transformOutput)) as [resources|];
    [|intros [=]].
  destruct (Parameters (rootStack transformOutput)) as [rootParameters|];
    cbn [keysOf]; [|intros [=]].
  destruct (mergeStacks _ _ _ _ _ _) as [[[]|e] st] eqn:E; [|intros [=]].
  intros [= <- <-]. exists resources, rootParameters, st. auto.
Qed.

End MergerFacts.

(** C2, on the code.  The filter reads [resourceTypesToDependOn[resource.Type]]
    as a condition, and an object literal answers to the names it inherits
    from [Object.prototype].  On a root stack with a resource [Hook] of type
    [toString] the merge returns; the type is not in the allow-list, and yet
    the nested-stack resource synthesized for the user stack [odd.json] has
    [Hook] in its [DependsOn]. *)
Theorem merge_dependsOn_inherited_type :
  fst (Merger.mergeUserConfigWithTransformOutput Sample.rc Sample.oddUserConfig
         Sample.oddTransformOutput) = Ok Sample.oddMerged
  /\ option_map (fun resources => option_map ResourceType (get "Hook" resources))
       (Resources (rootStack Sample.oddTransformOutput))
     = Some (Some "toString"%string)
  /\ ~ anchorType "toString"
  /\ option_map (fun resources => option_map DependsOn (get "oddjson" resources))
       (Resources (rootStack Sample.oddMerged))
     = Some (Some (Some ["GraphQLAPI"; "Hook"])).
Proof.
  split; [vm_compute; reflexivity|]. split; [reflexivity|].
  split; [|reflexivity].
  intros [H | [H | H]]; discriminate.
Qed.

Example sample_anchors :
  option_map Merger.allResourceIds (Resources Sample.root)
  = Some ["GraphQLAPI"; "GraphQLSchema"; "Post"].
Proof. reflexivity. Qed.

Example sample_custom_stack_ids :
  map Merger.stackResourceId ["Search-1.json"; "audit.json"]
  = ["Searchjson"; "auditjson"].
Proof. reflexivity. Qed.

Example sample_custom_stack_dependsOn :
  option_map
    (fun resources =>
       (option_map DependsOn (get "Searchjson" resources),
        option_map DependsOn (get "auditjson" resources)))
    (Resources (rootStack Sample.merged))
  = Some (Some (Some ["GraphQLAPI"; "GraphQLSchema"; "Post"]),
          Some (Some ["GraphQLAPI"; "GraphQLSchema"; "Post"])).
Proof. reflexivity. Qed.

(** C7, on the code.  The value of a declared parameter is read as
    [customStackParams[k]], and an object literal answers to the names it
    inherits from [Object.prototype].  The user stack [odd.json] declares a
    parameter named [constructor]; the root stack has no such parameter and
    it is not the API id, so its lookup among them finds nothing, and yet the
    parameter map of the synthesized resource gives it a value, the member of
    that name inherited from [Object.prototype]. *)
Theorem merge_passes_inherited_member :
  fst (Merger.mergeUserConfigWithTransformOutput Sample.rc Sample.oddUserConfig
         Sample.oddTransformOutput) = Ok Sample.oddMerged
  /\ option_map (fun parameters => passedValue Sample.rc parameters "constructor")
       (Parameters (rootStack Sample.oddTransformOutput))
     = Some None
  /\ option_map (fun resources => option_map Properties (get "oddjson" resources))
       (Resources (rootStack Sample.oddMerged))
     = Some (Some (StackProperties
                     [ ("env", Some (Ref "env"));
                       ("constructor", Some (Inherited "constructor")) ]
                     (Join "/" [ Str "https://s3.amazonaws.com";
                                 Ref "S3DeploymentBucket";
                                 Ref "S3DeploymentRootKey";
                                 Str "stacks";
                                 Str "odd.json" ]))).
Proof.
  split; [vm_compute; reflexivity|]. split; reflexivity.
Qed.

Example sample_search_parameters :
  option_map
    (fun resources => option_map Properties (get "Searchjson" resources))
    (Resources (rootStack Sample.merged))
  = Some (Some (StackProperties
                  [ ("env", Some (Ref "env"));
                    ("AppSyncApiId", Some (GetAtt "GraphQLAPI" "ApiId"));
                    ("Retention", None) ]
                  (Join "/" [ Str "https://s3.amazonaws.com";
                              Ref "S3DeploymentBucket";
                              Ref "S3DeploymentRootKey";
                              Str "stacks";
                              Str "Search-1.json" ]))).
Proof. reflexivity. Qed.

(** ** Messages *)

Lemma includes_middle (pre t post : string) :
  JsString.includes (pre ++ t ++ post)%string t.
Proof. now exists pre, post. Qed.

Lemma substring_skip (pre s : string) (n : nat) :
  substring (String.length pre) n (pre ++ s)%string = substring 0 n s.
Proof. induction pre as [|c pre IH]; cbn; auto. Qed.

Lemma substring_prefix (t post : string) :
  substring 0 (String.length t) (t ++ post)%string = t.
Proof.
  induction t as [|c t IH]; cbn.
  - now destruct post.
  - now rewrite IH.
Qed.

(** [index] decides [includes] for a text that is not empty. *)
Lemma includes_index (s t : string) :
  t <> ""%string -> JsString.includes s t -> index 0 t s <> None.
Proof.
  intros Ht [pre [post ->]] Hnone.
  apply (index_correct3 0 (String.length pre) t _ Hnone Ht); [lia|].
  now rewrite substring_skip, substring_prefix.
Qed.

Lemma duplicateStackMessage_names (userStack : string) :
  JsString.includes (Merger.duplicateStackMessage userStack) userStack.
Proof. apply includes_middle. Qed.

Section CollisionFacts.

Import Merger.

Variable rc : ResourceConstants.
Variable userStacks : obj Template.
Variable ids : list string.
Variable params : obj Value.

Let loop := mergeStacks rc userStacks ids params.

(** A name that collides when the loop starts makes the loop throw. *)
Lemma mergeStacks_collision_throws (names : list string) :
  forall st name,
    In name names ->
    has name (transformStacks st) = true ->
    exists e, fst (loop names st) = Err e.
Proof.
  induction names as [|userStack rest IH]; intros st name Hin Hhas.
  - destruct Hin.
  - unfold loop. cbn [mergeStacks].
    destruct (has userStack (transformStacks st)) eqn:Hu; [cbn; eauto|].
    destruct (get userStack userStacks) as [template|]; [|cbn; eauto].
    destruct (Parameters template) as [declared|]; cbn [keysOf];
      [|cbn; eauto].
    destruct Hin as [-> | Hin]; [congruence|].
    apply (IH _ name Hin). cbn [transformStacks].
    rewrite has_set, Hhas. apply orb_true_r.
Qed.

(** The loop throws for the first colliding name, when the stacks before
    it are distinct and handled without a throw. *)
Lemma mergeStacks_first_collision (name : string) (after : list string) :
  forall before st,
    NoDup before ->
    (forall n, In n before ->
               has n (transformStacks st) = false
               /\ declaresParameters userStacks n) ->
    has name (transformStacks st) = true ->
    fst (loop (before ++ name :: after) st)
    = Err (Error (duplicateStackMessage name)).
Proof.
  induction before as [|n before IH]; intros st Hnd Hbefore Hname.
  - unfold loop. cbn [app mergeStacks]. now rewrite Hname.
  - unfold loop. cbn [app mergeStacks].
    destruct (Hbefore n (or_introl eq_refl))
      as (Hn & template & declared & Hget & Hpar).
    rewrite Hn, Hget, Hpar. cbn [keysOf].
    inversion Hnd as [|? ? Hnotin Hnd']; subst.
    apply IH; auto; cbn [transformStacks].
    + intros n' Hin'. destruct (Hbefore n' (or_intror Hin')) as [H1 H2].
      split; auto. rewrite has_set, H1.
      destruct (String.eqb n' n) eqn:E; auto.
      apply String.eqb_eq in E. now subst.
    + rewrite has_set, Hname. apply orb_true_r.
Qed.

End CollisionFacts.

(** C6, as the code has it.  A user stack whose name the transform output
    already uses makes the merge throw: no bundle is produced.  The loop
    stops at the first such stack, so the error is the duplicate-stack-name
    error of the first colliding stack in the key order of the user bundle,
    and its message names that stack; this is stated for a root stack with
    both sections and user stacks before the colliding one that declare
    their [Parameters]. *)
Theorem merge_rejects_first_colliding_stack (rc : ResourceConstants)
    (userConfig : PartialDeploymentResources)
    (transformOutput : DeploymentResources) (name : string) :
  let userStacks := Merger.orEmpty (user_stacks userConfig) in
  let outcome :=
    fst (Merger.mergeUserConfigWithTransformOutput rc userConfig
           transformOutput) in
  In name (keys userStacks) ->
  has name (stacks transformOutput) = true ->
  (exists e, outcome = Err e)
  /\ (forall before after resources rootParameters,
        keys userStacks = before ++ name :: after ->
        NoDup before ->
        (forall n, In n before ->
                   has n (stacks transformOutput) = false
                   /\ declaresParameters userStacks n) ->
        Resources (rootStack transformOutput) = Some resources ->
        Parameters (rootStack transformOutput) = Some rootParameters ->
        outcome = Err (Error (Merger.duplicateStackMessage name))
        /\ JsString.includes (Merger.duplicateStackMessage name) name).
Proof.
  intros userStacks outcome Hin Hhas. split.
  - unfold outcome, Merger.mergeUserConfigWithTransformOutput.
    destruct (Resources (rootStack transformOutput)) as [resources|];
      [|cbn; eauto].
    destruct (Parameters (rootStack transformOutput)) as [rootParameters|];
      cbn [Merger.keysOf]; [|cbn; eauto].
    destruct (mergeStacks_collision_throws rc userStacks
                (Merger.allResourceIds resources)
                (Merger.customStackParams rc (keys rootParameters))
                (keys userStacks)
                {| Merger.transformStacks := stacks transformOutput;
                   Merger.rootResources := resources |} name Hin Hhas)
      as [e He].
    fold userStacks.
    destruct (Merger.mergeStacks _ _ _ _ _ _) as [[[]|e'] st];
      cbn in He |- *; [discriminate | eauto].
  - intros before after resources rootParameters Hkeys Hnd Hbefore Hres Hpar.
    split; [|apply duplicateStackMessage_names].
    unfold outcome, Merger.mergeUserConfigWithTransformOutput.
    rewrite Hres, Hpar. cbn [Merger.keysOf]. fold userStacks. rewrite Hkeys.
    pose proof (mergeStacks_first_collision rc userStacks
                  (Merger.allResourceIds resources)
                  (Merger.customStackParams rc (keys rootParameters))
                  name after before
                  {| Merger.transformStacks := stacks transformOutput;
                     Merger.rootResources := resources |}
                  Hnd Hbefore Hhas) as H.
    destruct (Merger.mergeStacks _ _ _ _ _ _) as [[[]|e'] st];
      cbn [fst] in H |- *; [discriminate | now injection H as ->].
Qed.

(** A bundle whose first stack is fine and whose second and third collide:
    the instance of C6 for the second. *)
Lemma merge_rejects_first_colliding_stack_witness :
  fst (Merger.mergeUserConfigWithTransformOutput Sample.rc
         Sample.collidingLater Sample.transformOutput)
  = Err (Error (Merger.duplicateStackMessage "Comment"))
  /\ JsString.includes (Merger.duplicateStackMessage "Comment") "Comment".
Proof.
  destruct (merge_rejects_first_colliding_stack Sample.rc
              Sample.collidingLater Sample.transformOutput "Comment")
    as [_ H].
  - cbn. auto.
  - reflexivity.
  - apply (H ["audit.json"] ["Post"]
             [ ("GraphQLAPI",
                Sample.engineResource "AWS::AppSync::GraphQLApi");
               ("GraphQLSchema",
                Sample.engineResource "AWS::AppSync::GraphQLSchema");
               ("AuthRole", Sample.engineResource "AWS::IAM::Role");
               ("Post", Sample.engineResource "AWS::CloudFormation::Stack") ]
             [ ("env", "String");
               ("S3DeploymentBucket", "String");
               ("S3DeploymentRootKey", "String") ]).
    + reflexivity.
    + constructor; [intros [] | constructor].
    + intros n [<- | []]. split; [reflexivity|].
      exists Sample.auditStack, []. split; reflexivity.
    + reflexivity.
    + reflexivity.
Defined.

(** C6 as stated fails where two user stacks collide: [Comment] is a user
    stack whose name the transform output uses, but the merge throws for
    [Post], the first one, and the message does not name [Comment]. *)
Lemma merge_second_collision_not_named :
  In "Comment" (keys (Merger.orEmpty (user_stacks Sample.colliding)))
  /\ has "Comment" (stacks Sample.transformOutput) = true
  /\ fst (Merger.mergeUserConfigWithTransformOutput Sample.rc
            Sample.colliding Sample.transformOutput)
     = Err (Error (Merger.duplicateStackMessage "Post"))
  /\ ~ (exists message,
          fst (Merger.mergeUserConfigWithTransformOutput Sample.rc
                 Sample.colliding Sample.transformOutput)
          = Err (Error message)
          /\ JsString.includes message "Comment").
Proof.
  split; [cbn; auto|]. split; [reflexivity|]. split; [reflexivity|].
  intros [message [H Hinc]].
  assert (E : message = Merger.duplicateStackMessage "Post")
    by (vm_compute in H; injection H as <-; reflexivity).
  subst message. apply includes_index in Hinc; [|discriminate].
  apply Hinc. reflexivity.
Qed.

(** ** Merging twice *)

Section TwiceFacts.

Import Merger.

Variable userResolvers : obj string.

Let body := fun (acc : obj string) (userResolver : string) =>
  match get userResolver userResolvers with
  | Some v => set userResolver v acc
  | None => acc
  end.

Lemma overrideResolvers_get (l : list string) :
  forall (transformResolvers : obj string) (k : string),
    get k (fold_left body l transformResolvers) =
      if existsb (String.eqb k) l then
        match get k userResolvers with
        | Some v => Some v
        | None => get k transformResolvers
        end
      else get k transformResolvers.
Proof.
  induction l as [|a l IH]; intros transformResolvers k; cbn [fold_left existsb];
    [reflexivity|].
  rewrite IH. unfold body.
  destruct (String.eqb k a) eqn:E; cbn [orb].
  - apply String.eqb_eq in E. subst a.
    destruct (get k userResolvers) as [v|]; [|now destruct (existsb _ l)].
    rewrite get_set_same. now destruct (existsb _ l).
  - destruct (get a userResolvers) as [v|]; [|reflexivity].
    rewrite get_set_other; [reflexivity|].
    intros ->. now rewrite String.eqb_refl in E.
Qed.

Lemma fold_left_fixed (l : list string) (o : obj string) :
  (forall k, In k l -> body o k = o) -> fold_left body l o = o.
Proof.
  induction l as [|a l IH]; intros H; cbn; [reflexivity|].
  rewrite (H a (or_introl eq_refl)). apply IH.
  intros k Hk. apply H. now right.
Qed.

(** Overriding the resolvers a second time changes nothing. *)
Lemma overrideResolvers_idempotent (transformResolvers : obj string) :
  overrideResolvers userResolvers
    (overrideResolvers userResolvers transformResolvers)
  = overrideResolvers userResolvers transformResolvers.
Proof.
  unfold overrideResolvers. fold body. apply fold_left_fixed.
  intros k Hk. unfold body at 1.
  destruct (get k userResolvers) as [v|] eqn:Hv; [|reflexivity].
  apply set_same. rewrite overrideResolvers_get, Hv.
  apply existsb_eqb_In in Hk. now rewrite Hk.
Qed.

End TwiceFacts.



(** The two sample runs return bundles that differ, though only outside the
    stacks and the root stack. *)
Example merge_two_runs_sample :
  fst (Merger.mergeUserConfigWithTransformOutput Sample.rc Sample.userConfig
         Sample.transformOutput) = Ok Sample.merged
  /\ option_map schema
       (match fst (Merger.mergeUserConfigWithTransformOutput Sample.rc
                     Sample.userConfigAgain Sample.transformOutputAgain) with
        | Ok merged' => Some merged'
        | Err _ => None
        end)
     = Some "type Comment { id: ID! }"%string
  /\ schema Sample.merged <> "type Comment { id: ID! }"%string.
Proof.
  split; [vm_compute; reflexivity|]. split; [reflexivity|].
  vm_compute. discriminate.
Qed.

(** ** The loader *)

Lemma yamlMessage_names (stackFile : string) :
  JsString.includes (yamlMessage stackFile) stackFile.
Proof. apply includes_middle. Qed.

Lemma string_app_assoc (a b c : string) :
  ((a ++ b) ++ c = a ++ (b ++ c))%string.
Proof. induction a as [|x a IH]; cbn; congruence. Qed.

Lemma string_app_nil (a : string) : (a ++ "" = a)%string.
Proof. induction a as [|x a IH]; cbn; congruence. Qed.

Lemma invalidExtensionMessage_names (extension stackFile : string) :
  JsString.includes (invalidExtensionMessage extension stackFile) stackFile.
Proof.
  exists ("Invalid extension ." ++ extension ++ " for stack ")%string, ""%string.
  unfold invalidExtensionMessage.
  now rewrite string_app_nil, !string_app_assoc.
Qed.

Lemma throwIfNotJSON_yaml (stackFile : string) :
  extensionOf stackFile = "yaml" \/ extensionOf stackFile = "yml" ->
  throwIfNotJSON stackFile = Err (Error (yamlMessage stackFile)).
Proof.
  unfold throwIfNotJSON. now intros [-> | ->].
Qed.

Lemma throwIfNotJSON_invalid (stackFile : string) :
  extensionOf stackFile <> "json" ->
  extensionOf stackFile <> "yaml" ->
  extensionOf stackFile <> "yml" ->
  throwIfNotJSON stackFile
  = Err (Error (invalidExtensionMessage (extensionOf stackFile) stackFile)).
Proof.
  intros Hj Hy Hm. unfold throwIfNotJSON.
  apply String.eqb_neq in Hj, Hy, Hm. now rewrite Hj, Hy, Hm.
Qed.

Lemma throwIfNotJSON_json (stackFile : string) :
  extensionOf stackFile = "json" -> throwIfNotJSON stackFile = Ok tt.
Proof. unfold throwIfNotJSON. now intros ->. Qed.

Section StacksLoop.

Import Loader.

Variable json : JSON.
Variable stacksDirectory : Path.
Variable fs : FS.
Variable stackFiles : list string.

Let loop := readStacks json stacksDirectory fs stackFiles.

(** The loop goes past the files that load. *)
Lemma readStacks_past (before rest : list string) :
  (forall f, In f before -> loadsAsStack json stacksDirectory fs f) ->
  forall stacks, exists stacks',
    loop (before ++ rest) stacks = loop rest stacks'.
Proof.
  induction before as [|f before IH]; intros H stacks; [now exists stacks|].
  destruct (H f (or_introl eq_refl)) as (Hext & data & template & Hr & Hp).
  destruct (IH (fun g Hg => H g (or_intror Hg)) (set f template stacks))
    as [stacks' E].
  exists stacks'. unfold loop in *. cbn [app readStacks].
  rewrite Hext, Hr. cbn [bind]. now rewrite Hp.
Qed.

(** It stops at the first file whose extension is refused. *)
Lemma readStacks_stops_at_extension
    (before after : list string) (stackFile : string) (e : JsError) :
  (forall f, In f before -> loadsAsStack json stacksDirectory fs f) ->
  throwIfNotJSON stackFile = Err e ->
  forall stacks, loop (before ++ stackFile :: after) stacks = Err e.
Proof.
  intros H He stacks.
  destruct (readStacks_past before (stackFile :: after) H stacks) as [s' ->].
  unfold loop. cbn [readStacks]. now rewrite He.
Qed.

(** It stops at the first file whose contents do not parse, with a
    message built from the whole listing. *)
Lemma readStacks_stops_at_parse
    (before after : list string) (stackFile data : string) :
  (forall f, In f before -> loadsAsStack json stacksDirectory fs f) ->
  throwIfNotJSON stackFile = Ok tt ->
  readFileSync (path_join stacksDirectory stackFile) fs = Ok data ->
  JSON_parse json data = None ->
  forall stacks,
    loop (before ++ stackFile :: after) stacks
    = Err (Error (malformedMessage stackFiles)).
Proof.
  intros H He Hr Hp stacks.
  destruct (readStacks_past before (stackFile :: after) H stacks) as [s' ->].
  unfold loop. cbn [readStacks]. rewrite He, Hr. cbn [bind]. now rewrite Hp.
Qed.

End StacksLoop.

Lemma readdirSync_exists (p : Path) (fs : FS) (names : list string) :
  readdirSync p fs = Ok names -> existsSync p fs = true.
Proof.
  unfold readdirSync, existsSync. now destruct (lookup p fs).
Qed.

(** C8, as the code has it.  In a project whose schema and resolvers load,
    the load stops at the first file of the stacks listing that does not go
    through the loop: when that file has the extension [yaml] or [yml] the
    load rejects with the yaml-unsupported error, when its extension is none
    of [json], [yaml], [yml] it rejects with the invalid-extension error,
    and in both cases the message names that file. *)
Theorem load_rejects_first_bad_extension (json : JSON)
    (projectDirectory : Path) (fs : FS)
    (schema : string) (resolvers : obj string)
    (before after : list string) (stackFile : string) :
  let stacksDirectory := path_join projectDirectory "stacks" in
  let load := Loader.readProjectConfiguration json projectDirectory fs in
  let extension := extensionOf stackFile in
  Loader.readSchema projectDirectory fs = Ok schema ->
  Loader.loadResolvers projectDirectory fs = Ok resolvers ->
  readdirSync stacksDirectory fs = Ok (before ++ stackFile :: after) ->
  (forall f, In f before -> loadsAsStack json stacksDirectory fs f) ->
  (extension = "yaml" \/ extension = "yml" ->
   load = Rejected (Error (yamlMessage stackFile))
   /\ JsString.includes (yamlMessage stackFile) stackFile)
  /\ (extension <> "json" -> extension <> "yaml" -> extension <> "yml" ->
      load = Rejected (Error (invalidExtensionMessage extension stackFile))
      /\ JsString.includes (invalidExtensionMessage extension stackFile)
           stackFile).
Proof.
  intros stacksDirectory load extension Hschema Hres Hdir Hbefore.
  assert (L : forall e, throwIfNotJSON stackFile = Err e -> load = Rejected e).
  { intros e He. unfold load, Loader.readProjectConfiguration.
    rewrite Hschema, Hres. cbn [bind]. unfold Loader.loadStacks.
    fold stacksDirectory.
    rewrite (readdirSync_exists _ _ _ Hdir), Hdir. cbn [bind].
    now rewrite (readStacks_stops_at_extension json stacksDirectory fs
                   _ before after stackFile e Hbefore He). }
  split.
  - intros Hy. split; [|apply yamlMessage_names].
    apply L. now apply throwIfNotJSON_yaml.
  - intros Hj Hy Hm. split; [|apply invalidExtensionMessage_names].
    apply L. now apply throwIfNotJSON_invalid.
Qed.

(** The sample project as an instance of C8: [notes.txt] is the first file
    that is refused. *)
Lemma load_rejects_first_bad_extension_witness :
  Loader.readProjectConfiguration Sample.json SampleProject.projectDirectory
    SampleProject.mixedStacks
  = Rejected (Error (invalidExtensionMessage "txt" "notes.txt"))
  /\ JsString.includes (invalidExtensionMessage "txt" "notes.txt") "notes.txt".
Proof.
  destruct (load_rejects_first_bad_extension Sample.json
              SampleProject.projectDirectory SampleProject.mixedStacks
              "type Post { id: ID! }"
              [("Query.getPost.req.vtl", "## mine")]
              ["audit.json"] ["old.yaml"] "notes.txt")
    as [_ H].
  - reflexivity.
  - reflexivity.
  - reflexivity.
  - intros f [<- | []]. split; [reflexivity|].
    exists "{ }", {| Parameters := Some []; Resources := Some [] |}.
    split; reflexivity.
  - apply H; discriminate.
Defined.

(** C8 as stated fails on the sample project: [old.yaml] is a stack file
    with the extension [yaml], but the load rejects with the
    invalid-extension error of [notes.txt], which comes before it in the
    listing of the stacks directory, not with the yaml-unsupported error. *)
Lemma load_yaml_file_not_reported :
  readdirSync (path_join SampleProject.projectDirectory "stacks")
    SampleProject.mixedStacks
  = Ok ["audit.json"; "notes.txt"; "old.yaml"]
  /\ extensionOf "old.yaml" = "yaml"
  /\ Loader.readProjectConfiguration Sample.json
       SampleProject.projectDirectory SampleProject.mixedStacks
     = Rejected (Error (invalidExtensionMessage "txt" "notes.txt"))
  /\ Loader.readProjectConfiguration Sample.json
       SampleProject.projectDirectory SampleProject.mixedStacks
     <> Rejected (Error (yamlMessage "old.yaml")).
Proof.
  split; [reflexivity|]. split; [reflexivity|]. split; [reflexivity|].
  vm_compute. discriminate.
Qed.

Example throwIfNotJSON_samples :
  map throwIfNotJSON ["a.json"; "a.b.json"; "json"; "a.yml"; "a."; "a.JSON"]
  = [ Ok tt; Ok tt; Ok tt;
      Err (Error "Yaml is not yet supported. Please convert the CloudFormation stack a.yml to json.");
      Err (Error "Invalid extension . for stack a.");
      Err (Error "Invalid extension .JSON for stack a.JSON") ].
Proof. reflexivity. Qed.

(** C9, on the code.  In the sample project [broken.json] is the one stack
    file that does not parse; the load rejects with the malformed-template
    error, but its message is built from the whole listing of the stacks
    directory, [search.json,broken.json], not from the offending file. *)
Theorem load_malformed_message_lists_directory :
  Loader.readProjectConfiguration Sample.json SampleProject.projectDirectory
    SampleProject.brokenStack
  = Rejected (Error "The CloudFormation template search.json,broken.json does not contain valid JSON.")
  /\ loadsAsStack Sample.json
       (path_join SampleProject.projectDirectory "stacks")
       SampleProject.brokenStack "search.json"
  /\ Loader.malformedMessage ["search.json"; "broken.json"]
     <> Loader.malformedMessage ["broken.json"].
Proof.
  split; [reflexivity|]. split.
  - split; [reflexivity|].
    exists "{ }", {| Parameters := Some []; Resources := Some [] |}.
    split; reflexivity.
  - vm_compute. discriminate.
Qed.

(** ** The writer *)

(** C10.  Writing to a target directory that does not exist rejects with
    the [ENOENT] of the directory-emptying step and leaves the disk as it
    was: no file is written and the directory is not created. *)
Theorem writer_requires_target_directory (json : JSON)
    (deployment : DeploymentResources) (directory : Path)
    (rootStackFileName : option string) (fs : FS) :
  lookup directory fs = None ->
  Writer.writeDeploymentToDisk json deployment directory rootStackFileName fs
  = (Rejected (ENOENT directory), fs)
  /\ fst (Writer.emptyDirectory directory fs) = Err (ENOENT directory)
  /\ existsSync directory
       (snd (Writer.writeDeploymentToDisk json deployment directory
               rootStackFileName fs)) = false.
Proof.
  intros H.
  assert (E : Writer.emptyDirectory directory fs = (Err (ENOENT directory), fs)).
  { unfold Writer.emptyDirectory, readdirSync. now rewrite H. }
  assert (W : Writer.writeDeploymentToDisk json deployment directory
                rootStackFileName fs = (Rejected (ENOENT directory), fs)).
  { unfold Writer.writeDeploymentToDisk, Writer.writeDeployment.
    unfold Writer.andThen at 1. now rewrite E. }
  rewrite W, E. repeat split. unfold existsSync. cbn [snd]. now rewrite H.
Qed.

(** The sample project has no [build] directory: the instance of C10. *)
Lemma writer_requires_target_directory_witness :
  Writer.writeDeploymentToDisk Sample.json Sample.merged
    ["home"; "project"; "build"] None SampleProject.unbuilt
  = (Rejected (ENOENT ["home"; "project"; "build"]), SampleProject.unbuilt)
  /\ fst (Writer.emptyDirectory ["home"; "project"; "build"]
            SampleProject.unbuilt)
     = Err (ENOENT ["home"; "project"; "build"])
  /\ existsSync ["home"; "project"; "build"]
       (snd (Writer.writeDeploymentToDisk Sample.json Sample.merged
               ["home"; "project"; "build"] None SampleProject.unbuilt))
     = false.
Proof.
  apply (writer_requires_target_directory Sample.json Sample.merged
           ["home"; "project"; "build"] None SampleProject.unbuilt).
  reflexivity.
Defined.

(** With a [build] directory the writer empties it, keeping its
    directories, and writes the bundle. *)
Example writer_replaces_previous_build :
  let written :=
    Writer.writeDeploymentToDisk Sample.json Sample.mergedResolversOnly
      ["home"; "project"; "build"] None SampleProject.built in
  fst written = Resolved tt
  /\ lookup ["home"; "project"; "build"] (snd written)
     = Some (Dir [ ("stacks",
                    Dir [ ("Post.json", File "{}");
                          ("Comment.json", File "{}") ]);
                   ("schema.graphql", File "type Post { id: ID! }");
                   ("resolvers",
                    Dir [("Query.getPost.req.vtl", File "## mine")]);
                   ("functions", Dir []);
                   ("rootStack.json", File "{}") ]).
Proof. split; reflexivity. Qed.

(** ** The orchestrator *)

Section BuildFacts.

Import Build.

Variable rc : ResourceConstants.
Variable json : JSON.
Variable opts : ProjectOptions.
Variable fs : FS.

(** A rejection of the loader is the rejection of the build. *)
Lemma buildProject_loader_rejects (e : JsError) :
  Loader.readProjectConfiguration json (projectDirectory opts) fs
    = Rejected e ->
  returned (buildProject rc json opts fs) = Rejected e.
Proof. unfold buildProject. now intros ->. Qed.

(** So is an error thrown by the transform engine. *)
Lemma buildProject_transform_throws
    (config : Loader.ProjectConfiguration) (e : JsError) :
  Loader.readProjectConfiguration json (projectDirectory opts) fs
    = Resolved config ->
  transform opts (Loader.config_schema config) = Err e ->
  returned (buildProject rc json opts fs) = Rejected e.
Proof. unfold buildProject. now intros -> ->. Qed.

(** So is an error thrown by the merger. *)
Lemma buildProject_merger_throws
    (config : Loader.ProjectConfiguration)
    (transformOutput : DeploymentResources) (e : JsError) :
  Loader.readProjectConfiguration json (projectDirectory opts) fs
    = Resolved config ->
  transform opts (Loader.config_schema config) = Ok transformOutput ->
  fst (Merger.mergeUserConfigWithTransformOutput rc
         (Loader.asPartial config) transformOutput) = Err e ->
  returned (buildProject rc json opts fs) = Rejected e.
Proof. unfold buildProject. now intros -> -> ->. Qed.

(** Once the merge has returned, the build resolves whatever becomes of
    the writer's promise, which it drops. *)
Lemma buildProject_drops_writer
    (config : Loader.ProjectConfiguration)
    (transformOutput merged : DeploymentResources) :
  Loader.readProjectConfiguration json (projectDirectory opts) fs
    = Resolved config ->
  transform opts (Loader.config_schema config) = Ok transformOutput ->
  fst (Merger.mergeUserConfigWithTransformOutput rc
         (Loader.asPartial config) transformOutput) = Ok merged ->
  let written :=
    Writer.writeDeploymentToDisk json merged
      (path_join (projectDirectory opts) "build")
      (rootStackFileName opts) fs in
  returned (buildProject rc json opts fs) = Resolved tt
  /\ dropped (buildProject rc json opts fs) = [fst written]
  /\ disk (buildProject rc json opts fs) = snd written.
Proof.
  unfold buildProject. intros -> -> ->.
  destruct (Writer.writeDeploymentToDisk _ _ _ _ _). cbn. auto.
Qed.

End BuildFacts.

(** C3, on the code.  The sample project loads, transforms and merges, and
    has no [build] directory: the writer's promise rejects with [ENOENT],
    but [buildProject] does not await it, and the promise it returns
    resolves. *)
Theorem buildProject_resolves_when_writer_rejects :
  let build :=
    Build.buildProject Sample.rc Sample.json SampleProject.opts
      SampleProject.unbuilt in
  Build.returned build = Resolved tt
  /\ Build.dropped build = [Rejected (ENOENT ["home"; "project"; "build"])]
  /\ Build.returned build <> Rejected (ENOENT ["home"; "project"; "build"])
  /\ Build.disk build = SampleProject.unbuilt.
Proof.
  intros build. split; [reflexivity|]. split; [reflexivity|].
  split; [|reflexivity]. vm_compute. discriminate.
Qed.

(* ================================================================== *)
(** * Part III: more of the code                                       *)
(* ================================================================== *)

(** ** [uploadFile] for any budget and delay *)

Section UploadFileFacts.

Import Uploader.

Variable opts : UploadOptions.
Variables key body : string.

Let blob : Blob := {| Key := key; Body := body |}.

(** A budget of zero behaves as a budget of one. *)
Lemma uploadFile_zero_budget (backoffMS : Z) (w : World) :
  uploadFile opts key body backoffMS 0 w
  = uploadFile opts key body backoffMS 1 w.
Proof.
  cbn [uploadFile]. destruct (invoke opts _ w) as [[l|e] w1]; reflexivity.
Qed.

Lemma uploadFile_all_fail_S (n : nat) :
  forall (backoffMS : Z) (w : World) (err : nat -> JsError),
    (forall i, upload opts (calls w + i) blob = Err (err i)) ->
    uploadFile opts key body backoffMS (S n) w
    = (Rejected (err n),
       {| calls := calls w + S n;
          events := events w ++ attempts blob backoffMS (S n) |}).
Proof.
  induction n as [|n IH]; intros backoffMS w err' H.
  - rewrite (uploadFile_last opts key body backoffMS w (err' 0)).
    + unfold invoke. cbn [snd attempts]. fold blob.
      now rewrite Nat.add_1_r.
    + now rewrite <- (H 0), Nat.add_0_r.
  - rewrite (uploadFile_retry opts key body backoffMS n w (err' 0)).
    + cbv zeta.
      rewrite (IH (backoffMS * 2)%Z _ (fun i => err' (S i))).
      * unfold invoke, setTimeout. cbn [snd calls events]. fold blob.
        f_equal. f_equal; [lia|].
        change (attempts blob backoffMS (S (S n)))
          with (Invoked blob :: Waited backoffMS
                  :: attempts blob (backoffMS * 2) (S n)).
        now rewrite <- !app_assoc.
      * intros i. unfold invoke, setTimeout. cbn [snd calls].
        rewrite <- (H (S i)). f_equal. lia.
    + now rewrite <- (H 0), Nat.add_0_r.
Qed.

Lemma waits_app (l1 l2 : list Event) :
  waits (l1 ++ l2) = waits l1 ++ waits l2.
Proof.
  induction l1 as [|[b|ms] l1 IH]; cbn; [reflexivity | exact IH |].
  now rewrite IH.
Qed.

Lemma waits_attempts (b : Blob) (k : nat) :
  forall backoffMS, waits (attempts b backoffMS (S k)) = backoffs backoffMS k.
Proof.
  induction k as [|k IH]; intros backoffMS; [reflexivity|].
  change (attempts b backoffMS (S (S k)))
    with (Invoked b :: Waited backoffMS :: attempts b (backoffMS * 2) (S k)).
  cbn [waits backoffs]. now rewrite IH.
Qed.

End UploadFileFacts.

(** Doubling stays in the range of the timer as long as the last delay
    does. *)
Lemma backoffs_timerDelay (k : nat) :
  forall backoffMS,
    (1 <= backoffMS)%Z ->
    (backoffMS * 2 ^ Z.of_nat k < 2 ^ 31)%Z ->
    Forall timerDelay (backoffs backoffMS k).
Proof.
  induction k as [|k IH]; intros backoffMS H1 H2; cbn [backoffs];
    constructor.
  - unfold timerDelay. split; [exact H1|].
    assert (0 < 2 ^ Z.of_nat (S k))%Z by (apply Z.pow_pos_nonneg; lia).
    nia.
  - apply IH; [lia|].
    rewrite Nat2Z.inj_succ, Z.pow_succ_r in H2 by lia. lia.
Qed.

(** X1.  When the transport rejects every invocation, [uploadFile] with a
    budget of [numTries] invokes it [max 1 numTries] times, waits
    [backoffMS], [2 * backoffMS], ... between the attempts and nothing else,
    and rejects with the error of the last attempt.  This is for a first
    delay of at least one millisecond and a budget that keeps the doubled
    delays below [2^31]: every wait is then a delay the timer takes as
    given. *)
Theorem uploadFile_exhausts_budget (opts : Uploader.UploadOptions)
    (key body : string) (backoffMS : Z) (numTries : nat)
    (w : Uploader.World) (err : nat -> JsError) :
  let blob := {| Uploader.Key := key; Uploader.Body := body |} in
  let tries := Nat.max 1 numTries in
  (1 <= backoffMS)%Z ->
  (backoffMS * 2 ^ Z.of_nat (tries - 1) < 2 ^ 31)%Z ->
  (forall i, Uploader.upload opts (Uploader.calls w + i) blob = Err (err i)) ->
  Uploader.uploadFile opts key body backoffMS numTries w
  = (Rejected (err (tries - 1)),
     {| Uploader.calls := Uploader.calls w + tries;
        Uploader.events :=
          Uploader.events w ++ attempts blob backoffMS tries |})
  /\ Uploader.waits (attempts blob backoffMS tries)
     = backoffs backoffMS (tries - 1)
  /\ Forall timerDelay (backoffs backoffMS (tries - 1)).
Proof.
  intros blob tries Hlow Hhigh H. split; [|split].
  - destruct numTries as [|n].
    + rewrite uploadFile_zero_budget.
      now rewrite (uploadFile_all_fail_S opts key body 0 backoffMS w err).
    + unfold tries. replace (Nat.max 1 (S n)) with (S n) by lia.
      replace (S n - 1) with n by lia.
      now apply uploadFile_all_fail_S.
  - unfold tries. destruct (Nat.max 1 numTries) as [|k] eqn:E; [lia|].
    replace (S k - 1) with k by lia. apply waits_attempts.
  - now apply backoffs_timerDelay.
Qed.

(** Three tries from a delay of 250 against a transport that has already
    been invoked twice. *)
Lemma uploadFile_exhausts_budget_witness :
  let opts := {| Uploader.directory := ["out"];
                 Uploader.upload :=
                   Uploader.alwaysFails (fun _ => Thrown "ETIMEDOUT") |} in
  let w := {| Uploader.calls := 2; Uploader.events := [] |} in
  let blob := {| Uploader.Key := "a.json"; Uploader.Body := "{}" |} in
  Uploader.uploadFile opts "a.json" "{}" 250 3 w
  = (Rejected (Thrown "ETIMEDOUT"),
     {| Uploader.calls := 2 + 3;
        Uploader.events := [] ++ attempts blob 250 3 |})
  /\ Uploader.waits (attempts blob 250 3) = backoffs 250 2
  /\ Forall timerDelay (backoffs 250 2).
Proof.
  intros opts w blob.
  apply (uploadFile_exhausts_budget opts "a.json" "{}" 250 3 w
           (fun _ => Thrown "ETIMEDOUT")).
  - lia.
  - vm_compute. reflexivity.
  - intros i. reflexivity.
Defined.

(** X2.  Whatever the transport does, [uploadFile] invokes it at least
    once and at most [max 1 numTries] times, and only adds to the events. *)
Theorem uploadFile_within_budget (opts : Uploader.UploadOptions)
    (key body : string) (numTries : nat) :
  forall (backoffMS : Z) (w : Uploader.World),
    let after := snd (Uploader.uploadFile opts key body backoffMS numTries w) in
    Uploader.calls w < Uploader.calls after
    /\ Uploader.calls after <= Uploader.calls w + Nat.max 1 numTries
    /\ exists more, Uploader.events after = Uploader.events w ++ more.
Proof.
  induction numTries as [|n IH]; intros backoffMS w.
  - cbn [Uploader.uploadFile Uploader.invoke].
    destruct (Uploader.upload opts _ _); cbn; (split; [lia|split; [lia|eauto]]).
  - cbn [Uploader.uploadFile Uploader.invoke].
    destruct (Uploader.upload opts _ _) as [l|e];
      [cbn; split; [lia|split; [lia|eauto]]|].
    destruct (1 <? S n)%nat eqn:E;
      [|cbn; split; [lia|split; [lia|eauto]]].
    apply Nat.ltb_lt in E.
    specialize (IH (backoffMS * 2)%Z
                  (Uploader.setTimeout backoffMS
                     {| Uploader.calls := S (Uploader.calls w);
                        Uploader.events :=
                          Uploader.events w
                          ++ [Uploader.Invoked
                                {| Uploader.Key := key;
                                   Uploader.Body := body |}] |})).
    cbv zeta in IH. cbv zeta.
    destruct (Uploader.uploadFile opts key body (backoffMS * 2) n _)
      as [[l'|e'] w3]; cbn [snd fst] in *;
      unfold Uploader.setTimeout in IH; cbn [Uploader.calls Uploader.events] in IH;
      destruct IH as (H1 & H2 & more & H3);
      (split; [lia|split; [lia|]]);
      rewrite H3, <- !app_assoc; eauto.
Qed.

(** A run that fails [k + 1] times and then succeeds. *)
Lemma uploadFile_late_success_run (opts : Uploader.UploadOptions)
    (key body location : string) (k : nat) :
  forall (numTries : nat) (backoffMS : Z) (w : Uploader.World)
         (err : nat -> JsError),
    let blob := {| Uploader.Key := key; Uploader.Body := body |} in
    S k < numTries ->
    (forall i, i <= k ->
               Uploader.upload opts (Uploader.calls w + i) blob = Err (err i)) ->
    Uploader.upload opts (Uploader.calls w + S k) blob = Ok location ->
    Uploader.uploadFile opts key body backoffMS numTries w
    = (Rejected (err k),
       {| Uploader.calls := Uploader.calls w + S (S k);
          Uploader.events :=
            Uploader.events w ++ attempts blob backoffMS (S (S k)) |}).
Proof.
  induction k as [|k IH]; intros numTries backoffMS w err blob Hn Hfail Hok.
  - destruct numTries as [|[|n]]; [lia | lia |].
    rewrite (uploadFile_retry opts key body backoffMS n w (err 0)).
    + cbv zeta.
      rewrite (uploadFile_success opts key body _ _ _ location).
      * unfold Uploader.invoke, Uploader.setTimeout.
        cbn [snd Uploader.calls Uploader.events attempts]. fold blob.
        f_equal. f_equal; [lia|]. now rewrite <- !app_assoc.
      * unfold Uploader.invoke, Uploader.setTimeout. cbn [snd Uploader.calls].
        rewrite <- Hok. f_equal. lia.
    + rewrite <- (Hfail 0) by lia. now rewrite Nat.add_0_r.
  - destruct numTries as [|[|n]]; [lia | lia |].
    rewrite (uploadFile_retry opts key body backoffMS n w (err 0)).
    + cbv zeta.
      rewrite (IH (S n) (backoffMS * 2)%Z _ (fun i => err (S i))).
      * unfold Uploader.invoke, Uploader.setTimeout.
        cbn [snd Uploader.calls Uploader.events]. fold blob.
        f_equal. f_equal; [lia|].
        change (attempts blob backoffMS (S (S (S k))))
          with (Uploader.Invoked blob :: Uploader.Waited backoffMS
                  :: attempts blob (backoffMS * 2) (S (S k))).
        now rewrite <- !app_assoc.
      * lia.
      * intros i Hi. unfold Uploader.invoke, Uploader.setTimeout.
        cbn [snd Uploader.calls]. rewrite <- (Hfail (S i)) by lia.
        f_equal. lia.
      * unfold Uploader.invoke, Uploader.setTimeout. cbn [snd Uploader.calls].
        rewrite <- Hok. f_equal. lia.
    + rewrite <- (Hfail 0) by lia. now rewrite Nat.add_0_r.
Qed.

(** X3.  When the transport rejects its first [k + 1] invocations and then
    resolves one, within the budget: [uploadFile] stops invoking it after the
    success, having made [k + 2] invocations with the doubling waits between
    them, and rejects with the error of the attempt just before the
    success.  This is for a first delay of at least one millisecond and
    doubled delays below [2^31]: every wait is then a delay the timer takes
    as given. *)
Theorem uploadFile_late_success (opts : Uploader.UploadOptions)
    (key body location : string) (k numTries : nat) (backoffMS : Z)
    (w : Uploader.World) (err : nat -> JsError) :
  let blob := {| Uploader.Key := key; Uploader.Body := body |} in
  S k < numTries ->
  (1 <= backoffMS)%Z ->
  (backoffMS * 2 ^ Z.of_nat (S k) < 2 ^ 31)%Z ->
  (forall i, i <= k ->
             Uploader.upload opts (Uploader.calls w + i) blob = Err (err i)) ->
  Uploader.upload opts (Uploader.calls w + S k) blob = Ok location ->
  Uploader.uploadFile opts key body backoffMS numTries w
  = (Rejected (err k),
     {| Uploader.calls := Uploader.calls w + S (S k);
        Uploader.events :=
          Uploader.events w ++ attempts blob backoffMS (S (S k)) |})
  /\ Uploader.waits (attempts blob backoffMS (S (S k)))
     = backoffs backoffMS (S k)
  /\ Forall timerDelay (backoffs backoffMS (S k)).
Proof.
  intros blob Hn Hlow Hhigh Hfail Hok. split; [|split].
  - now apply (uploadFile_late_success_run opts key body location k).
  - apply waits_attempts.
  - now apply backoffs_timerDelay.
Qed.

(** Two failures, then a success, with a budget of four. *)
Lemma uploadFile_late_success_witness :
  let opts := {| Uploader.directory := ["out"];
                 Uploader.upload :=
                   Uploader.failsThenSucceeds 2
                     (fun n => Thrown (if Nat.eqb n 0 then "first" else "second"))
                     "s3://bucket/a.json" |} in
  let blob := {| Uploader.Key := "a.json"; Uploader.Body := "{}" |} in
  Uploader.uploadFile opts "a.json" "{}" 1000 4 Uploader.initial
  = (Rejected (Thrown "second"),
     {| Uploader.calls := 0 + 3;
        Uploader.events := [] ++ attempts blob 1000 3 |})
  /\ Uploader.waits (attempts blob 1000 3) = backoffs 1000 2
  /\ Forall timerDelay (backoffs 1000 2).
Proof.
  intros opts blob.
  apply (uploadFile_late_success opts "a.json" "{}" "s3://bucket/a.json" 1 4
           1000 Uploader.initial
           (fun n => Thrown (if Nat.eqb n 0 then "first" else "second"))).
  - lia.
  - lia.
  - vm_compute. reflexivity.
  - intros [|[|i]] Hi; [reflexivity | reflexivity | lia].
  - reflexivity.
Defined.

(** X4.  [uploadFile] resolves exactly when the first attempt succeeds,
    with the location of that attempt, one invocation and no wait: a retry
    never turns a failed first attempt into a resolved call. *)
Theorem uploadFile_resolves_iff_first_attempt
    (opts : Uploader.UploadOptions) (key body : string)
    (backoffMS : Z) (numTries : nat) (w : Uploader.World) (l : string) :
  let blob := {| Uploader.Key := key; Uploader.Body := body |} in
  (fst (Uploader.uploadFile opts key body backoffMS numTries w) = Resolved l
   <-> Uploader.upload opts (Uploader.calls w) blob = Ok l)
  /\ (Uploader.upload opts (Uploader.calls w) blob = Ok l ->
      snd (Uploader.uploadFile opts key body backoffMS numTries w)
      = {| Uploader.calls := S (Uploader.calls w);
           Uploader.events := Uploader.events w ++ [Uploader.Invoked blob] |}).
Proof.
  intros blob. split; [split|].
  - apply uploadFile_resolves_only_at_first_attempt.
  - intros H. now rewrite (uploadFile_success opts key body _ _ _ l H).
  - intros H. now rewrite (uploadFile_success opts key body _ _ _ l H).
Qed.

(** ** The directory walk *)

(** Induction on a tree of nodes, with the hypothesis for every entry of a
    directory. *)
Lemma Node_entries_ind (P : Node -> Prop) :
  (forall data, P (File data)) ->
  (forall entries, Forall (fun entry => P (snd entry)) entries ->
                   P (Dir entries)) ->
  forall n, P n.
Proof.
  intros HF HD. fix IH 1. intros [data|entries]; [apply HF|].
  apply HD. revert entries. fix IHes 1.
  intros [|[file child] rest]; constructor; [apply IH | apply IHes].
Qed.

Lemma get_In {A} (k : string) (o : obj A) (v : A) :
  get k o = Some v -> In (k, v) o.
Proof.
  induction o as [|[k' v'] o IH]; cbn; [discriminate|].
  destruct (String.eqb k k') eqn:E.
  - apply String.eqb_eq in E. intros [= ->]. subst. now left.
  - intros H. right. now apply IH.
Qed.

Section WalkFacts.

Import Uploader DirectoryUploader.

Variable opts : UploadOptions.

(** A walk that resolves has invoked the transport once for every file, in
    order, and has never waited. *)
Lemma uploadResource_resolved (resource : Node) :
  forall (key : string) (w : World),
    fst (uploadResource opts key resource w) = Resolved tt ->
    snd (uploadResource opts key resource w)
    = {| calls := calls w + List.length (blobsOf key resource);
         events := events w ++ map Invoked (blobsOf key resource) |}.
Proof.
  induction resource as [data|entries IH] using Node_entries_ind;
    intros key w H.
  - cbn [uploadResource blobsOf] in *.
    destruct (uploadFile opts key data default_backoffMS default_numTries w)
      as [[l|e] w'] eqn:E; cbn [awaited fst snd] in *; [|discriminate].
    assert (F : fst (uploadFile opts key data default_backoffMS
                       default_numTries w) = Resolved l) by now rewrite E.
    apply uploadFile_resolves_only_at_first_attempt in F.
    rewrite (uploadFile_success opts key data _ _ _ l F) in E.
    injection E as <-. unfold invoke. cbn [snd List.length map].
    now rewrite Nat.add_1_r.
  - cbn [uploadResource blobsOf] in *. revert w H.
    induction IH as [|[file child] rest Hchild _ IHrest]; intros w H.
    + cbn. now rewrite Nat.add_0_r, app_nil_r; destruct w.
    + cbn [forEntries flat_map fst snd] in *.
      destruct (uploadResource opts (keyJoin key file) child w)
        as [[[]|e] w'] eqn:E; [|cbn in H; discriminate].
      assert (Hw' : w' = snd (uploadResource opts (keyJoin key file) child w))
        by now rewrite E.
      rewrite (Hchild (keyJoin key file) w) in Hw' by now rewrite E.
      rewrite (IHrest w' H), Hw'. cbn [calls events].
      rewrite length_app, map_app, <- app_assoc. f_equal. lia.
Qed.

(** With a transport that resolves every invocation the walk resolves. *)
Lemma uploadResource_resolves (resource : Node) :
  (forall n blob, exists l, upload opts n blob = Ok l) ->
  forall (key : string) (w : World),
    fst (uploadResource opts key resource w) = Resolved tt.
Proof.
  intros Hok.
  induction resource as [data|entries IH] using Node_entries_ind;
    intros key w.
  - cbn [uploadResource].
    destruct (Hok (calls w) {| Key := key; Body := data |}) as [l Hl].
    now rewrite (uploadFile_success opts key data _ _ _ l Hl).
  - cbn [uploadResource]. revert w.
    induction IH as [|[file child] rest Hchild _ IHrest]; intros w;
      [reflexivity|].
    cbn [forEntries snd] in *.
    specialize (Hchild (keyJoin key file) w).
    destruct (uploadResource opts (keyJoin key file) child w) as [[[]|e] w'];
      cbn [fst] in Hchild; [apply IHrest | discriminate].
Qed.

End WalkFacts.

(** Every file below a resource is among its blobs, under the key the walk
    builds for its path. *)
Lemma blobsOf_lookup (p : Path) :
  forall (resource : Node) (key data : string),
    lookup p resource = Some (File data) ->
    In {| Uploader.Key := keyAt key p; Uploader.Body := data |}
       (blobsOf key resource).
Proof.
  induction p as [|seg rest IH]; intros resource key data H.
  - cbn in H. injection H as ->. now left.
  - destruct resource as [d|entries]; cbn [lookup] in H; [discriminate|].
    destruct (get seg entries) as [child|] eqn:G; [|discriminate].
    cbn [blobsOf]. apply in_flat_map. exists (seg, child).
    split; [now apply get_In|]. cbn [fst snd]. now apply IH.
Qed.

Lemma join_cons (sep a : string) (b : string) (r : list string) :
  JsString.join sep (a :: b :: r)
  = (a ++ sep ++ JsString.join sep (b :: r))%string.
Proof. reflexivity. Qed.

Lemma keyAt_from (p : Path) :
  forall key,
    key <> ""%string ->
    Forall (fun seg => seg <> ""%string) p ->
    keyAt key p = JsString.join "/" (key :: p).
Proof.
  induction p as [|a r IH]; intros key Hk Hp; [reflexivity|].
  inversion Hp as [|? ? Ha Hr]; subst.
  unfold keyAt in *. cbn [fold_left]. unfold DirectoryUploader.keyJoin at 2.
  destruct (String.eqb key "") eqn:E;
    [apply String.eqb_eq in E; contradiction|].
  rewrite IH; auto.
  - rewrite join_cons. destruct r as [|b r']; [reflexivity|].
    rewrite !join_cons. now rewrite !string_app_assoc.
  - destruct key; [contradiction | discriminate].
Qed.

(** The key of a path of non-empty segments below the top directory is the
    path with its segments joined by a slash. *)
Lemma keyAt_join (p : Path) :
  Forall (fun seg => seg <> ""%string) p ->
  keyAt "" p = JsString.join "/" p.
Proof.
  destruct p as [|a r]; intros Hp; [reflexivity|].
  inversion Hp as [|? ? Ha Hr]; subst.
  unfold keyAt. cbn [fold_left]. unfold DirectoryUploader.keyJoin at 2.
  cbn [String.eqb]. now apply keyAt_from.
Qed.

Lemma lookup_app (p q : Path) :
  forall (n m : Node),
    lookup p n = Some m -> lookup (p ++ q) n = lookup q m.
Proof.
  induction p as [|seg rest IH]; intros n m H.
  - cbn in H. now injection H as ->.
  - destruct n as [d|entries]; cbn [lookup app] in *; [discriminate|].
    destruct (get seg entries) as [child|]; [now apply IH | discriminate].
Qed.

(** X5.  [uploadDeployment] on an existing directory with a transport that
    resolves every invocation resolves, invokes the transport exactly once
    per file below the directory, in listing order and depth first, and
    never waits; the file at the relative path [p] is uploaded under the
    key [p] with its segments joined by a slash, with its contents as
    body. *)
Theorem uploadDeployment_uploads_every_file
    (directory : Path) (upload : nat -> Uploader.Blob -> Result string)
    (fs : FS) (w : Uploader.World) (entries : list (string * Node)) :
  let opts := {| DirectoryUploader.given_directory := Some directory;
                 DirectoryUploader.given_upload := Some upload |} in
  let run := DirectoryUploader.uploadDeployment opts fs w in
  lookup directory fs = Some (Dir entries) ->
  (forall n blob, exists l, upload n blob = Ok l) ->
  run = (Resolved tt,
         {| Uploader.calls :=
              Uploader.calls w + List.length (blobsOf "" (Dir entries));
            Uploader.events :=
              Uploader.events w
              ++ map Uploader.Invoked (blobsOf "" (Dir entries)) |})
  /\ forall (p : Path) (data : string),
       Forall (fun seg => seg <> ""%string) p ->
       lookup (directory ++ p) fs = Some (File data) ->
       In (Uploader.Invoked {| Uploader.Key := JsString.join "/" p;
                               Uploader.Body := data |})
          (Uploader.events (snd run)).
Proof.
  intros opts run Hdir Hok.
  assert (E : run = (Resolved tt,
         {| Uploader.calls :=
              Uploader.calls w + List.length (blobsOf "" (Dir entries));
            Uploader.events :=
              Uploader.events w
              ++ map Uploader.Invoked (blobsOf "" (Dir entries)) |})).
  { unfold run, DirectoryUploader.uploadDeployment, opts.
    cbn [DirectoryUploader.given_directory DirectoryUploader.given_upload].
    unfold existsSync. rewrite Hdir. cbn [negb].
    unfold DirectoryUploader.uploadDirectory. cbn [Uploader.directory].
    rewrite Hdir.
    set (o := {| Uploader.directory := directory; Uploader.upload := upload |}).
    pose proof (uploadResource_resolves o (Dir entries) Hok "" w) as R.
    pose proof (uploadResource_resolved o (Dir entries) "" w R) as S.
    destruct (DirectoryUploader.uploadResource o "" (Dir entries) w)
      as [r w']. cbn [fst snd] in *. now subst. }
  split; [exact E|].
  intros p data Hp Hfile. rewrite E. cbn [snd Uploader.events].
  apply in_or_app. right. apply in_map.
  rewrite <- (keyAt_join p Hp). apply blobsOf_lookup.
  now rewrite <- (lookup_app directory p fs (Dir entries) Hdir).
Qed.

(** X6.  Whatever the transport does, an [uploadDeployment] that resolves
    was given a directory and a transport, found a directory there, and
    invoked the transport exactly once per file in it without ever
    waiting: it made no retry. *)
Theorem uploadDeployment_resolved_without_retry
    (opts : DirectoryUploader.DeploymentOptions) (fs : FS)
    (w : Uploader.World) :
  fst (DirectoryUploader.uploadDeployment opts fs w) = Resolved tt ->
  exists directory upload entries,
    DirectoryUploader.given_directory opts = Some directory
    /\ DirectoryUploader.given_upload opts = Some upload
    /\ lookup directory fs = Some (Dir entries)
    /\ snd (DirectoryUploader.uploadDeployment opts fs w)
       = {| Uploader.calls :=
              Uploader.calls w + List.length (blobsOf "" (Dir entries));
            Uploader.events :=
              Uploader.events w
              ++ map Uploader.Invoked (blobsOf "" (Dir entries)) |}.
Proof.
  unfold DirectoryUploader.uploadDeployment.
  destruct (DirectoryUploader.given_directory opts) as [directory|];
    [|intros [=]].
  unfold existsSync.
  destruct (lookup directory fs) as [node|] eqn:L; cbn [negb]; [|intros [=]].
  destruct (DirectoryUploader.given_upload opts) as [upload|]; [|intros [=]].
  unfold DirectoryUploader.uploadDirectory. cbn [Uploader.directory].
  rewrite L. destruct node as [data|entries]; [intros [=]|].
  intros H. exists directory, upload, entries.
  split; [reflexivity|]. split; [reflexivity|]. split; [exact L|].
  now apply uploadResource_resolved.
Qed.

Lemma uploadDeployment_resolved_without_retry_witness :
  exists directory upload entries,
    Some ["home"; "project"; "stacks"] = Some directory
    /\ Some (fun (_ : nat) (blob : Uploader.Blob) =>
               Ok ("s3://" ++ Uploader.Key blob)%string) = Some upload
    /\ lookup directory SampleProject.mixedStacks = Some (Dir entries)
    /\ snd (DirectoryUploader.uploadDeployment
              {| DirectoryUploader.given_directory :=
                   Some ["home"; "project"; "stacks"];
                 DirectoryUploader.given_upload :=
                   Some (fun _ blob => Ok ("s3://" ++ Uploader.Key blob)%string) |}
              SampleProject.mixedStacks Uploader.initial)
       = {| Uploader.calls := 0 + List.length (blobsOf "" (Dir entries));
            Uploader.events :=
              [] ++ map Uploader.Invoked (blobsOf "" (Dir entries)) |}.
Proof.
  apply (uploadDeployment_resolved_without_retry
           {| DirectoryUploader.given_directory :=
                Some ["home"; "project"; "stacks"];
              DirectoryUploader.given_upload :=
                Some (fun _ blob => Ok ("s3://" ++ Uploader.Key blob)%string) |}
           SampleProject.mixedStacks Uploader.initial).
  reflexivity.
Defined.

(** The whole sample project uploaded: the keys are the relative paths. *)
Lemma uploadDeployment_uploads_every_file_witness :
  let upload := fun (_ : nat) (blob : Uploader.Blob) =>
                  Ok ("s3://" ++ Uploader.Key blob)%string in
  let run :=
    DirectoryUploader.uploadDeployment
      {| DirectoryUploader.given_directory := Some ["home"; "project"];
         DirectoryUploader.given_upload := Some upload |}
      SampleProject.mixedStacks Uploader.initial in
  map (fun event =>
         match event with
         | Uploader.Invoked blob => Uploader.Key blob
         | Uploader.Waited _ => ""%string
         end) (Uploader.events (snd run))
  = [ "resolvers/Query.getPost.req.vtl"; "schema.graphql";
      "stacks/audit.json"; "stacks/notes.txt"; "stacks/old.yaml" ]
  /\ In (Uploader.Invoked {| Uploader.Key := "stacks/notes.txt";
                             Uploader.Body := "to do" |})
        (Uploader.events (snd run)).
Proof.
  intros upload run. split; [reflexivity|].
  destruct (uploadDeployment_uploads_every_file ["home"; "project"] upload
              SampleProject.mixedStacks Uploader.initial
              [ ("resolvers", Dir [("Query.getPost.req.vtl", File "## mine")]);
                ("schema.graphql", File "type Post { id: ID! }");
                ("stacks",
                 Dir [ ("audit.json", File "{ }");
                       ("notes.txt", File "to do");
                       ("old.yaml", File "Resources:") ]) ])
    as [_ H].
  - reflexivity.
  - intros n blob. eexists. reflexivity.
  - apply (H ["stacks"; "notes.txt"] "to do").
    + repeat constructor; discriminate.
    + reflexivity.
Defined.

(** X7.  The checks of [uploadDeployment] come before any upload, in this
    order: a missing directory option, a directory that does not exist, a
    missing transport; each rejects with its own message and leaves the
    transport alone.  A path that exists but is a regular file passes the
    checks, and the walk then rejects with [ENOTDIR], again without an
    upload. *)
Theorem uploadDeployment_checks_before_upload
    (opts : DirectoryUploader.DeploymentOptions) (fs : FS)
    (w : Uploader.World) :
  let run := DirectoryUploader.uploadDeployment opts fs w in
  (DirectoryUploader.given_directory opts = None ->
   run = (Rejected (Error DirectoryUploader.missingDirectoryMessage), w))
  /\ (forall directory,
        DirectoryUploader.given_directory opts = Some directory ->
        lookup directory fs = None ->
        run = (Rejected (Error (DirectoryUploader.invalidDirectoryMessage
                                  directory)), w))
  /\ (forall directory node,
        DirectoryUploader.given_directory opts = Some directory ->
        lookup directory fs = Some node ->
        DirectoryUploader.given_upload opts = None ->
        run = (Rejected (Error DirectoryUploader.missingUploadMessage), w))
  /\ (forall directory data upload,
        DirectoryUploader.given_directory opts = Some directory ->
        lookup directory fs = Some (File data) ->
        DirectoryUploader.given_upload opts = Some upload ->
        run = (Rejected (ENOTDIR directory), w)).
Proof.
  intros run. unfold run, DirectoryUploader.uploadDeployment, existsSync.
  repeat split.
  - now intros ->.
  - now intros directory -> ->.
  - now intros directory node -> -> ->.
  - intros directory data upload Hd Hl ->. rewrite Hd, Hl. cbn [negb].
    unfold DirectoryUploader.uploadDirectory. cbn [Uploader.directory].
    now rewrite Hl.
Qed.

(** ** Splitting and joining *)

Lemma rev_string_app (s : string) :
  forall acc, JsString.rev_string acc s
              = (JsString.rev_string "" s ++ acc)%string.
Proof.
  induction s as [|c s IH]; intros acc; [reflexivity|].
  cbn [JsString.rev_string]. rewrite IH, (IH (String c "")).
  now rewrite string_app_assoc.
Qed.

Lemma rev_string_cons (c : ascii) (acc : string) :
  JsString.rev_string "" (String c acc)
  = (JsString.rev_string "" acc ++ String c "")%string.
Proof. cbn [JsString.rev_string]. apply rev_string_app. Qed.

Lemma split_aux_cons (sep : ascii -> bool) (s : string) :
  forall acc, exists first rest, JsString.split_aux sep acc s = first :: rest.
Proof.
  induction s as [|c s IH]; intros acc; cbn [JsString.split_aux]; eauto.
  destruct (sep c); eauto.
Qed.

(** Joining the pieces of a split with the separator gives the string
    back. *)
Lemma join_split_aux_dot (s : string) :
  forall acc,
    JsString.join "." (JsString.split_aux JsString.isDot acc s)
    = (JsString.rev_string "" acc ++ s)%string.
Proof.
  induction s as [|c s IH]; intros acc; cbn [JsString.split_aux].
  - cbn [JsString.join]. now rewrite string_app_nil.
  - destruct (JsString.isDot c) eqn:E.
    + apply Ascii.eqb_eq in E. subst c.
      destruct (split_aux_cons JsString.isDot s "") as (f & r & Hs).
      pose proof (IH ""%string) as H. rewrite Hs in *.
      rewrite join_cons, H. reflexivity.
    + rewrite IH, rev_string_cons. now rewrite string_app_assoc.
Qed.

(** Joining the pieces with the empty string keeps the characters that are
    not separators. *)
Lemma join_split_aux_strip (sep : ascii -> bool) (s : string) :
  forall acc,
    JsString.join "" (JsString.split_aux sep acc s)
    = (JsString.rev_string "" acc
       ++ keepChars (fun c => negb (sep c)) s)%string.
Proof.
  induction s as [|c s IH]; intros acc; cbn [JsString.split_aux keepChars].
  - cbn [JsString.join]. now rewrite string_app_nil.
  - destruct (sep c) eqn:E; cbn [negb].
    + destruct (split_aux_cons sep s "") as (f & r & Hs).
      pose proof (IH ""%string) as H. rewrite Hs in *.
      rewrite join_cons, H. reflexivity.
    + rewrite IH, rev_string_cons. now rewrite string_app_assoc.
Qed.

Lemma split_aux_no_separator (sep : ascii -> bool) (s : string) :
  forall acc,
    someChar sep s = false ->
    JsString.split_aux sep acc s = [(JsString.rev_string "" acc ++ s)%string].
Proof.
  induction s as [|c s IH]; intros acc H; cbn [JsString.split_aux].
  - now rewrite string_app_nil.
  - cbn [someChar] in H. apply orb_false_iff in H as [Hc Hs]. rewrite Hc.
    rewrite (IH _ Hs), rev_string_cons. now rewrite string_app_assoc.
Qed.

Lemma split_aux_separator (sep : ascii -> bool) (s : string) :
  forall acc,
    someChar sep s = true ->
    exists a b rest, JsString.split_aux sep acc s = a :: b :: rest.
Proof.
  induction s as [|c s IH]; intros acc H; cbn [JsString.split_aux someChar] in *;
    [discriminate|].
  destruct (sep c).
  - destruct (split_aux_cons sep s "") as (f & r & ->). eauto.
  - now apply IH.
Qed.

(** The last piece of a string that ends with a separator and a tail is the
    last piece of the tail. *)
Lemma last_split_aux_app (sep : ascii -> bool) (c : ascii) (t : string) :
  sep c = true ->
  forall (s acc : string) (d : string),
    last (JsString.split_aux sep acc (s ++ String c t)) d
    = last (JsString.split_aux sep "" t) d.
Proof.
  intros Hc. induction s as [|x s IH]; intros acc d;
    cbn [String.append JsString.split_aux].
  - rewrite Hc.
    destruct (split_aux_cons sep t "") as (f & r & ->). reflexivity.
  - destruct (sep x); [|apply IH].
    destruct (split_aux_cons sep (s ++ String c t) "") as (f & r & E).
    rewrite <- (IH ""%string d), E. reflexivity.
Qed.

Lemma join_app_last (sep x : string) (init : list string) :
  init <> [] ->
  JsString.join sep (init ++ [x])
  = (JsString.join sep init ++ sep ++ x)%string.
Proof.
  induction init as [|a r IH]; intros H; [contradiction|].
  destruct r as [|b r']; [reflexivity|].
  change ((a :: b :: r') ++ [x]) with (a :: (b :: r') ++ [x]).
  cbn [app]. rewrite !join_cons. cbn [app] in IH.
  rewrite IH by discriminate. now rewrite !string_app_assoc.
Qed.

(** [s.split('.').join('.')] is [s]: splitting a file name at its dots
    loses nothing. *)
Theorem split_join_dot (s : string) :
  JsString.join "." (JsString.split JsString.isDot s) = s.
Proof. unfold JsString.split. now rewrite join_split_aux_dot. Qed.

(** X8.  The resource id of a stack name is the name with every character
    outside [A-Za-z] dropped: it is purely alphabetic, and a purely
    alphabetic name is its own id. *)
Theorem stackResourceId_alphabetic (userStack : string) :
  Merger.stackResourceId userStack = keepChars JsString.isAlpha userStack
  /\ allChars JsString.isAlpha (Merger.stackResourceId userStack) = true
  /\ (allChars JsString.isAlpha userStack = true ->
      Merger.stackResourceId userStack = userStack).
Proof.
  assert (E : Merger.stackResourceId userStack
              = keepChars JsString.isAlpha userStack).
  { unfold Merger.stackResourceId, JsString.split.
    rewrite join_split_aux_strip. cbn [JsString.rev_string String.append].
    induction userStack as [|c s IH]; cbn [keepChars]; [reflexivity|].
    rewrite negb_involutive. now rewrite IH. }
  rewrite E. clear E. repeat split.
  - induction userStack as [|c s IH]; cbn [keepChars allChars]; [reflexivity|].
    destruct (JsString.isAlpha c) eqn:A; [|exact IH].
    cbn [allChars]. now rewrite A.
  - induction userStack as [|c s IH]; cbn [keepChars allChars];
      [reflexivity|].
    intros H. apply andb_true_iff in H as [-> Hs]. now rewrite IH.
Qed.

(** ** Extensions *)

Lemma throwIfNotJSON_ok (stackFile : string) :
  throwIfNotJSON stackFile = Ok tt <-> extensionOf stackFile = "json"%string.
Proof.
  split; [|apply throwIfNotJSON_json].
  unfold throwIfNotJSON.
  destruct (String.eqb (extensionOf stackFile) "yaml"
            || String.eqb (extensionOf stackFile) "yml"); [discriminate|].
  destruct (String.eqb (extensionOf stackFile) "json") eqn:E;
    [intros _; now apply String.eqb_eq | discriminate].
Qed.

(** X9.  The extension the code looks at is what follows the last dot,
    and the whole name when there is no dot. *)
Theorem extensionOf_after_last_dot (base ext : string) :
  someChar JsString.isDot ext = false ->
  extensionOf (base ++ "." ++ ext) = ext
  /\ extensionOf ext = ext.
Proof.
  intros H. unfold extensionOf, JsString.split. split.
  - change ("." ++ ext)%string with (String "." ext).
    rewrite (last_split_aux_app JsString.isDot "." ext eq_refl).
    now rewrite (split_aux_no_separator _ _ _ H).
  - now rewrite (split_aux_no_separator _ _ _ H).
Qed.

Lemma extensionOf_after_last_dot_witness :
  extensionOf ("backup.2019.search" ++ "." ++ "yml") = "yml"%string
  /\ extensionOf "yml" = "yml"%string.
Proof.
  apply (extensionOf_after_last_dot "backup.2019.search" "yml").
  reflexivity.
Defined.

Lemma extensionOf_dot_json (base : string) :
  extensionOf (base ++ ".json") = "json"%string.
Proof.
  unfold extensionOf, JsString.split.
  change (".json")%string with (String "." "json").
  now rewrite (last_split_aux_app JsString.isDot "." "json" eq_refl).
Qed.

Lemma throwIfNotJSON_ok_name (stackFile : string) :
  throwIfNotJSON stackFile = Ok tt ->
  stackFile = "json"%string
  \/ exists base, stackFile = (base ++ ".json")%string.
Proof.
  rewrite throwIfNotJSON_ok. intros H. unfold extensionOf in H.
  pose proof (join_split_aux_dot stackFile ""%string) as J.
  cbn [JsString.rev_string String.append] in J.
  destruct (split_aux_cons JsString.isDot stackFile "") as (f & r & E).
  unfold JsString.split in *. rewrite E in *.
  assert (N : f :: r <> []) by discriminate.
  rewrite (app_removelast_last ""%string N) in J. rewrite H in J.
  destruct (removelast (f :: r)) as [|a init] eqn:R.
  - left. now rewrite <- J.
  - right. exists (JsString.join "." (a :: init)).
    rewrite <- J. now rewrite join_app_last by discriminate.
Qed.

(** X10.  [throwIfNotJSON] lets a name through exactly when the name is
    [json] or ends in [.json]; the test is on the exact, lower-case
    spelling. *)
Theorem throwIfNotJSON_accepts_iff (stackFile : string) :
  throwIfNotJSON stackFile = Ok tt
  <-> stackFile = "json"%string
      \/ exists base, stackFile = (base ++ ".json")%string.
Proof.
  split; [apply throwIfNotJSON_ok_name|].
  intros [-> | [base ->]]; [reflexivity|].
  apply throwIfNotJSON_ok, extensionOf_dot_json.
Qed.

Lemma fullFileNameOf_cases (stackFileName : string) :
  Writer.fullFileNameOf stackFileName
  = (if someChar JsString.isDot stackFileName then stackFileName
     else stackFileName ++ ".json")%string.
Proof.
  unfold Writer.fullFileNameOf.
  destruct (someChar JsString.isDot stackFileName) eqn:D.
  - pose proof (join_split_aux_dot stackFileName ""%string) as J.
    cbn [JsString.rev_string String.append] in J.
    unfold JsString.split in *.
    destruct (split_aux_separator _ _ ""%string D) as (a & b & r & S).
    rewrite S in *. exact J.
  - unfold JsString.split.
    rewrite (split_aux_no_separator _ _ _ D). reflexivity.
Qed.

(** X11.  The name a stack is written under: a name with a dot is kept, a
    name without one gets [.json] appended and then always passes the
    extension check, while a name with a dot has to pass it as it is. *)
Theorem fullFileNameOf_default_extension (stackFileName : string) :
  Writer.fullFileNameOf stackFileName
  = (if someChar JsString.isDot stackFileName then stackFileName
     else stackFileName ++ ".json")%string
  /\ throwIfNotJSON (Writer.fullFileNameOf stackFileName)
     = (if someChar JsString.isDot stackFileName
        then throwIfNotJSON stackFileName
        else Ok tt).
Proof.
  split; [apply fullFileNameOf_cases|]. rewrite fullFileNameOf_cases.
  destruct (someChar JsString.isDot stackFileName); [reflexivity|].
  apply throwIfNotJSON_ok, extensionOf_dot_json.
Qed.

(** ** More on the merger *)

Section MergeLoopFacts.

Import Merger.

Variable rc : ResourceConstants.
Variable userStacks : obj Template.
Variable ids : list string.
Variable params : obj Value.

Let loop := mergeStacks rc userStacks ids params.

(** The stacks after a loop that returns: the user's template under every
    name the loop went through, what was there under any other. *)
Lemma mergeStacks_stacks_get (names : list string) :
  forall st st' k,
    loop names st = (Ok tt, st') ->
    get k (transformStacks st')
    = if existsb (String.eqb k) names then get k userStacks
      else get k (transformStacks st).
Proof.
  induction names as [|userStack rest IH]; intros st st' k H.
  - cbn in H. now injection H as <-.
  - apply mergeStacks_step in H.
    destruct H as (template & declared & _ & Hget & _ & H).
    rewrite (IH _ _ k H). cbn [transformStacks existsb].
    rewrite get_set.
    destruct (String.eqb k userStack) eqn:E; cbn [orb]; [|reflexivity].
    apply String.eqb_eq in E. subst k. rewrite Hget.
    now destruct (existsb _ rest).
Qed.

(** The resources after a loop that returns: an id that no stack of the
    loop maps to holds what it held. *)
Lemma mergeStacks_resources_get (names : list string) :
  forall st st' id,
    loop names st = (Ok tt, st') ->
    (forall name, In name names -> stackResourceId name <> id) ->
    get id (rootResources st') = get id (rootResources st).
Proof.
  induction names as [|userStack rest IH]; intros st st' id H Hid.
  - cbn in H. now injection H as <-.
  - apply mergeStacks_step in H.
    destruct H as (template & declared & _ & _ & _ & H).
    rewrite (IH _ _ id H) by (intros name Hn; apply Hid; now right).
    cbn [rootResources]. apply get_set_other. apply Hid. now left.
Qed.

(** No resource id is lost in the loop. *)
Lemma mergeStacks_keeps_resources (names : list string) :
  forall st st' id,
    loop names st = (Ok tt, st') ->
    has id (rootResources st) = true ->
    has id (rootResources st') = true.
Proof.
  induction names as [|userStack rest IH]; intros st st' id H Hid.
  - cbn in H. now injection H as <-.
  - apply mergeStacks_step in H.
    destruct H as (template & declared & _ & _ & _ & H).
    apply (IH _ _ id H). cbn [rootResources].
    rewrite has_set, Hid. apply orb_true_r.
Qed.

(** What a loop that returns has met: no name in use, and a [Parameters]
    section in every stack. *)
Lemma mergeStacks_returns_only_if (names : list string) :
  forall st st',
    loop names st = (Ok tt, st') ->
    forall name, In name names ->
      has name (transformStacks st) = false
      /\ declaresParameters userStacks name.
Proof.
  induction names as [|userStack rest IH]; intros st st' H name Hin;
    [destruct Hin|].
  apply mergeStacks_step in H.
  destruct H as (template & declared & Hhas & Hget & Hpar & H).
  destruct Hin as [<- | Hin].
  - split; [exact Hhas|]. now exists template, declared.
  - destruct (IH _ _ H name Hin) as [Hn Hd]. split; [|exact Hd].
    cbn [transformStacks] in Hn. rewrite has_set in Hn.
    now apply orb_false_iff in Hn.
Qed.

(** And that is enough for it to return, the names being distinct. *)
Lemma mergeStacks_returns_if (names : list string) :
  NoDup names ->
  forall st,
    (forall name, In name names ->
       has name (transformStacks st) = false
       /\ declaresParameters userStacks name) ->
    exists st', loop names st = (Ok tt, st').
Proof.
  induction 1 as [|userStack rest Hnotin Hnd IH]; intros st H.
  - now exists st.
  - destruct (H userStack (or_introl eq_refl))
      as (Hhas & template & declared & Hget & Hpar).
    unfold loop in *. cbn [mergeStacks]. rewrite Hhas, Hget, Hpar.
    cbn [keysOf]. apply IH. intros name Hin. cbn [transformStacks].
    destruct (H name (or_intror Hin)) as [Hn Hd]. split; [|exact Hd].
    rewrite has_set, Hn.
    destruct (String.eqb name userStack) eqn:E; [|reflexivity].
    apply String.eqb_eq in E. now subst.
Qed.

End MergeLoopFacts.

Lemma get_none_existsb {A} (k : string) (o : obj A) :
  get k o = None <-> existsb (String.eqb k) (keys o) = false.
Proof.
  rewrite <- has_existsb. unfold has. destruct (get k o); split;
    congruence.
Qed.

(** X12.  User resolvers win, the other resolvers of the transform output
    are kept: in the merged bundle a resolver name holds the user's document
    when the user bundle has one under that name, and the transform
    engine's otherwise.  The resolvers are overridden before anything can
    throw, so the same holds of the transform output a failed merge leaves
    behind. *)
Theorem merge_user_resolvers_win (rc : ResourceConstants)
    (userConfig : PartialDeploymentResources)
    (transformOutput : DeploymentResources) (k : string) :
  let userResolvers := Merger.orEmpty (user_resolvers userConfig) in
  let run :=
    Merger.mergeUserConfigWithTransformOutput rc userConfig transformOutput in
  let expected :=
    match get k userResolvers with
    | Some document => Some document
    | None => get k (resolvers transformOutput)
    end in
  get k (resolvers (snd run)) = expected
  /\ (forall merged, fst run = Ok merged ->
                     get k (resolvers merged) = expected).
Proof.
  intros userResolvers run expected.
  assert (R : forall o, get k (Merger.overrideResolvers userResolvers o)
                        = match get k userResolvers with
                          | Some document => Some document
                          | None => get k o
                          end).
  { intros o. unfold Merger.overrideResolvers.
    rewrite overrideResolvers_get.
    destruct (existsb (String.eqb k) (keys userResolvers)) eqn:E;
      [reflexivity|].
    apply get_none_existsb in E. now rewrite E. }
  assert (S : resolvers (snd run)
              = Merger.overrideResolvers userResolvers
                  (resolvers transformOutput)).
  { unfold run, Merger.mergeUserConfigWithTransformOutput.
    destruct (Resources (rootStack transformOutput)); [|reflexivity].
    destruct (Merger.keysOf (Parameters (rootStack transformOutput)));
      [|reflexivity].
    now destruct (Merger.mergeStacks _ _ _ _ _ _) as [[[]|e] st]. }
  split.
  - rewrite S. apply R.
  - intros merged H. unfold expected. rewrite <- R, <- S. f_equal. f_equal.
    unfold run in *.
    destruct (Merger.mergeUserConfigWithTransformOutput rc userConfig
                transformOutput) as [result left] eqn:E.
    cbn [fst snd] in *. subst result.
    now destruct (merge_returns rc _ _ _ _ E) as (? & ? & ? & _ & _ & _ & _ & ->).
Qed.

Lemma merge_returns_fst (rc : ResourceConstants)
    (userConfig : PartialDeploymentResources)
    (transformOutput merged : DeploymentResources) :
  fst (Merger.mergeUserConfigWithTransformOutput rc userConfig transformOutput)
    = Ok merged ->
  exists resources rootParameters st,
    Resources (rootStack transformOutput) = Some resources
    /\ Parameters (rootStack transformOutput) = Some rootParameters
    /\ Merger.mergeStacks rc (Merger.orEmpty (user_stacks userConfig))
         (Merger.allResourceIds resources)
         (Merger.customStackParams rc (keys rootParameters))
         (keys (Merger.orEmpty (user_stacks userConfig)))
         {| Merger.transformStacks := stacks transformOutput;
            Merger.rootResources := resources |} = (Ok tt, st)
    /\ merged = Merger.mutated transformOutput
                  (Merger.overrideResolvers
                     (Merger.orEmpty (user_resolvers userConfig))
                     (resolvers transformOutput)) st.
Proof.
  intros H.
  destruct (Merger.mergeUserConfigWithTransformOutput rc userConfig
              transformOutput) as [result left] eqn:E.
  cbn [fst] in H. subst result.
  destruct (merge_returns rc _ _ _ _ E)
    as (resources & rootParameters & st & H1 & H2 & H3 & H4 & _).
  exists resources, rootParameters, st. auto.
Qed.

(** X13.  In the merged bundle every user stack is stored verbatim under
    its own name, and every stack of the transform engine is still there,
    unchanged: a merge that returns adds stacks and replaces none. *)
Theorem merge_keeps_every_stack (rc : ResourceConstants)
    (userConfig : PartialDeploymentResources)
    (transformOutput merged : DeploymentResources) :
  let userStacks := Merger.orEmpty (user_stacks userConfig) in
  fst (Merger.mergeUserConfigWithTransformOutput rc userConfig transformOutput)
    = Ok merged ->
  (forall name template,
     get name userStacks = Some template ->
     get name (stacks merged) = Some template)
  /\ (forall name template,
        get name (stacks transformOutput) = Some template ->
        get name (stacks merged) = Some template
        /\ get name userStacks = None)
  /\ (forall name,
        get name userStacks = None ->
        get name (stacks merged) = get name (stacks transformOutput)).
Proof.
  intros userStacks H.
  destruct (merge_returns_fst rc _ _ _ H)
    as (resources & rootParameters & st & _ & _ & Hloop & ->).
  fold userStacks in Hloop.
  pose proof (fun k => mergeStacks_stacks_get rc userStacks _ _ _ _ _ k Hloop)
    as G.
  cbn [Merger.transformStacks] in G. cbn [Merger.mutated stacks].
  assert (U : forall name template,
            get name userStacks = Some template ->
            get name (Merger.transformStacks st) = Some template).
  { intros name template Hu. rewrite G.
    destruct (existsb _ _) eqn:E; [exact Hu|].
    apply get_none_existsb in E. congruence. }
  assert (N : forall name,
            get name userStacks = None ->
            get name (Merger.transformStacks st)
            = get name (stacks transformOutput)).
  { intros name Hn. rewrite G.
    apply get_none_existsb in Hn. now rewrite Hn. }
  split; [exact U|]. split; [|exact N].
  intros name template Ht.
  destruct (get name userStacks) as [mine|] eqn:Hu.
  - exfalso.
    assert (Hin : In name (keys userStacks)) by (apply get_keys; eauto).
    destruct (mergeStacks_returns_only_if rc userStacks _ _ _ _ _ Hloop
                name Hin) as [Hhas _].
    cbn [Merger.transformStacks] in Hhas. unfold has in Hhas.
    now rewrite Ht in Hhas.
  - split; [|reflexivity]. now rewrite N.
Qed.

Lemma merge_keeps_every_stack_witness :
  (forall name template,
     get name (Merger.orEmpty (user_stacks Sample.userConfig)) = Some template ->
     get name (stacks Sample.merged) = Some template)
  /\ (forall name template,
        get name (stacks Sample.transformOutput) = Some template ->
        get name (stacks Sample.merged) = Some template
        /\ get name (Merger.orEmpty (user_stacks Sample.userConfig)) = None)
  /\ (forall name,
        get name (Merger.orEmpty (user_stacks Sample.userConfig)) = None ->
        get name (stacks Sample.merged)
        = get name (stacks Sample.transformOutput)).
Proof.
  apply (merge_keeps_every_stack Sample.rc Sample.userConfig
           Sample.transformOutput Sample.merged).
  vm_compute. reflexivity.
Defined.

(** X14.  A merge that returns leaves the schema, the functions and the
    parameters of the root stack as they were, loses no resource id of the
    root stack, and changes a resource only under an id that some user stack
    name maps to. *)
Theorem merge_touches_only_custom_ids (rc : ResourceConstants)
    (userConfig : PartialDeploymentResources)
    (transformOutput merged : DeploymentResources) :
  let userStacks := Merger.orEmpty (user_stacks userConfig) in
  fst (Merger.mergeUserConfigWithTransformOutput rc userConfig transformOutput)
    = Ok merged ->
  schema merged = schema transformOutput
  /\ functions merged = functions transformOutput
  /\ Parameters (rootStack merged) = Parameters (rootStack transformOutput)
  /\ exists before after,
       Resources (rootStack transformOutput) = Some before
       /\ Resources (rootStack merged) = Some after
       /\ (forall id, In id (keys before) -> In id (keys after))
       /\ (forall id,
             (forall name, In name (keys userStacks) ->
                           Merger.stackResourceId name <> id) ->
             get id after = get id before).
Proof.
  intros userStacks H.
  destruct (merge_returns_fst rc _ _ _ H)
    as (resources & rootParameters & st & Hres & _ & Hloop & ->).
  fold userStacks in Hloop. cbn [Merger.mutated schema functions rootStack
                                 Parameters Resources].
  repeat split. exists resources, (Merger.rootResources st).
  repeat split; auto.
  - intros id Hid. apply has_true.
    apply (mergeStacks_keeps_resources rc userStacks _ _ _ _ _ id Hloop).
    now apply has_true.
  - intros id Hid.
    now rewrite (mergeStacks_resources_get rc userStacks _ _ _ _ _ id Hloop Hid).
Qed.

Lemma merge_touches_only_custom_ids_witness :
  schema Sample.merged = schema Sample.transformOutput
  /\ functions Sample.merged = functions Sample.transformOutput
  /\ Parameters (rootStack Sample.merged)
     = Parameters (rootStack Sample.transformOutput)
  /\ exists before after,
       Resources (rootStack Sample.transformOutput) = Some before
       /\ Resources (rootStack Sample.merged) = Some after
       /\ (forall id, In id (keys before) -> In id (keys after))
       /\ (forall id,
             (forall name,
                In name (keys (Merger.orEmpty (user_stacks Sample.userConfig))) ->
                Merger.stackResourceId name <> id) ->
             get id after = get id before).
Proof.
  apply (merge_touches_only_custom_ids Sample.rc Sample.userConfig
           Sample.transformOutput Sample.merged).
  vm_compute. reflexivity.
Defined.

(** X15.  Merging a user bundle without resolvers and without stacks into a
    transform output whose root stack has both sections returns the
    transform output as it is. *)
Theorem merge_of_nothing (rc : ResourceConstants)
    (userConfig : PartialDeploymentResources)
    (transformOutput : DeploymentResources) :
  Merger.orEmpty (user_resolvers userConfig) = [] ->
  Merger.orEmpty (user_stacks userConfig) = [] ->
  Resources (rootStack transformOutput) <> None ->
  Parameters (rootStack transformOutput) <> None ->
  Merger.mergeUserConfigWithTransformOutput rc userConfig transformOutput
  = (Ok transformOutput, transformOutput).
Proof.
  intros Hr Hs Hres Hpar.
  unfold Merger.mergeUserConfigWithTransformOutput. rewrite Hr, Hs.
  destruct transformOutput as [sch res stk [ps rs] fns].
  cbn [rootStack Resources Parameters resolvers stacks schema functions] in *.
  destruct rs as [resources|]; [|contradiction].
  destruct ps as [rootParameters|]; [|contradiction].
  reflexivity.
Qed.

Lemma merge_of_nothing_witness :
  Merger.mergeUserConfigWithTransformOutput Sample.rc
    {| user_schema := Some "type Post { id: ID! }";
       user_resolvers := None;
       user_stacks := Some [];
       user_rootStack := None;
       user_functions := None |}
    Sample.transformOutput
  = (Ok Sample.transformOutput, Sample.transformOutput).
Proof.
  apply merge_of_nothing; try reflexivity; discriminate.
Defined.

(** X16.  When the merge returns.  For a user bundle whose stack names are
    distinct and no members of [Object.prototype], the merge returns a
    bundle exactly when the root stack has
    its [Resources] and [Parameters] sections, no user stack carries a name
    the transform output already uses, and every user stack declares a
    [Parameters] section; in every other case it throws. *)
Theorem merge_returns_iff (rc : ResourceConstants)
    (userConfig : PartialDeploymentResources)
    (transformOutput : DeploymentResources) :
  let userStacks := Merger.orEmpty (user_stacks userConfig) in
  NoDup (keys userStacks) ->
  Merger.ownNames (keys userStacks) = true ->
  (exists merged,
     fst (Merger.mergeUserConfigWithTransformOutput rc userConfig
            transformOutput) = Ok merged)
  <-> (Resources (rootStack transformOutput) <> None
       /\ Parameters (rootStack transformOutput) <> None
       /\ forall name, In name (keys userStacks) ->
            has name (stacks transformOutput) = false
            /\ declaresParameters userStacks name).
Proof.
  intros userStacks Hnd _. split.
  - intros [merged H].
    destruct (merge_returns_fst rc _ _ _ H)
      as (resources & rootParameters & st & Hres & Hpar & Hloop & _).
    fold userStacks in Hloop.
    split; [congruence|]. split; [congruence|].
    intros name Hin.
    apply (mergeStacks_returns_only_if rc userStacks _ _ _ _ _ Hloop name Hin).
  - intros (Hres & Hpar & Hall).
    unfold Merger.mergeUserConfigWithTransformOutput.
    destruct (Resources (rootStack transformOutput)) as [resources|];
      [|contradiction].
    destruct (Parameters (rootStack transformOutput)) as [rootParameters|];
      [|contradiction].
    cbn [Merger.keysOf]. fold userStacks.
    destruct (mergeStacks_returns_if rc userStacks
                (Merger.allResourceIds resources)
                (Merger.customStackParams rc (keys rootParameters))
                (keys userStacks) Hnd
                {| Merger.transformStacks := stacks transformOutput;
                   Merger.rootResources := resources |} Hall) as [st' ->].
    cbn [fst]. eauto.
Qed.

Lemma merge_returns_iff_witness :
  (exists merged,
     fst (Merger.mergeUserConfigWithTransformOutput Sample.rc
            Sample.userConfig Sample.transformOutput) = Ok merged)
  <-> (Resources (rootStack Sample.transformOutput) <> None
       /\ Parameters (rootStack Sample.transformOutput) <> None
       /\ forall name,
            In name (keys (Merger.orEmpty (user_stacks Sample.userConfig))) ->
            has name (stacks Sample.transformOutput) = false
            /\ declaresParameters
                 (Merger.orEmpty (user_stacks Sample.userConfig)) name).
Proof.
  apply (merge_returns_iff Sample.rc Sample.userConfig Sample.transformOutput).
  - cbn. repeat constructor; cbn; intuition discriminate.
  - reflexivity.
Defined.

(** X26.  The merge consumes the transform output.  A merge that returns
    leaves the transform output holding the merged contents.  For a user
    bundle whose stack names are no members of [Object.prototype], merging
    that same transform output a second time returns the same bundle again
    when the user bundle has no stacks, and throws the duplicate-stack-name
    error of the first user stack when it has any. *)
Theorem merge_consumes_transform_output (rc : ResourceConstants)
    (userConfig : PartialDeploymentResources)
    (transformOutput merged : DeploymentResources) :
  let userStacks := Merger.orEmpty (user_stacks userConfig) in
  Merger.ownNames (keys userStacks) = true ->
  fst (Merger.mergeUserConfigWithTransformOutput rc userConfig transformOutput)
    = Ok merged ->
  snd (Merger.mergeUserConfigWithTransformOutput rc userConfig transformOutput)
    = merged
  /\ (keys userStacks = [] ->
      Merger.mergeTwice rc userConfig transformOutput = (Ok merged, Ok merged))
  /\ (forall name rest,
        keys userStacks = name :: rest ->
        Merger.mergeTwice rc userConfig transformOutput
        = (Ok merged, Err (Error (Merger.duplicateStackMessage name)))).
Proof.
  intros userStacks _ H.
  destruct (Merger.mergeUserConfigWithTransformOutput rc userConfig
              transformOutput) as [result left] eqn:E.
  cbn [fst] in H. subst result.
  pose proof (merge_returns rc _ _ _ _ E)
    as (resources & rootParameters & st & Hres & Hpar & Hloop & Hm & Hleft).
  fold userStacks in Hloop. subst left.
  split; [reflexivity|].
  unfold Merger.mergeTwice. rewrite E.
  split.
  - intros Hnil. f_equal. rewrite Hnil in Hloop. cbn in Hloop.
    injection Hloop as <-.
    unfold Merger.mergeUserConfigWithTransformOutput.
    fold userStacks. rewrite Hnil, Hm.
    cbn [rootStack Resources Parameters Merger.mutated Merger.rootResources
         Merger.transformStacks Merger.mergeStacks resolvers stacks schema
         functions fst].
    rewrite Hpar. cbn [Merger.keysOf Merger.mergeStacks fst].
    unfold Merger.mutated.
    cbn [rootStack Resources Parameters Merger.rootResources
         Merger.transformStacks resolvers stacks schema functions].
    now rewrite overrideResolvers_idempotent.
  - intros name rest Hkeys. f_equal. rewrite Hkeys in Hloop.
    assert (Hhas : has name (Merger.transformStacks st) = true).
    { apply mergeStacks_step in Hloop.
      destruct Hloop as (template & declared & _ & _ & _ & Hrest).
      apply (mergeStacks_keeps_stacks rc _ _ _ _ _ _ name Hrest).
      cbn [Merger.transformStacks]. rewrite has_set, String.eqb_refl.
      reflexivity. }
    unfold Merger.mergeUserConfigWithTransformOutput.
    fold userStacks. rewrite Hkeys, Hm.
    cbn [rootStack Resources Parameters Merger.mutated Merger.rootResources
         Merger.transformStacks resolvers stacks schema functions].
    rewrite Hpar. cbn [Merger.keysOf Merger.mergeStacks
                       Merger.transformStacks].
    now rewrite Hhas.
Qed.

(** The sample merge run twice on the same transform output: the first run
    returns a bundle, the second throws for [Search-1.json]. *)
Lemma merge_consumes_transform_output_witness :
  snd (Merger.mergeUserConfigWithTransformOutput Sample.rc Sample.userConfig
         Sample.transformOutput) = Sample.merged
  /\ (keys (Merger.orEmpty (user_stacks Sample.userConfig)) = [] ->
      Merger.mergeTwice Sample.rc Sample.userConfig Sample.transformOutput
      = (Ok Sample.merged, Ok Sample.merged))
  /\ (forall name rest,
        keys (Merger.orEmpty (user_stacks Sample.userConfig)) = name :: rest ->
        Merger.mergeTwice Sample.rc Sample.userConfig Sample.transformOutput
        = (Ok Sample.merged, Err (Error (Merger.duplicateStackMessage name)))).
Proof.
  apply (merge_consumes_transform_output Sample.rc Sample.userConfig
           Sample.transformOutput Sample.merged).
  - reflexivity.
  - vm_compute. reflexivity.
Defined.

Example mergeTwice_without_stacks :
  Merger.mergeTwice Sample.rc Sample.resolversOnly Sample.transformOutput
  = (Ok Sample.mergedResolversOnly, Ok Sample.mergedResolversOnly).
Proof. reflexivity. Qed.

Example mergeTwice_sample :
  Merger.mergeTwice Sample.rc Sample.userConfig Sample.transformOutput
  = (Ok Sample.merged,
     Err (Error (Merger.duplicateStackMessage "Search-1.json"))).
Proof. vm_compute. reflexivity. Qed.

(** ** The synthesized stacks *)

Section MergerStacks.

Import Merger.

Variable rc : ResourceConstants.

(** X27.  What a synthesized stack depends on.  After a merge that
    returns, for a user bundle whose stack names are no members of
    [Object.prototype], the root stack
    holds, under the resource id of every stack of the user bundle, a
    nested-stack resource whose [DependsOn] is the list of ids the code
    computed from the transform engine's root stack before the loop, so the
    resources synthesized for earlier user stacks never enter it, for any
    number of user stacks.  That list holds exactly the ids whose resource
    has one of the three allow-listed types or a type that names a member
    inherited from [Object.prototype]; when no resource of the root stack has
    such a type, it holds exactly the anchors. *)
Theorem merge_dependsOn_anchors (userConfig : PartialDeploymentResources)
    (userStacks : obj Template)
    (transformOutput merged : DeploymentResources) :
  user_stacks userConfig = Some userStacks ->
  ownNames (keys userStacks) = true ->
  fst (mergeUserConfigWithTransformOutput rc userConfig transformOutput)
    = Ok merged ->
  exists before after,
    Resources (rootStack transformOutput) = Some before
    /\ Resources (rootStack merged) = Some after
    /\ (forall id, In id (allResourceIds before)
                   <-> anchor before id \/ inheritedType before id)
    /\ ((forall id, ~ inheritedType before id) ->
        forall id, In id (allResourceIds before) <-> anchor before id)
    /\ forall userStack,
         In userStack (keys userStacks) ->
         exists r,
           get (stackResourceId userStack) after = Some r
           /\ ResourceType r = "AWS::CloudFormation::Stack"
           /\ DependsOn r = Some (allResourceIds before).
Proof.
  intros Hu _ H.
  destruct (mergeUserConfigWithTransformOutput rc userConfig transformOutput)
    as [result left] eqn:E.
  cbn [fst] in H. subst result. apply merge_returns in E.
  destruct E as (resources & rootParameters & st & Hres & _ & Hloop & -> & _).
  rewrite Hu in Hloop. cbn [orEmpty] in Hloop.
  exists resources, (rootResources st).
  split; [exact Hres|]. split; [reflexivity|].
  split; [apply allResourceIds_anchor|]. split.
  - intros Hplain id. rewrite allResourceIds_anchor. split; [|now left].
    intros [A | I]; [exact A | now destruct (Hplain id)].
  - intros userStack Hin.
    destruct (mergeStacks_synthesized rc _ _ _ _ _ _ Hloop
                (stackResourceId userStack)) as (r & Hr & Hs); [eauto|].
    exists r. split; auto.
    destruct Hs as (owner & template & declared & _ & _ & _ & ->).
    split; reflexivity.
Qed.

(** X28.  What a synthesized stack is passed.  After a merge that
    returns, for a user bundle whose stack names are no members of
    [Object.prototype], the nested-stack
    resource found under the id of a user stack was synthesized for a user
    stack [owner] with that id, and its parameter map has exactly the
    parameters [owner] declares as keys; a parameter [owner] does not
    declare is absent.  A declared parameter is mapped to its lookup among
    the root stack's parameters (by reference) plus the synthesized API-id
    parameter; where that lookup finds nothing, a parameter named like a
    member inherited from [Object.prototype] is mapped to that member, and any
    other is left undefined. *)
Theorem merge_passes_declared_parameters
    (userConfig : PartialDeploymentResources) (userStacks : obj Template)
    (transformOutput merged : DeploymentResources) :
  user_stacks userConfig = Some userStacks ->
  ownNames (keys userStacks) = true ->
  fst (mergeUserConfigWithTransformOutput rc userConfig transformOutput)
    = Ok merged ->
  exists rootParameters after,
    Parameters (rootStack transformOutput) = Some rootParameters
    /\ Resources (rootStack merged) = Some after
    /\ forall userStack,
         In userStack (keys userStacks) ->
         exists owner template declared forStack url r,
           get owner userStacks = Some template
           /\ Parameters template = Some declared
           /\ stackResourceId owner = stackResourceId userStack
           /\ get (stackResourceId userStack) after = Some r
           /\ Properties r = StackProperties forStack url
           /\ (forall k, In k (keys forStack) <-> In k (keys declared))
           /\ (forall k, In k (keys declared) ->
                 get k forStack
                 = Some (match passedValue rc rootParameters k with
                         | Some v => Some v
                         | None => if inheritedMember k
                                   then Some (Inherited k) else None
                         end))
           /\ (forall k, In k (keys declared) ->
                 inheritedMember k = false ->
                 get k forStack = Some (passedValue rc rootParameters k))
           /\ (forall k, ~ In k (keys declared) -> get k forStack = None).
Proof.
  intros Hu _ H.
  destruct (mergeUserConfigWithTransformOutput rc userConfig transformOutput)
    as [result left] eqn:E.
  cbn [fst] in H. subst result. apply merge_returns in E.
  destruct E as (resources & rootParameters & st & _ & Hpar & Hloop & -> & _).
  rewrite Hu in Hloop. cbn [orEmpty] in Hloop.
  exists rootParameters, (rootResources st).
  split; [exact Hpar|]. split; [reflexivity|].
  intros userStack Hin.
  destruct (mergeStacks_synthesized rc _ _ _ _ _ _ Hloop
              (stackResourceId userStack)) as (r & Hr & Hs); [eauto|].
  destruct Hs as (owner & template & declared & Hget & Hdecl & Hid & ->).
  exists owner, template, declared. do 2 eexists.
  eexists. repeat split; try eassumption; try reflexivity.
  - rewrite get_keys. intros [v Hv].
    rewrite parametersForStack_get in Hv.
    destruct (existsb _ _) eqn:Ex; [|discriminate].
    now apply existsb_eqb_In in Ex.
  - intros Hk. apply get_keys. rewrite parametersForStack_get.
    apply existsb_eqb_In in Hk. rewrite Hk. eauto.
  - intros k Hk. rewrite parametersForStack_get.
    apply existsb_eqb_In in Hk. rewrite Hk.
    unfold lookedUp. now rewrite customStackParams_get.
  - intros k Hk Hplain. rewrite parametersForStack_get.
    apply existsb_eqb_In in Hk. rewrite Hk.
    unfold lookedUp. rewrite customStackParams_get, Hplain.
    now destruct (passedValue rc rootParameters k).
  - intros k Hk. rewrite parametersForStack_get.
    destruct (existsb _ _) eqn:Ex; auto.
    apply existsb_eqb_In in Ex. contradiction.
Qed.

End MergerStacks.

(** The sample merge: both custom stacks depend on the API, the schema
    and the generated [Post] stack, and not on each other. *)
Lemma merge_dependsOn_anchors_witness :
  exists before after,
    Resources (rootStack Sample.transformOutput) = Some before
    /\ Resources (rootStack Sample.merged) = Some after
    /\ (forall id, In id (Merger.allResourceIds before)
                   <-> anchor before id \/ inheritedType before id)
    /\ ((forall id, ~ inheritedType before id) ->
        forall id, In id (Merger.allResourceIds before) <-> anchor before id)
    /\ forall userStack,
         In userStack
            (keys [ ("Search-1.json", Sample.searchStack);
                    ("audit.json", Sample.auditStack) ]) ->
         exists r,
           get (Merger.stackResourceId userStack) after = Some r
           /\ ResourceType r = "AWS::CloudFormation::Stack"
           /\ DependsOn r = Some (Merger.allResourceIds before).
Proof.
  apply (merge_dependsOn_anchors Sample.rc Sample.userConfig
           [ ("Search-1.json", Sample.searchStack);
             ("audit.json", Sample.auditStack) ]
           Sample.transformOutput Sample.merged).
  - reflexivity.
  - reflexivity.
  - vm_compute. reflexivity.
Defined.

(** The parameter maps of the sample merge. *)
Lemma merge_passes_declared_parameters_witness :
  exists rootParameters after,
    Parameters (rootStack Sample.transformOutput) = Some rootParameters
    /\ Resources (rootStack Sample.merged) = Some after
    /\ forall userStack,
         In userStack
            (keys [ ("Search-1.json", Sample.searchStack);
                    ("audit.json", Sample.auditStack) ]) ->
         exists owner template declared forStack url r,
           get owner [ ("Search-1.json", Sample.searchStack);
                       ("audit.json", Sample.auditStack) ] = Some template
           /\ Parameters template = Some declared
           /\ Merger.stackResourceId owner = Merger.stackResourceId userStack
           /\ get (Merger.stackResourceId userStack) after = Some r
           /\ Properties r = StackProperties forStack url
           /\ (forall k, In k (keys forStack) <-> In k (keys declared))
           /\ (forall k, In k (keys declared) ->
                 get k forStack
                 = Some (match passedValue Sample.rc rootParameters k with
                         | Some v => Some v
                         | None => if Merger.inheritedMember k
                                   then Some (Inherited k) else None
                         end))
           /\ (forall k, In k (keys declared) ->
                 Merger.inheritedMember k = false ->
                 get k forStack
                 = Some (passedValue Sample.rc rootParameters k))
           /\ (forall k, ~ In k (keys declared) -> get k forStack = None).
Proof.
  apply (merge_passes_declared_parameters Sample.rc Sample.userConfig
           [ ("Search-1.json", Sample.searchStack);
             ("audit.json", Sample.auditStack) ]
           Sample.transformOutput Sample.merged).
  - reflexivity.
  - reflexivity.
  - vm_compute. reflexivity.
Defined.

(** ** More on the loader *)

Lemma documents_flat (files : list (string * string)) :
  documents (Dir (map (fun f => (fst f, File (snd f))) files))
  = map snd files.
Proof.
  cbn [documents]. induction files as [|[name data] files IH]; cbn;
    [reflexivity|]. now rewrite IH.
Qed.

(** X17.  Where the schema comes from.  A regular file [schema.graphql]
    is the schema, whatever else the project holds; without it, a directory
    [schema] gives the documents below it joined by newlines, for a flat
    directory the contents of its files in listing order; without either the
    load fails with a message that names the path of the missing file.  A
    directory called [schema.graphql], or a regular file called [schema]
    when there is no [schema.graphql], fails with a file-system error. *)
Theorem readSchema_sources (projectDirectory : Path) (fs : FS) :
  let schemaFilePath := path_join projectDirectory "schema.graphql" in
  let schemaDirectoryPath := path_join projectDirectory "schema" in
  let schema := Loader.readSchema projectDirectory fs in
  (forall data, lookup schemaFilePath fs = Some (File data) ->
                schema = Ok data)
  /\ (forall entries, lookup schemaFilePath fs = Some (Dir entries) ->
                      schema = Err (EISDIR schemaFilePath))
  /\ (lookup schemaFilePath fs = None ->
      (forall files,
         lookup schemaDirectoryPath fs
         = Some (Dir (map (fun f => (fst f, File (snd f))) files)) ->
         schema = Ok (JsString.join Loader.newline (map snd files)))
      /\ (forall entries,
            lookup schemaDirectoryPath fs = Some (Dir entries) ->
            schema = Ok (JsString.join Loader.newline
                           (documents (Dir entries))))
      /\ (forall data,
            lookup schemaDirectoryPath fs = Some (File data) ->
            schema = Err (ENOTDIR schemaDirectoryPath))
      /\ (lookup schemaDirectoryPath fs = None ->
          schema = Err (Error ("Could not find a schema at "
                               ++ path_string schemaFilePath)%string)
          /\ JsString.includes
               ("Could not find a schema at "
                ++ path_string schemaFilePath)%string
               (path_string schemaFilePath))).
Proof.
  intros schemaFilePath schemaDirectoryPath schema.
  unfold schema, Loader.readSchema, existsSync, readFileSync,
    Loader.readSchemaDocuments.
  fold schemaFilePath schemaDirectoryPath.
  split; [now intros data ->|]. split; [now intros entries ->|].
  intros ->. split; [|split; [|split]].
  - intros files H. rewrite H. cbn [bind]. now rewrite documents_flat.
  - now intros entries ->.
  - now intros data ->.
  - intros ->. split; [reflexivity|].
    exists "Could not find a schema at "%string, ""%string.
    now rewrite string_app_nil.
Qed.

Section StacksLoaded.

Import Loader.

Variable json : JSON.
Variable stacksDirectory : Path.
Variable fs : FS.
Variable stackFiles : list string.

(** A loop that returns has accepted and parsed every file it went
    through, and stored each under its name. *)
Lemma readStacks_returns (todo : list string) :
  forall (stacks result : obj Template),
    readStacks json stacksDirectory fs stackFiles todo stacks = Ok result ->
    (forall f, In f todo ->
       throwIfNotJSON f = Ok tt
       /\ exists template, parsedAt json stacksDirectory fs f = Some template)
    /\ (forall k,
          get k result
          = if existsb (String.eqb k) todo
            then parsedAt json stacksDirectory fs k
            else get k stacks).
Proof.
  induction todo as [|stackFile rest IH]; intros stacks result H.
  - cbn in H. injection H as <-. split; [intros f []|reflexivity].
  - cbn [readStacks] in H.
    destruct (throwIfNotJSON stackFile) as [[]|e] eqn:T; cbn [bind] in H;
      [|discriminate].
    destruct (readFileSync (path_join stacksDirectory stackFile) fs)
      as [data|e] eqn:R; cbn [bind] in H; [|discriminate].
    destruct (JSON_parse json data) as [template|] eqn:P; [|discriminate].
    assert (PA : parsedAt json stacksDirectory fs stackFile = Some template)
      by (unfold parsedAt; now rewrite R).
    destruct (IH _ _ H) as [Hall Hget]. split.
    + intros f [<- | Hin]; [split; eauto | now apply Hall].
    + intros k. rewrite Hget, get_set. cbn [existsb].
      destruct (String.eqb k stackFile) eqn:E; cbn [orb]; [|reflexivity].
      apply String.eqb_eq in E. subst k. rewrite PA.
      now destruct (existsb _ rest).
Qed.

End StacksLoaded.

(** X18.  What a load of the stacks gives.  Without a [stacks] directory
    there are no stacks.  Otherwise every file of the directory is named
    [json] or ends in [.json], and its parsed contents are stored under its
    file name; nothing else is stored. *)
Theorem loadStacks_returns (json : JSON) (projectDirectory : Path) (fs : FS)
    (stacks : obj Template) :
  let stacksDirectory := path_join projectDirectory "stacks" in
  Loader.loadStacks json projectDirectory fs = Ok stacks ->
  (lookup stacksDirectory fs = None /\ stacks = [])
  \/ exists entries,
       lookup stacksDirectory fs = Some (Dir entries)
       /\ (forall f, In f (keys entries) ->
             (f = "json"%string \/ exists base, f = (base ++ ".json")%string)
             /\ exists template,
                  parsedAt json stacksDirectory fs f = Some template
                  /\ get f stacks = Some template)
       /\ (forall f, In f (keys stacks) -> In f (keys entries)).
Proof.
  intros stacksDirectory. unfold Loader.loadStacks, existsSync, readdirSync.
  fold stacksDirectory.
  destruct (lookup stacksDirectory fs) as [[data|entries]|] eqn:L;
    cbn [bind]; [discriminate | | intros [= <-]; now left].
  intros H. right. exists entries. split; [reflexivity|].
  destruct (readStacks_returns json stacksDirectory fs _ _ _ _ H)
    as [Hall Hget].
  split.
  - intros f Hin. destruct (Hall f Hin) as [T [template PA]].
    split; [now apply throwIfNotJSON_ok_name|].
    exists template. split; [exact PA|].
    rewrite Hget. apply existsb_eqb_In in Hin. now rewrite Hin.
  - intros f Hin. apply get_keys in Hin as [template Hf].
    rewrite Hget in Hf.
    destruct (existsb _ _) eqn:E; [now apply existsb_eqb_In|discriminate].
Qed.

Lemma loadStacks_returns_witness :
  (lookup (path_join SampleProject.projectDirectory "stacks")
     SampleProject.unbuilt = None
   /\ [("search.json", {| Parameters := Some []; Resources := Some [] |})] = [])
  \/ exists entries,
       lookup (path_join SampleProject.projectDirectory "stacks")
         SampleProject.unbuilt = Some (Dir entries)
       /\ (forall f, In f (keys entries) ->
             (f = "json"%string \/ exists base, f = (base ++ ".json")%string)
             /\ exists template,
                  parsedAt Sample.json
                    (path_join SampleProject.projectDirectory "stacks")
                    SampleProject.unbuilt f = Some template
                  /\ get f [("search.json",
                             {| Parameters := Some []; Resources := Some [] |})]
                     = Some template)
       /\ (forall f,
             In f (keys [("search.json",
                          {| Parameters := Some ([] : obj string);
                             Resources := Some [] |})]) ->
             In f (keys entries)).
Proof.
  apply (loadStacks_returns Sample.json SampleProject.projectDirectory
           SampleProject.unbuilt).
  reflexivity.
Defined.

(** X19.  What a load of the resolvers gives.  Without a [resolvers]
    directory there are no resolvers.  Otherwise every entry of the
    directory is a regular file, stored with its contents under its file
    name, and nothing else is stored: the directory is not walked
    recursively, and a subdirectory in it makes the load fail. *)
Theorem loadResolvers_returns (projectDirectory : Path) (fs : FS)
    (resolvers : obj string) :
  let resolverDirectory := path_join projectDirectory "resolvers" in
  Loader.loadResolvers projectDirectory fs = Ok resolvers ->
  (lookup resolverDirectory fs = None /\ resolvers = [])
  \/ exists entries,
       lookup resolverDirectory fs = Some (Dir entries)
       /\ (forall f, In f (keys entries) ->
             exists data,
               lookup (path_join resolverDirectory f) fs = Some (File data)
               /\ get f resolvers = Some data)
       /\ (forall f, In f (keys resolvers) -> In f (keys entries)).
Proof.
  intros resolverDirectory.
  unfold Loader.loadResolvers, existsSync, readdirSync.
  fold resolverDirectory.
  destruct (lookup resolverDirectory fs) as [[data|entries]|] eqn:L;
    cbn [bind]; [discriminate | | intros [= <-]; now left].
  intros H. right. exists entries. split; [reflexivity|].
  assert (G : forall todo acc result,
            Loader.readResolvers resolverDirectory fs todo acc = Ok result ->
            (forall f, In f todo ->
               exists data,
                 lookup (path_join resolverDirectory f) fs = Some (File data)
                 /\ get f result = Some data)
            /\ (forall f, In f (keys result) ->
                  In f todo \/ In f (keys acc))).
  { clear H. induction todo as [|file rest IH]; intros acc result H.
    - cbn in H. injection H as <-. split; [intros f []|now right].
    - cbn [Loader.readResolvers] in H. unfold readFileSync in H.
      destruct (lookup (path_join resolverDirectory file) fs)
        as [[data|sub]|] eqn:F; cbn [bind] in H; try discriminate.
      destruct (IH _ _ H) as [Hall Hkeys]. split.
      + intros f [<- | Hin]; [|now apply Hall].
        exists data. split; [exact F|].
        destruct (in_dec string_dec file rest) as [Hr|Hr].
        * destruct (Hall file Hr) as (data' & F' & G').
          rewrite F in F'. now injection F' as <-.
        * assert (K : forall todo acc result,
                    Loader.readResolvers resolverDirectory fs todo acc
                    = Ok result ->
                    ~ In file todo -> get file result = get file acc).
          { clear. induction todo as [|x todo IH]; intros acc result H N.
            - cbn in H. now injection H as <-.
            - cbn [Loader.readResolvers] in H.
              destruct (readFileSync _ fs) as [d|e]; cbn [bind] in H;
                [|discriminate].
              rewrite (IH _ _ H) by (intros ?; apply N; now right).
              apply get_set_other. intros ->. apply N. now left. }
          rewrite (K _ _ _ H Hr). apply get_set_same.
      + intros f Hin. destruct (Hkeys f Hin) as [Hr | Ha]; [left; now right|].
        apply get_keys in Ha as [v Hv]. rewrite get_set in Hv.
        destruct (String.eqb f file) eqn:E.
        * apply String.eqb_eq in E. subst. left. now left.
        * right. apply get_keys. eauto. }
  destruct (G _ _ _ H) as [Hall Hkeys]. split; [exact Hall|].
  intros f Hin. destruct (Hkeys f Hin) as [Hr | []]. exact Hr.
Qed.

Lemma loadResolvers_returns_witness :
  (lookup (path_join SampleProject.projectDirectory "resolvers")
     SampleProject.mixedStacks = None
   /\ [("Query.getPost.req.vtl", "## mine"%string)] = [])
  \/ exists entries,
       lookup (path_join SampleProject.projectDirectory "resolvers")
         SampleProject.mixedStacks = Some (Dir entries)
       /\ (forall f, In f (keys entries) ->
             exists data,
               lookup (path_join
                         (path_join SampleProject.projectDirectory "resolvers")
                         f) SampleProject.mixedStacks = Some (File data)
               /\ get f [("Query.getPost.req.vtl", "## mine"%string)]
                  = Some data)
       /\ (forall f,
             In f (keys [("Query.getPost.req.vtl", "## mine"%string)]) ->
             In f (keys entries)).
Proof.
  apply (loadResolvers_returns SampleProject.projectDirectory
           SampleProject.mixedStacks).
  reflexivity.
Defined.

(** X20.  Only the schema is required: a project with a [schema.graphql]
    file and neither a [resolvers] nor a [stacks] directory loads, with no
    resolvers and no stacks. *)
Theorem load_schema_only_project (json : JSON) (projectDirectory : Path)
    (fs : FS) (data : string) :
  lookup (path_join projectDirectory "schema.graphql") fs = Some (File data) ->
  lookup (path_join projectDirectory "resolvers") fs = None ->
  lookup (path_join projectDirectory "stacks") fs = None ->
  Loader.readProjectConfiguration json projectDirectory fs
  = Resolved {| Loader.config_stacks := [];
                Loader.config_resolvers := [];
                Loader.config_schema := data |}.
Proof.
  intros Hs Hr Ht.
  unfold Loader.readProjectConfiguration, Loader.readSchema,
    Loader.loadResolvers, Loader.loadStacks, existsSync, readFileSync.
  now rewrite Hs, Hr, Ht.
Qed.

Lemma load_schema_only_project_witness :
  Loader.readProjectConfiguration Sample.json ["app"]
    (Dir [("app", Dir [("schema.graphql", File "type T { id: ID! }")])])
  = Resolved {| Loader.config_stacks := [];
                Loader.config_resolvers := [];
                Loader.config_schema := "type T { id: ID! }" |}.
Proof.
  apply load_schema_only_project; reflexivity.
Defined.

(** ** The disk *)

Lemma lookup_place_same (p : Path) (new : Node) :
  forall fs fs', place p new fs = Some fs' -> lookup p fs' = Some new.
Proof.
  induction p as [|seg rest IH]; intros fs fs' H.
  - cbn in H. now injection H as <-.
  - destruct fs as [d|entries]; cbn [place] in H; [discriminate|].
    destruct rest as [|r0 rs].
    + injection H as <-. cbn [lookup]. now rewrite get_set_same.
    + destruct (get seg entries) as [child|]; [|discriminate].
      destruct (place (r0 :: rs) new child) as [child'|] eqn:P;
        [|discriminate].
      injection H as <-. cbn [lookup]. rewrite get_set_same.
      now apply (IH child).
Qed.

Lemma lookup_place_apart (p : Path) (new : Node) :
  forall q fs fs',
    place p new fs = Some fs' -> apart p q -> lookup q fs' = lookup q fs.
Proof.
  induction p as [|seg rest IH]; intros q fs fs' H [A1 A2].
  - exfalso. now apply (A1 q).
  - destruct q as [|s qr]; [exfalso; now apply (A2 (seg :: rest))|].
    destruct fs as [d|entries]; cbn [place] in H; [discriminate|].
    destruct (String.eqb seg s) eqn:E.
    + apply String.eqb_eq in E. subst s.
      destruct rest as [|r0 rs]; [exfalso; now apply (A1 qr)|].
      destruct (get seg entries) as [child|] eqn:G; [|discriminate].
      destruct (place (r0 :: rs) new child) as [child'|] eqn:P;
        [|discriminate].
      injection H as <-. cbn [lookup]. rewrite get_set_same, G.
      apply (IH qr child child' P). split.
      * intros r ->. now apply (A1 r).
      * intros r Hr. apply (A2 r). cbn. now rewrite Hr.
    + assert (N : seg <> s) by (intros ->; now rewrite String.eqb_refl in E).
      destruct rest as [|r0 rs].
      * injection H as <-. cbn [lookup]. now rewrite get_set_other.
      * destruct (get seg entries) as [child|]; [|discriminate].
        destruct (place (r0 :: rs) new child) as [child'|]; [|discriminate].
        injection H as <-. cbn [lookup]. now rewrite get_set_other.
Qed.

Lemma place_of_lookup (p : Path) (new : Node) :
  forall fs node, lookup p fs = Some node -> exists fs', place p new fs = Some fs'.
Proof.
  induction p as [|seg rest IH]; intros fs node H; [cbn; eauto|].
  destruct fs as [d|entries]; cbn [lookup place] in *; [discriminate|].
  destruct (get seg entries) as [child|]; [|discriminate].
  destruct rest as [|r0 rs]; [eauto|].
  destruct (IH child node H) as [child' ->]. eauto.
Qed.

(** Paths below two apart paths are apart from what is apart. *)
Lemma apart_below (dir q s : Path) : apart dir q -> apart (dir ++ s) q.
Proof.
  intros [A1 A2]. split.
  - intros r ->. apply (A1 (s ++ r)). now rewrite app_assoc.
  - intros r H. apply app_eq_app in H as [l [[H _] | [H _]]].
    + now apply (A2 l).
    + now apply (A1 l).
Qed.

Lemma apart_siblings (dir : Path) (a b : string) (r1 r2 : Path) :
  a <> b -> apart (dir ++ a :: r1) (dir ++ b :: r2).
Proof.
  intros N. split; intros r H; rewrite <- app_assoc in H;
    apply app_inv_head in H; cbn in H; congruence.
Qed.

(** ** [emptyDirectory] *)

Lemma emptied_dir (entries : list (string * Node)) :
  emptied (Dir entries) = Dir (emptiedEntries entries).
Proof. reflexivity. Qed.

Lemma emptiedEntries_cons (file : string) (child : Node)
    (rest : list (string * Node)) :
  emptiedEntries ((file, child) :: rest)
  = match child with
    | Dir _ => (file, emptied child) :: emptiedEntries rest
    | File _ => emptiedEntries rest
    end.
Proof. now destruct child. Qed.

(** Every entry of an emptied directory is an emptied directory of the
    original. *)
Lemma emptiedEntries_get (entries : list (string * Node)) :
  forall seg node,
    get seg (emptiedEntries entries) = Some node ->
    exists sub, In (seg, Dir sub) entries /\ node = emptied (Dir sub).
Proof.
  induction entries as [|[file child] rest IH]; intros seg node H;
    [discriminate|].
  rewrite emptiedEntries_cons in H. destruct child as [d|sub].
  - destruct (IH _ _ H) as (s & Hin & E). exists s. split; [now right|exact E].
  - cbn [get] in H. destruct (String.eqb seg file) eqn:E.
    + apply String.eqb_eq in E. subst. injection H as <-.
      exists sub. split; [now left|reflexivity].
    + destruct (IH _ _ H) as (s & Hin & E'). exists s.
      split; [now right|exact E'].
Qed.

(** A directory that is found first under its name is still found there,
    emptied. *)
Lemma emptiedEntries_keeps (entries : list (string * Node)) :
  forall seg sub,
    get seg entries = Some (Dir sub) ->
    get seg (emptiedEntries entries) = Some (emptied (Dir sub)).
Proof.
  induction entries as [|[file child] rest IH]; intros seg sub H;
    [discriminate|].
  rewrite emptiedEntries_cons. cbn [get] in H.
  destruct (String.eqb seg file) eqn:E.
  - injection H as ->. cbn [get]. now rewrite E.
  - destruct child; cbn [get]; [|rewrite E]; now apply IH.
Qed.

Lemma emptied_no_file (n : Node) :
  forall p data sub,
    n = Dir sub -> lookup p (emptied n) <> Some (File data).
Proof.
  induction n as [d|entries IH] using Node_entries_ind;
    intros p data sub E; [discriminate|].
  rewrite emptied_dir. destruct p as [|seg rest]; cbn [lookup]; [discriminate|].
  destruct (get seg (emptiedEntries entries)) as [node|] eqn:G;
    [|discriminate].
  destruct (emptiedEntries_get _ _ _ G) as (s & Hin & ->).
  rewrite Forall_forall in IH. apply (IH (seg, Dir s) Hin rest data s).
  reflexivity.
Qed.

Lemma emptied_keeps_directories (p : Path) :
  forall n sub,
    lookup p n = Some (Dir sub) ->
    lookup p (emptied n) = Some (emptied (Dir sub)).
Proof.
  induction p as [|seg rest IH]; intros n sub H.
  - cbn in H. now injection H as ->.
  - destruct n as [d|entries]; cbn [lookup] in H; [discriminate|].
    destruct (get seg entries) as [child|] eqn:G; [|discriminate].
    destruct child as [d|c].
    + destruct rest; cbn in H; discriminate.
    + rewrite emptied_dir. cbn [lookup].
      rewrite (emptiedEntries_keeps _ _ _ G). now apply IH.
Qed.

(** X21.  [emptyDirectory] returns exactly when its argument is an
    existing directory.  It then leaves no file anywhere below it, keeps
    every directory below it (emptied in turn, the directory itself
    included), and leaves everything outside it as it was. *)
Theorem emptyDirectory_empties (directory : Path) (fs : FS) :
  let run := Writer.emptyDirectory directory fs in
  (fst run = Ok tt <-> exists entries, lookup directory fs = Some (Dir entries))
  /\ (fst run = Ok tt ->
      (forall p data, lookup (directory ++ p) (snd run) <> Some (File data))
      /\ (forall p sub,
            lookup (directory ++ p) fs = Some (Dir sub) ->
            lookup (directory ++ p) (snd run) = Some (emptied (Dir sub)))
      /\ (forall q, apart directory q -> lookup q (snd run) = lookup q fs)).
Proof.
  intros run. unfold run, Writer.emptyDirectory, readdirSync.
  destruct (lookup directory fs) as [[d|entries]|] eqn:L; cbn [fst snd].
  - split; [split; [discriminate | intros [? [=]]] | discriminate].
  - destruct (place_of_lookup directory (emptied (Dir entries)) fs _ L)
      as [fs' P].
    rewrite P. cbn [fst snd]. split; [split; eauto|]. intros _.
    pose proof (lookup_place_same _ _ _ _ P) as S.
    repeat split.
    + intros p data. rewrite (lookup_app _ p _ _ S).
      now apply (emptied_no_file (Dir entries) p data entries).
    + intros p sub H. rewrite (lookup_app _ p _ _ S).
      rewrite (lookup_app _ p _ _ L) in H.
      now apply emptied_keeps_directories.
    + intros q A. now apply (lookup_place_apart _ _ _ _ _ P).
  - split; [split; [discriminate | intros [? [=]]] | discriminate].
Qed.

(** ** Names that are single segments *)

Lemma someChar_app (p : ascii -> bool) (a b : string) :
  someChar p (a ++ b) = someChar p a || someChar p b.
Proof.
  induction a as [|c a IH]; cbn [String.append someChar]; [reflexivity|].
  now rewrite IH, orb_assoc.
Qed.

Lemma plainName_parts (name : string) :
  plainName name = true
  <-> name <> ""%string /\ name <> "."%string /\ name <> ".."%string
      /\ someChar JsString.isSlash name = false.
Proof.
  unfold plainName. rewrite !andb_true_iff, !negb_true_iff, !String.eqb_neq.
  tauto.
Qed.

(** Normalizing a single segment after a directory appends it. *)
Lemma path_normalize_plain (base : Path) (name : string) :
  plainName name = true -> path_normalize base name = path_join base name.
Proof.
  intros H. apply plainName_parts in H as (N0 & N1 & N2 & S).
  unfold path_normalize, JsString.split.
  rewrite (split_aux_no_separator _ _ ""%string S).
  cbn [JsString.rev_string String.append fold_left].
  unfold normalizeSegment.
  apply String.eqb_neq in N0, N1, N2. rewrite N0, N1, N2.
  cbn [orb rev]. now rewrite rev_involutive.
Qed.

Lemma endsWithSlash_plain (name : string) :
  plainName name = true -> endsWithSlash name = false.
Proof.
  intros H. apply plainName_parts in H as (N0 & _ & _ & S).
  unfold endsWithSlash, JsString.split.
  rewrite (split_aux_no_separator _ _ ""%string S).
  cbn [JsString.rev_string String.append last].
  now apply String.eqb_neq.
Qed.

Lemma writeFileAt_plain (base : Path) (name data : string) (fs : FS) :
  plainName name = true ->
  writeFileAt base name data fs = writeFileSync (path_join base name) data fs.
Proof.
  intros H. unfold writeFileAt.
  now rewrite (endsWithSlash_plain _ H), (path_normalize_plain _ _ H).
Qed.

(** The name a stack is written under is a single segment when the name
    of the stack is. *)
Lemma plainName_fullFileNameOf (stackFileName : string) :
  plainName stackFileName = true ->
  plainName (Writer.fullFileNameOf stackFileName) = true.
Proof.
  intros H. rewrite fullFileNameOf_cases.
  destruct (someChar JsString.isDot stackFileName); [exact H|].
  apply plainName_parts in H as (_ & _ & _ & S).
  apply plainName_parts. rewrite someChar_app, S.
  repeat split; try reflexivity;
    destruct stackFileName as [|c [|c2 [|c3 n]]]; cbn; discriminate.
Qed.

Lemma plainNames_parts (deployment : DeploymentResources)
    (rootStackFileName : string) :
  plainNames deployment rootStackFileName = true ->
  (forall n, In n (keys (resolvers deployment)) -> plainName n = true)
  /\ (forall n, In n (keys (stacks deployment)) ->
        plainName (Writer.fullFileNameOf n) = true)
  /\ (forall n, In n (keys (functions deployment)) -> plainName n = true)
  /\ plainName rootStackFileName = true.
Proof.
  unfold plainNames. rewrite !andb_true_iff, !forallb_forall.
  intros [[[Hr Hs] Hf] Hn]. repeat split; auto.
  intros n Hin. apply plainName_fullFileNameOf. auto.
Qed.

(** ** What the writer touches *)

Section KeepsFacts.

Import Writer.

Variable p : Path.

Lemma keeps_ret {A} (a : A) : keeps p (ret a).
Proof. now intros fs. Qed.

Lemma keeps_pure {A} (r : Result A) : keeps p (pure r).
Proof. now intros fs. Qed.

Lemma keeps_andThen {A B} (m : Sync A) (k : A -> Sync B) :
  keeps p m -> (forall a, keeps p (k a)) -> keeps p (andThen m k).
Proof.
  intros Hm Hk fs. unfold andThen. specialize (Hm fs).
  destruct (m fs) as [[a|e] fs1]; cbn [snd] in *; [|exact Hm].
  now rewrite (Hk a fs1).
Qed.

Lemma keeps_forEach {A} (xs : list A) (body : A -> Sync unit) :
  (forall x, In x xs -> keeps p (body x)) -> keeps p (forEach xs body).
Proof.
  induction xs as [|x xs IH]; intros H; cbn [forEach]; [apply keeps_ret|].
  apply keeps_andThen; [apply H; now left|].
  intros _. apply IH. intros y Hy. apply H. now right.
Qed.

Lemma keeps_writeFile (q : Path) (data : string) :
  apart q p -> keeps p (effect (writeFileSync q data)).
Proof.
  intros A fs. unfold effect, writeFileSync.
  destruct (lookup q fs) as [[d|es]|]; cbn [snd]; try reflexivity;
    destruct (place q (File data) fs) as [fs'|] eqn:P; cbn [snd];
    try reflexivity; now apply (lookup_place_apart _ _ _ _ _ P).
Qed.

Lemma keeps_writeFileAt (base : Path) (name data : string) :
  plainName name = true ->
  apart (path_join base name) p ->
  keeps p (effect (writeFileAt base name data)).
Proof.
  intros H A fs. pose proof (keeps_writeFile _ data A fs) as K.
  unfold effect in *. now rewrite (writeFileAt_plain _ _ _ _ H).
Qed.

Lemma keeps_ensureDirectory (q : Path) :
  apart q p -> keeps p (ensureDirectory q).
Proof.
  intros A fs. unfold ensureDirectory, effect, mkdirSync, existsSync.
  destruct (lookup q fs); cbn [snd]; [reflexivity|].
  destruct (place q (Dir []) fs) as [fs'|] eqn:P; cbn [snd];
    [now apply (lookup_place_apart _ _ _ _ _ P) | reflexivity].
Qed.

Lemma keeps_emptyDirectory (q : Path) :
  apart q p -> keeps p (emptyDirectory q).
Proof.
  intros A fs. unfold emptyDirectory, readdirSync.
  destruct (lookup q fs) as [[d|es]|]; cbn [snd]; try reflexivity.
  destruct (place q (emptied (Dir es)) fs) as [fs'|] eqn:P; cbn [snd];
    [now apply (lookup_place_apart _ _ _ _ _ P) | reflexivity].
Qed.

End KeepsFacts.

Lemma keeps_read {A} (p : Path) (read : FS -> Result A) :
  keeps p (fun fs => (read fs, fs)).
Proof. now intros fs. Qed.

Ltac keeps_steps :=
  repeat first
    [ apply keeps_andThen; [|intros ?]
    | apply keeps_forEach; intros ? ?
    | apply keeps_ret
    | apply keeps_pure
    | apply keeps_read
    | apply keeps_writeFile
    | apply keeps_writeFileAt; [solve [auto]|]
    | apply keeps_ensureDirectory
    | apply keeps_emptyDirectory
    | match goal with
      | |- keeps _ (match ?x with _ => _ end) => destruct x
      end ].

Lemma writeDeployment_keeps_outside (json : JSON)
    (deployment : DeploymentResources) (directory : Path)
    (rootStackFileName : string) (q : Path) :
  plainNames deployment rootStackFileName = true ->
  apart directory q ->
  keeps q (Writer.writeDeployment json deployment directory rootStackFileName).
Proof.
  intros P A. apply plainNames_parts in P as (Pr & Ps & Pf & Pn).
  unfold Writer.writeDeployment. cbv zeta.
  keeps_steps; unfold path_join; try (repeat apply apart_below; exact A).
Qed.

(** After the schema has been written, nothing else is written over it,
    unless the root stack is given its name. *)
Lemma writeDeployment_keeps (json : JSON) (deployment : DeploymentResources)
    (directory : Path) (rootStackFileName : string) (kept : string) :
  plainNames deployment rootStackFileName = true ->
  kept <> "resolvers"%string -> kept <> "stacks"%string ->
  kept <> "functions"%string -> kept <> rootStackFileName ->
  let q := path_join directory kept in
  forall fs fs2 fs',
    Writer.emptyDirectory directory fs = (Ok tt, fs2) ->
    Writer.writeDeployment json deployment directory rootStackFileName fs
    = (Ok tt, fs') ->
    exists fs3,
      Writer.effect (writeFileSync (path_join directory "schema.graphql")
                       (schema deployment)) fs2 = (Ok tt, fs3)
      /\ lookup q fs' = lookup q fs3.
Proof.
  intros P N1 N2 N3 N4 q fs fs2 fs' E H.
  apply plainNames_parts in P as (Pr & Ps & Pf & Pn).
  unfold Writer.writeDeployment in H. cbv zeta in H.
  unfold Writer.andThen at 1 in H. rewrite E in H.
  unfold Writer.andThen at 1 in H.
  destruct (Writer.effect _ fs2) as [[[]|e] fs3] eqn:W; [|discriminate].
  exists fs3. split; [reflexivity|].
  match type of H with
  | ?m fs3 = _ =>
      assert (K : keeps q m);
      [|pose proof (K fs3) as K3; rewrite H in K3; exact K3]
  end.
  unfold q.
  keeps_steps;
    unfold path_join; repeat rewrite <- app_assoc; cbn [app];
    apply apart_siblings; congruence.
Qed.

Lemma andThen_ok {A B} (m : Writer.Sync A) (k : A -> Writer.Sync B)
    (fs fs' : FS) (b : B) :
  Writer.andThen m k fs = (Ok b, fs') ->
  exists a fs1, m fs = (Ok a, fs1) /\ k a fs1 = (Ok b, fs').
Proof.
  unfold Writer.andThen. destruct (m fs) as [[a|e] fs1]; [eauto|discriminate].
Qed.

Lemma forEach_ok {A} (xs : list A) (body : A -> Writer.Sync unit) :
  forall fs fs',
    Writer.forEach xs body fs = (Ok tt, fs') ->
    forall x, In x xs -> exists fs1 fs2, body x fs1 = (Ok tt, fs2).
Proof.
  induction xs as [|y xs IH]; intros fs fs' H x Hin; [destruct Hin|].
  cbn [Writer.forEach] in H. apply andThen_ok in H as ([] & fs1 & H1 & H2).
  destruct Hin as [<- | Hin]; [eauto|]. now apply (IH _ _ H2).
Qed.

Lemma effect_write_ok (p : Path) (data : string) (fs fs' : FS) :
  Writer.effect (writeFileSync p data) fs = (Ok tt, fs') ->
  readFileSync p fs' = Ok data.
Proof.
  unfold Writer.effect, writeFileSync, readFileSync.
  destruct (lookup p fs) as [[d|es]|]; try discriminate;
    destruct (place p (File data) fs) as [fs1|] eqn:P; try discriminate;
    intros [= <-]; now rewrite (lookup_place_same _ _ _ _ P).
Qed.

(** A write under a name that returns has written the file the normalized
    path names. *)
Lemma effect_writeAt_ok (base : Path) (name data : string) (fs fs' : FS) :
  Writer.effect (writeFileAt base name data) fs = (Ok tt, fs') ->
  readFileSync (path_normalize base name) fs' = Ok data.
Proof.
  intros H. apply effect_write_ok with (fs := fs).
  unfold Writer.effect, writeFileAt in *.
  destruct (endsWithSlash name); [|exact H].
  destruct (lookup (path_normalize base name) fs) as [[d|es]|];
    try discriminate.
  destruct (place _ _ fs); discriminate.
Qed.

(** X22.  The writer works inside the target directory only, for a bundle
    whose resolvers, stacks and functions, and a root stack file whose name,
    are single path segments (not empty, neither [.] nor [..], without a
    slash): whether it resolves or rejects half-way, everything that is
    neither the target directory, nor inside it, nor a directory that
    contains it is on the disk as it was. *)
Theorem writeDeploymentToDisk_stays_inside (json : JSON)
    (deployment : DeploymentResources) (directory : Path)
    (rootStackFileName : option string) (fs : FS) (q : Path) :
  let name := match rootStackFileName with
              | Some n => n
              | None => Writer.defaultRootStackFileName
              end in
  plainNames deployment name = true ->
  apart directory q ->
  lookup q (snd (Writer.writeDeploymentToDisk json deployment directory
                   rootStackFileName fs))
  = lookup q fs.
Proof.
  intros name P A. unfold Writer.writeDeploymentToDisk. fold name.
  pose proof (writeDeployment_keeps_outside json deployment directory
                name q P A fs) as K.
  now destruct (Writer.writeDeployment _ _ _ _ fs).
Qed.

(** The project's own stack file is untouched by a build into [build]. *)
Lemma writeDeploymentToDisk_stays_inside_witness :
  lookup ["home"; "project"; "stacks"; "search.json"]
    (snd (Writer.writeDeploymentToDisk Sample.json Sample.merged
            ["home"; "project"; "build"] None SampleProject.built))
  = lookup ["home"; "project"; "stacks"; "search.json"] SampleProject.built.
Proof.
  apply (writeDeploymentToDisk_stays_inside Sample.json Sample.merged
           ["home"; "project"; "build"] None SampleProject.built
           ["home"; "project"; "stacks"; "search.json"]).
  - reflexivity.
  - split; intros r H; cbn in H; discriminate.
Defined.

(** X23.  After a write that resolves, the file that the normalized path
    of the root stack file names holds the serialized root stack, and every
    stack of the bundle has a name that is [json], ends in [.json], or has
    no dot at all: no stack is ever written under another extension.  When
    the names of the bundle and of the root stack file are single path
    segments, [schema.graphql] holds the schema of the bundle (unless the
    root stack file is itself named [schema.graphql]). *)
Theorem writeDeploymentToDisk_resolved (json : JSON)
    (deployment : DeploymentResources) (directory : Path)
    (rootStackFileName : option string) (fs : FS) :
  let name := match rootStackFileName with
              | Some n => n
              | None => Writer.defaultRootStackFileName
              end in
  let run := Writer.writeDeploymentToDisk json deployment directory
               rootStackFileName fs in
  fst run = Resolved tt ->
  readFileSync (path_normalize directory name) (snd run)
  = Ok (JSON_stringify json (rootStack deployment))
  /\ (plainNames deployment name = true ->
      name <> "schema.graphql"%string ->
      readFileSync (path_join directory "schema.graphql") (snd run)
      = Ok (schema deployment))
  /\ (forall stackFileName,
        In stackFileName (keys (stacks deployment)) ->
        throwIfNotJSON (Writer.fullFileNameOf stackFileName) = Ok tt
        /\ (someChar JsString.isDot stackFileName = false
            \/ stackFileName = "json"%string
            \/ exists base, stackFileName = (base ++ ".json")%string)).
Proof.
  intros name run. unfold run, Writer.writeDeploymentToDisk. fold name.
  destruct (Writer.writeDeployment json deployment directory name fs)
    as [[[]|e] fs'] eqn:W; cbn [fst snd settle]; [|discriminate].
  intros _. pose proof W as W0.
  unfold Writer.writeDeployment in W. cbv zeta in W.
  apply andThen_ok in W as ([] & fs1 & H1 & W).
  apply andThen_ok in W as ([] & fs2 & H2 & W).
  apply andThen_ok in W as ([] & fs3 & H3 & W).
  apply andThen_ok in W as ([] & fs4 & H4 & W).
  apply andThen_ok in W as ([] & fs5 & H5 & W).
  apply andThen_ok in W as ([] & fs6 & H6 & W).
  apply andThen_ok in W as ([] & fs7 & H7 & W).
  apply andThen_ok in W as ([] & fs8 & H8 & W).
  split; [now apply effect_writeAt_ok in W|]. split.
  - intros P N.
    destruct (writeDeployment_keeps json deployment directory name
                "schema.graphql" P) with (fs := fs) (fs2 := fs1) (fs' := fs')
      as (fs3' & E & K); try discriminate; auto.
    rewrite H2 in E. injection E as <-.
    apply effect_write_ok in H2. unfold readFileSync in *.
    now rewrite K.
  - intros stackFileName Hin.
    destruct (forEach_ok _ _ _ _ H6 stackFileName Hin) as (fa & fb & B).
    apply andThen_ok in B as ([] & fc & T & _).
    unfold Writer.pure in T. injection T as T _.
    split; [exact T|].
    pose proof T as T'. rewrite fullFileNameOf_cases in T'.
    destruct (someChar JsString.isDot stackFileName); [|now left].
    right. now apply throwIfNotJSON_ok_name.
Qed.

Lemma writeDeploymentToDisk_resolved_witness :
  readFileSync (path_normalize ["home"; "project"; "build"] "rootStack.json")
    (snd (Writer.writeDeploymentToDisk Sample.json Sample.merged
            ["home"; "project"; "build"] None SampleProject.built))
  = Ok (JSON_stringify Sample.json (rootStack Sample.merged))
  /\ (plainNames Sample.merged "rootStack.json" = true ->
      "rootStack.json"%string <> "schema.graphql"%string ->
      readFileSync (path_join ["home"; "project"; "build"] "schema.graphql")
        (snd (Writer.writeDeploymentToDisk Sample.json Sample.merged
                ["home"; "project"; "build"] None SampleProject.built))
      = Ok (schema Sample.merged))
  /\ (forall stackFileName,
        In stackFileName (keys (stacks Sample.merged)) ->
        throwIfNotJSON (Writer.fullFileNameOf stackFileName) = Ok tt
        /\ (someChar JsString.isDot stackFileName = false
            \/ stackFileName = "json"%string
            \/ exists base, stackFileName = (base ++ ".json")%string)).
Proof.
  apply (writeDeploymentToDisk_resolved Sample.json Sample.merged
           ["home"; "project"; "build"] None SampleProject.built).
  reflexivity.
Defined.

(** ** More on the orchestrator *)

(** X24.  A build that rejects has not touched the disk and has started
    no write, and its error is the very error of the loader, of the
    transform engine or of the merger. *)
Theorem buildProject_rejects_before_writing (rc : ResourceConstants)
    (json : JSON) (opts : Build.ProjectOptions) (fs : FS) (e : JsError) :
  let build := Build.buildProject rc json opts fs in
  Build.returned build = Rejected e ->
  Build.disk build = fs
  /\ Build.dropped build = []
  /\ (Loader.readProjectConfiguration json (Build.projectDirectory opts) fs
      = Rejected e
      \/ exists config,
           Loader.readProjectConfiguration json (Build.projectDirectory opts) fs
           = Resolved config
           /\ (Build.transform opts (Loader.config_schema config) = Err e
               \/ exists transformOutput,
                    Build.transform opts (Loader.config_schema config)
                    = Ok transformOutput
                    /\ fst (Merger.mergeUserConfigWithTransformOutput rc
                              (Loader.asPartial config) transformOutput)
                       = Err e)).
Proof.
  intros build. unfold build, Build.buildProject.
  destruct (Loader.readProjectConfiguration json _ fs) as [config|e0];
    [|cbn; intros [= ->]; auto].
  destruct (Build.transform opts _) as [transformOutput|e1] eqn:T.
  - destruct (fst (Merger.mergeUserConfigWithTransformOutput rc _ _))
      as [merged|e2] eqn:M.
    + destruct (Writer.writeDeploymentToDisk _ _ _ _ _). cbn. discriminate.
    + cbn. intros [= ->]. split; [reflexivity|]. split; [reflexivity|].
      right. exists config. split; [reflexivity|]. right.
      exists transformOutput. split; [exact T | exact M].
  - cbn. intros [= ->]. split; [reflexivity|]. split; [reflexivity|].
    right. exists config. split; [reflexivity|]. left. exact T.
Qed.

(** The project with colliding stack files: the build rejects with the
    merger's error. *)
Lemma buildProject_rejects_before_writing_witness :
  let fs :=
    Dir [("app",
          Dir [ ("build", Dir [("kept.txt", File "old")]);
                ("schema.graphql", File "type T { id: ID! }");
                ("stacks", Dir [("Post.json", File "{ }")]) ])] in
  let opts :=
    {| Build.projectDirectory := ["app"];
       Build.transform :=
         fun _ => Ok {| schema := "type T { id: ID! }";
                        resolvers := [];
                        stacks := [("Post.json", Sample.postStack)];
                        rootStack := Sample.root;
                        functions := [] |};
       Build.rootStackFileName := None |} in
  Build.disk (Build.buildProject Sample.rc Sample.json opts fs) = fs
  /\ Build.dropped (Build.buildProject Sample.rc Sample.json opts fs) = [].
Proof.
  intros fs opts.
  destruct (buildProject_rejects_before_writing Sample.rc Sample.json opts fs
              (Error (Merger.duplicateStackMessage "Post.json")))
    as (H1 & H2 & _); [reflexivity|].
  split; assumption.
Defined.

(** X25.  A build writes below the project's [build] directory only, as
    long as the merged bundle it hands to the writer and the root stack file
    it asks for have names that are single path segments: whatever happens,
    everything on the disk that is neither that directory, nor inside it, nor
    a directory that contains it is as it was.  In particular the project's
    own sources are never modified. *)
Theorem buildProject_stays_in_build (rc : ResourceConstants) (json : JSON)
    (opts : Build.ProjectOptions) (fs : FS) (q : Path) :
  let name := match Build.rootStackFileName opts with
              | Some n => n
              | None => Writer.defaultRootStackFileName
              end in
  (forall config transformOutput merged,
     Loader.readProjectConfiguration json (Build.projectDirectory opts) fs
     = Resolved config ->
     Build.transform opts (Loader.config_schema config) = Ok transformOutput ->
     fst (Merger.mergeUserConfigWithTransformOutput rc
            (Loader.asPartial config) transformOutput) = Ok merged ->
     plainNames merged name = true) ->
  apart (path_join (Build.projectDirectory opts) "build") q ->
  lookup q (Build.disk (Build.buildProject rc json opts fs)) = lookup q fs.
Proof.
  intros name P A. unfold Build.buildProject.
  destruct (Loader.readProjectConfiguration json _ fs) as [config|e0];
    [|reflexivity].
  destruct (Build.transform opts _) as [transformOutput|e1] eqn:T;
    [|reflexivity].
  destruct (fst (Merger.mergeUserConfigWithTransformOutput rc _ _))
    as [merged|e2] eqn:M; [|reflexivity].
  pose proof (writeDeployment_keeps_outside json merged
                (path_join (Build.projectDirectory opts) "build")
                name q (P config transformOutput merged eq_refl T M) A fs)
    as K.
  unfold Writer.writeDeploymentToDisk. fold name.
  now destruct (Writer.writeDeployment _ _ _ _ fs).
Qed.

Lemma buildProject_stays_in_build_witness :
  lookup ["home"; "project"; "schema.graphql"]
    (Build.disk (Build.buildProject Sample.rc Sample.json SampleProject.opts
                   SampleProject.built))
  = lookup ["home"; "project"; "schema.graphql"] SampleProject.built.
Proof.
  apply (buildProject_stays_in_build Sample.rc Sample.json SampleProject.opts
           SampleProject.built ["home"; "project"; "schema.graphql"]).
  - intros config transformOutput merged L T M.
    vm_compute in L. injection L as <-.
    vm_compute in T. injection T as <-.
    vm_compute in M. injection M as <-.
    reflexivity.
  - split; intros r H; cbn in H; discriminate.
Defined.
